(** * Chat translation proxy: session hub, message router, cache and limiter

    A shallow embedding of the Go sources (hub.go, room.go, client.go,
    rest.go, websocket.go, translate.go, ratelimit.go) and the properties
    of the specification that are settled on it.

    Conventions of the embedding.
    - A Go pointer [*Client], [*Room] or [*time.Timer] is an index into a
      heap (a list that only grows: Go never frees an object that is still
      referenced).  A pointer that may be [nil] is an [option ptr].
    - The maps of the hub, of the limiter and of the cache are [gmap]s with
      string keys.
    - A [time.Time] is the monotonic clock reading in nanoseconds, a
      [time.Duration] a number of nanoseconds; both are integers, and the
      opposite of a duration wraps around as an int64 does.
    - Stateful code lives in the state monad [M] over [World]; the clock,
      the language model behind [generate] and [strings.TrimSpace] are the
      fields of the class [Oracle], and a token drawn by [generateToken] is
      an argument of the function that draws it.
    - A request served, a turn of a read loop and a timer's function are
      run one at a time in [handle], [reachable] and [reachableAny]: these
      are the runs in which no two handlers overlap.  The program has no
      lock around the fields of a room, so its handlers do overlap; the
      last part of the model runs the statements of the pieces of code
      that write a room's status side by side ([interleave]). *)

From Stdlib Require Import ZArith Lia.
From stdpp Require Import base option list strings gmap fin_maps.

Open Scope Z_scope.

(** ** Data model *)

Abbreviation ptr := nat (only parsing).
Abbreviation Conn := nat (only parsing).
Abbreviation Time := Z (only parsing).
Abbreviation Duration := Z (only parsing).

Definition Second : Duration := 1000000000.
Definition Minute : Duration := 60 * Second.

(** A [time.Duration] is an int64: its arithmetic wraps around. *)
Definition wrap64 (z : Z) : Z := (z + 2 ^ 63) mod 2 ^ 64 - 2 ^ 63.

(** [-d] on a [time.Duration]; it differs from the integers' opposite at
    the least value only, which is its own opposite. *)
Definition Duration_neg (d : Duration) : Duration := wrap64 (- d).

(** [t.Add(d)].  A [time.Time] spans more than any [Duration] to either
    side of a clock reading (when the monotonic reading would overflow,
    the runtime falls back on the wall clock, whose seconds are an int64
    of their own), so the sum does not wrap. *)
Definition Time_Add (t : Time) (d : Duration) : Time := t + d.

(** client.go *)
Record Client := mkClient {
  Token : string;
  Name : string;
  Language : string;
  Connection : option Conn;
}.

(** room.go *)
Inductive RoomStatus := RoomWaiting | RoomActive | RoomClosed | RoomClosing.

(** message.go *)
Record ChatMessage := mkChatMessage {
  Type_ : string;
  RoomID : string;
  From_ : string;
  Content : string;
  TranslatedContent : string;
}.

Record Room := mkRoom {
  ID : string;
  Customer : option ptr;
  Agent : option ptr;
  Status : RoomStatus;
  Messages : list ChatMessage;
  CloseTimer : option ptr;
}.

(** hub.go *)
Record Hub := mkHub {
  Clients : gmap string ptr;
  Rooms : gmap string ptr;
}.

(** ratelimit.go *)
Record RateLimiter := mkRateLimiter {
  limits : gmap string (list Time);
  maxMessages : Z;
  window : Duration;
}.

(** translate.go *)
Record cacheEntry := mkCacheEntry {
  text : string;
  createdAt : Time;
}.

Record Translator := mkTranslator {
  url : string;
  model : string;
  cacheTTL : Duration;
  cache : gmap string cacheEntry;
}.

(** The runtime's view of a timer made by [time.AfterFunc]: when it is due,
    the room its function closes over, and whether it is still scheduled,
    was stopped, or has expired and started its function. *)
Inductive TimerState := Scheduled | Stopped | Started.

Record Timer := mkTimer {
  tm_deadline : Time;
  tm_room : ptr;
  tm_state : TimerState;
}.

(** What is written to a websocket connection: the JSON of a [ChatMessage],
    a [RoomJoinedResponse], a [ChatEndedResponse] or an [ErrorResponse]. *)
Inductive Frame :=
| FChatMessage (m : ChatMessage)
| FRoomJoined (type_ roomID : string)
| FChatEnded (type_ roomID reason : string)
| FError (type_ message : string).

Record World := mkWorld {
  hub : Hub;
  translator : Translator;
  limiter : RateLimiter;
  clients : list Client;
  rooms : list Room;
  timers : list Timer;
  wire : list (Conn * Frame);
  accepted : nat;
  requests : list string;
  ticks : nat;
}.

Global Instance RoomStatus_eq_dec : EqDecision RoomStatus.
Proof. solve_decision. Defined.
Global Instance TimerState_eq_dec : EqDecision TimerState.
Proof. solve_decision. Defined.

Global Instance Client_inhabited : Inhabited Client := populate (mkClient "" "" "" None).
Global Instance Room_inhabited : Inhabited Room :=
  populate (mkRoom "" None None RoomWaiting [] None).
Global Instance Timer_inhabited : Inhabited Timer := populate (mkTimer 0 0%nat Stopped).

(** The world outside the program. [clock n] is the [n]-th reading of
    [time.Now]; [generate n prompt] is the answer of the model endpoint to
    the [n]-th request ([None] for a non-nil [error]). *)
Class Oracle := mkOracle {
  clock : nat → Time;
  generate : nat → string → option string;
  TrimSpace : string → string;
}.

(** ** The state monad *)

Definition M (A : Type) : Type := World → A * World.
Definition ret {A} (a : A) : M A := λ w, (a, w).
Definition bind {A B} (m : M A) (k : A → M B) : M B :=
  λ w, let '(a, w') := m w in k a w'.
Definition get {A} (f : World → A) : M A := λ w, (f w, w).
Definition modify (f : World → World) : M unit := λ w, (tt, f w).

Declare Scope go_scope.
Delimit Scope go_scope with go.
Notation "'let*' x ':=' m 'in' k" := (bind m (λ x, k))
  (at level 10, x name, m at level 100, k at level 200) : go_scope.
Notation "m ';;' k" := (bind m (λ _, k))
  (at level 100, k at level 200, right associativity) : go_scope.
Open Scope go_scope.

Definition set_hub (f : Hub → Hub) (w : World) : World :=
  mkWorld (f (hub w)) (translator w) (limiter w) (clients w) (rooms w) (timers w)
          (wire w) (accepted w) (requests w) (ticks w).
Definition set_translator (f : Translator → Translator) (w : World) : World :=
  mkWorld (hub w) (f (translator w)) (limiter w) (clients w) (rooms w) (timers w)
          (wire w) (accepted w) (requests w) (ticks w).
Definition set_limiter (f : RateLimiter → RateLimiter) (w : World) : World :=
  mkWorld (hub w) (translator w) (f (limiter w)) (clients w) (rooms w) (timers w)
          (wire w) (accepted w) (requests w) (ticks w).
Definition set_clients (f : list Client → list Client) (w : World) : World :=
  mkWorld (hub w) (translator w) (limiter w) (f (clients w)) (rooms w) (timers w)
          (wire w) (accepted w) (requests w) (ticks w).
Definition set_rooms (f : list Room → list Room) (w : World) : World :=
  mkWorld (hub w) (translator w) (limiter w) (clients w) (f (rooms w)) (timers w)
          (wire w) (accepted w) (requests w) (ticks w).
Definition set_timers (f : list Timer → list Timer) (w : World) : World :=
  mkWorld (hub w) (translator w) (limiter w) (clients w) (rooms w) (f (timers w))
          (wire w) (accepted w) (requests w) (ticks w).
Definition set_wire (f : list (Conn * Frame) → list (Conn * Frame)) (w : World) : World :=
  mkWorld (hub w) (translator w) (limiter w) (clients w) (rooms w) (timers w)
          (f (wire w)) (accepted w) (requests w) (ticks w).
Definition set_accepted (f : nat → nat) (w : World) : World :=
  mkWorld (hub w) (translator w) (limiter w) (clients w) (rooms w) (timers w)
          (wire w) (f (accepted w)) (requests w) (ticks w).
Definition set_requests (f : list string → list string) (w : World) : World :=
  mkWorld (hub w) (translator w) (limiter w) (clients w) (rooms w) (timers w)
          (wire w) (accepted w) (f (requests w)) (ticks w).
Definition set_ticks (f : nat → nat) (w : World) : World :=
  mkWorld (hub w) (translator w) (limiter w) (clients w) (rooms w) (timers w)
          (wire w) (accepted w) (requests w) (f (ticks w)).

(** Field updates of the heap objects. *)
Definition with_Language (l : string) (c : Client) : Client :=
  mkClient (Token c) (Name c) l (Connection c).
Definition with_Connection (k : option Conn) (c : Client) : Client :=
  mkClient (Token c) (Name c) (Language c) k.
Definition with_Agent (a : option ptr) (r : Room) : Room :=
  mkRoom (ID r) (Customer r) a (Status r) (Messages r) (CloseTimer r).
Definition with_Status (s : RoomStatus) (r : Room) : Room :=
  mkRoom (ID r) (Customer r) (Agent r) s (Messages r) (CloseTimer r).
Definition with_Messages (ms : list ChatMessage) (r : Room) : Room :=
  mkRoom (ID r) (Customer r) (Agent r) (Status r) ms (CloseTimer r).
Definition with_CloseTimer (t : option ptr) (r : Room) : Room :=
  mkRoom (ID r) (Customer r) (Agent r) (Status r) (Messages r) t.
Definition with_tm_state (s : TimerState) (t : Timer) : Timer :=
  mkTimer (tm_deadline t) (tm_room t) s.
Definition with_Content (s : string) (m : ChatMessage) : ChatMessage :=
  mkChatMessage (Type_ m) (RoomID m) (From_ m) s (TranslatedContent m).
Definition with_TranslatedContent (s : string) (m : ChatMessage) : ChatMessage :=
  mkChatMessage (Type_ m) (RoomID m) (From_ m) (Content m) s.
Definition with_Clients (f : gmap string ptr → gmap string ptr) (h : Hub) : Hub :=
  mkHub (f (Clients h)) (Rooms h).
Definition with_Rooms (f : gmap string ptr → gmap string ptr) (h : Hub) : Hub :=
  mkHub (Clients h) (f (Rooms h)).
Definition with_limits (f : gmap string (list Time) → gmap string (list Time))
    (r : RateLimiter) : RateLimiter :=
  mkRateLimiter (f (limits r)) (maxMessages r) (window r).
Definition with_cache (f : gmap string cacheEntry → gmap string cacheEntry)
    (t : Translator) : Translator :=
  mkTranslator (url t) (model t) (cacheTTL t) (f (cache t)).

(** Reads and writes through a pointer. *)
Definition client_at (p : ptr) (w : World) : Client := clients w !!! p.
Definition room_at (p : ptr) (w : World) : Room := rooms w !!! p.
Definition timer_at (p : ptr) (w : World) : Timer := timers w !!! p.
Definition load_client (p : ptr) : M Client := get (client_at p).
Definition load_room (p : ptr) : M Room := get (room_at p).
Definition store_client (p : ptr) (f : Client → Client) : M unit :=
  modify (set_clients (alter f p)).
Definition store_room (p : ptr) (f : Room → Room) : M unit :=
  modify (set_rooms (alter f p)).
Definition store_timer (p : ptr) (f : Timer → Timer) : M unit :=
  modify (set_timers (alter f p)).

(** [conn.Write(ctx, websocket.MessageText, data)]; a write error is logged
    by the callers and changes nothing else. *)
Definition conn_Write (c : Conn) (f : Frame) : M unit :=
  modify (set_wire (λ l, l ++ [(c, f)])).

(** A Go function that returns [(T, error)]. *)
Inductive result (A : Type) :=
| Ok (a : A)
| Err (msg : string).
Arguments Ok {A} a.
Arguments Err {A} msg.

(** ** hub.go *)

Definition NewHub : Hub := mkHub ∅ ∅.

(** client.go: [NewClient]; [token] is what [generateToken] drew. *)
Definition NewClient (token name language : string) : M ptr :=
  λ w, (length (clients w),
        set_clients (λ l, l ++ [mkClient token name language None]) w).

(** room.go *)
Definition NewRoom (id : string) (customer : option ptr) : M ptr :=
  λ w, (length (rooms w),
        set_rooms (λ l, l ++ [mkRoom id customer None RoomWaiting [] None]) w).

Definition AddClient (client : ptr) : M unit :=
  let* c := load_client client in
  modify (set_hub (with_Clients <[Token c := client]>)).

Definition RemoveClient (token : string) : M unit :=
  modify (set_hub (with_Clients (delete token))).

(** [token] is what [generateToken] drew for the room id. *)
Definition CreateRoom (token : string) (customer : option ptr) : M ptr :=
  let roomID := "room_" +:+ token in
  let* room := NewRoom roomID customer in
  modify (set_hub (with_Rooms <[roomID := room]>)) ;;
  ret room.

Definition JoinRoom (roomID : string) (agent : option ptr) : M (result ptr) :=
  let* h := get hub in
  match Rooms h !! roomID with
  | None => ret (Err ("room not found: " +:+ roomID))
  | Some room =>
    let* r := load_room room in
    if bool_decide (Status r ≠ RoomWaiting) then
      ret (Err ("room is not available: " +:+ roomID))
    else if bool_decide (Agent r ≠ None) then
      ret (Err ("agent is already in room: " +:+ roomID))
    else if bool_decide (Customer r = None) then
      ret (Err ("customer is required: " +:+ roomID))
    else
      store_room room (with_Agent agent) ;;
      store_room room (with_Status RoomActive) ;;
      ret (Ok room)
  end.

(** The iteration order of a Go map is unspecified; the order of
    [map_to_list] stands for one of them. *)
Definition GetWaitingRooms : M (list ptr) :=
  λ w, (filter (λ room, Status (room_at room w) = RoomWaiting)
               (snd <$> map_to_list (Rooms (hub w))), w).

Definition GetRoom (roomID : string) : M (option ptr) :=
  get (λ w, Rooms (hub w) !! roomID).

Definition IsAgentInRoom (agentToken : string) : M bool :=
  λ w, (existsb (λ room,
          let r := room_at room w in
          match Agent r with
          | Some a => bool_decide (Token (client_at a w) = agentToken)
                      && bool_decide (Status r = RoomActive)
          | None => false
          end) (snd <$> map_to_list (Rooms (hub w))), w).

Definition RemoveRoom (roomID : string) : M unit :=
  modify (set_hub (with_Rooms (delete roomID))).

Definition GetClient (token : string) : M (option ptr) :=
  get (λ w, Clients (hub w) !! token).

(** ** Timers and goroutines

    A goroutine is a tree of atomic statements: [Tstep f k] runs the state
    change [f] and continues as [k w] for the state [w] it ran in.  The
    handlers below run such a tree to its end ([run_thread]); the scheduler
    at the end of the model interleaves the statements of several. *)
Inductive Thread :=
| Tdone
| Tstep (f : World → World) (k : World → Thread).

Fixpoint run_thread (t : Thread) (w : World) : unit * World :=
  match t with
  | Tdone => (tt, w)
  | Tstep f k => run_thread (k w) (f w)
  end.

(** [t.Stop()]: prevents a scheduled timer from firing and reports whether
    it did; a timer that has expired has started its function already. *)
Definition Timer_Stop (t : ptr) : M bool :=
  let* tm := get (timer_at t) in
  if bool_decide (tm_state tm = Scheduled) then
    store_timer t (with_tm_state Stopped) ;; ret true
  else ret false.

(** rest.go, handleEndChat: the function given to [time.AfterFunc]. *)
Definition notifyClosed (room : ptr) : M unit :=
  let* r := load_room room in
  match Customer r with
  | Some c =>
    let* cust := load_client c in
    match Connection cust with
    | Some conn => conn_Write conn (FChatEnded "chat_ended" (ID r) "closed")
    | None => ret tt
    end
  | None => ret tt
  end.

Definition closeFunc (room : ptr) : Thread :=
  Tstep (λ w, snd (store_room room (with_Status RoomClosed) w)) (λ _,
  Tstep (λ w, snd (RemoveRoom (ID (room_at room w)) w)) (λ _,
  Tstep (λ w, snd (notifyClosed room w)) (λ _,
  Tdone))).

(** websocket.go, handleWebSocket: the block that reopens a closing room. *)
Definition reopenCond (room client : ptr) (w : World) : bool :=
  let r := room_at room w in
  bool_decide (Status r = RoomClosing)
  && match Customer r with
     | Some c => bool_decide (Token (client_at c w) = Token (client_at client w))
     | None => false
     end.

Definition reopenRoom (room client : ptr) : Thread :=
  Tstep id (λ w,
    if reopenCond room client w then
      Tstep id (λ w,
        match CloseTimer (room_at room w) with
        | Some t =>
          Tstep (λ w, snd (Timer_Stop t w)) (λ _,
          Tstep (λ w, snd (store_room room (with_CloseTimer None) w)) (λ _,
          Tstep (λ w, snd (store_room room (with_Status RoomWaiting) w)) (λ _,
          Tdone)))
        | None =>
          Tstep (λ w, snd (store_room room (with_Status RoomWaiting) w)) (λ _,
          Tdone)
        end)
    else Tdone).

(** ** rest.go: requests and responses *)

Inductive StartChatRequest := mkStartChatRequest (name content : string).
Inductive SetProfileRequest := mkSetProfileRequest (name language : string).
Inductive RoomRequest := mkRoomRequest (room_id : string).

(** An HTTP request as the handlers read it: the method, the Authorization
    header and the JSON body ([None] when it does not decode). *)
Record Request (B : Type) := mkRequest {
  Method : string;
  Authorization : string;
  Body : option B;
}.
Arguments mkRequest {B}.
Arguments Method {B}.
Arguments Authorization {B}.
Arguments Body {B}.

Inductive Response :=
| HttpError (msg : string) (code : nat)
| StartChatResponse (token roomID : string)
| SetProfileResponse (token : string)
| RoomJoinedResponse (type_ roomID : string)
| ChatEndedResponse (type_ roomID reason : string).

Definition StatusBadRequest : nat := 400.
Definition StatusUnauthorized : nat := 401.
Definition StatusForbidden : nat := 403.
Definition StatusNotFound : nat := 404.
Definition StatusMethodNotAllowed : nat := 405.
Definition StatusConflict : nat := 409.

Fixpoint cut_prefix (prefix s : string) : option string :=
  match prefix, s with
  | EmptyString, _ => Some s
  | String a prefix', String b s' =>
    if bool_decide (a = b) then cut_prefix prefix' s' else None
  | String _ _, EmptyString => None
  end.

(** [strings.TrimPrefix] *)
Definition TrimPrefix (s prefix : string) : string :=
  default s (cut_prefix prefix s).

(** [if other != nil && other.Connection != nil { other.Connection.Write(..) }] *)
Definition notify (other : option ptr) (f : Frame) : M unit :=
  match other with
  | Some o =>
    let* c := load_client o in
    match Connection c with
    | Some conn => conn_Write conn f
    | None => ret tt
    end
  | None => ret tt
  end.

(** [token] is the token drawn for the new agent. *)
Definition handleSetProfile (token : string) (r : Request SetProfileRequest)
    : M Response :=
  if negb (bool_decide (Method r = "POST")) then
    ret (HttpError "method not allowed" StatusMethodNotAllowed) else
  match Body r with
  | None => ret (HttpError "invalid json" StatusBadRequest)
  | Some (mkSetProfileRequest name language) =>
    if bool_decide (name = "") || bool_decide (language = "") then
      ret (HttpError "name and language are required" StatusBadRequest) else
    let* agent := NewClient token name language in
    AddClient agent ;;
    ret (SetProfileResponse token)
  end.

(** [token] and [roomToken] are the tokens drawn for the new customer and
    for the room id. *)
Definition handleStartChat (token roomToken : string) (r : Request StartChatRequest)
    : M Response :=
  if negb (bool_decide (Method r = "POST")) then
    ret (HttpError "method not allowed" StatusMethodNotAllowed) else
  match Body r with
  | None => ret (HttpError "invalid json" StatusBadRequest)
  | Some (mkStartChatRequest name content) =>
    if bool_decide (name = "") || bool_decide (content = "") then
      ret (HttpError "name and content are required" StatusBadRequest) else
    let* customer := NewClient token name "" in
    AddClient customer ;;
    let* room := CreateRoom roomToken (Some customer) in
    let* rm := load_room room in
    let* c := load_client customer in
    let msg := mkChatMessage "message" (ID rm) (Name c) content "" in
    store_room room (with_Messages (Messages rm ++ [msg])) ;;
    ret (StartChatResponse (Token c) (ID rm))
  end.

Definition handleJoinRoom (r : Request RoomRequest) : M Response :=
  if negb (bool_decide (Method r = "POST")) then
    ret (HttpError "method not allowed" StatusMethodNotAllowed) else
  let token := TrimPrefix (Authorization r) "Bearer " in
  if bool_decide (token = "") then
    ret (HttpError "token required" StatusUnauthorized) else
  let* found := GetClient token in
  match found with
  | None => ret (HttpError "invalid token" StatusUnauthorized)
  | Some agent =>
    let* a := load_client agent in
    let* busy := IsAgentInRoom (Token a) in
    if busy then ret (HttpError "already in a room" StatusConflict) else
    match Body r with
    | None => ret (HttpError "invalid json" StatusBadRequest)
    | Some (mkRoomRequest roomID) =>
      let* joined := JoinRoom roomID (Some agent) in
      match joined with
      | Err msg => ret (HttpError msg StatusBadRequest)
      | Ok room =>
        (* Notify the customer via WebSocket if they're connected *)
        let* rm := load_room room in
        notify (Customer rm) (FRoomJoined "room_joined" (ID rm)) ;;
        ret (RoomJoinedResponse "room_joined" (ID rm))
      end
    end
  end.

Section Model.
Context `{Oracle}.

Definition time_Now : M Time :=
  λ w, (clock (ticks w), set_ticks S w).

(** [t.After(u)] *)
Definition After (t u : Time) : bool := bool_decide (u < t).

(** ** ratelimit.go *)

Definition NewRateLimiter (maxMessages : Z) (window : Duration) : RateLimiter :=
  mkRateLimiter ∅ maxMessages window.

(** The loop of [Allow] that collects the stamps after the cutoff. *)
Definition recentStamps (cutoff : Time) (stamps : list Time) : list Time :=
  filter (λ t, After t cutoff = true) stamps.

Definition Allow (token : string) : M bool :=
  let* now := time_Now in
  let* r := get limiter in
  let cutoff := Time_Add now (Duration_neg (window r)) in
  let recent := recentStamps cutoff (default [] (limits r !! token)) in
  if bool_decide (maxMessages r ≤ Z.of_nat (length recent)) then
    modify (set_limiter (with_limits <[token := recent]>)) ;;
    ret false
  else
    let* now' := time_Now in
    modify (set_limiter (with_limits <[token := recent ++ [now']]>)) ;;
    ret true.

(** ** translate.go *)

Definition NewTranslator (url model : string) (cacheTTL : Duration) : Translator :=
  mkTranslator url model cacheTTL ∅.

(** [t.generate(prompt)]: one request to the model endpoint. *)
Definition Translator_generate (prompt : string) : M (option string) :=
  λ w, (generate (length (requests w)) prompt,
        set_requests (λ l, l ++ [prompt]) w).

Definition DetectLanguage (text : string) : M (option string) :=
  let prompt :=
    "What language is this text? Reply with ONLY the ISO language code (e.g. en, pt, es, fr): "
    +:+ text in
  Translator_generate prompt.

Definition translatePrompt (text fromLanguage toLanguage : string) : string :=
  "Translate the following text from " +:+ fromLanguage +:+ " to " +:+ toLanguage
  +:+ ". Return ONLY the translation, nothing else: " +:+ text.

Definition cacheKey (fromLanguage toLanguage text : string) : string :=
  fromLanguage +:+ ":" +:+ toLanguage +:+ ":" +:+ text.

(** [time.Since(t)] for a [t] that was read from the clock. *)
Definition Since (now t : Time) : Duration := now - t.

(** [time.Since] of the zero [Time] (the [createdAt] of the zero
    [cacheEntry] that a failed map lookup yields) saturates. *)
Definition maxDuration : Duration := 2 ^ 63 - 1.

Definition Translate (txt fromLanguage toLanguage : string) : M (option string) :=
  let prompt := translatePrompt txt fromLanguage toLanguage in
  let key := cacheKey fromLanguage toLanguage txt in
  let* t := get translator in
  let translated := cache t !! key in
  let ok := bool_decide (is_Some translated) in
  let* now := time_Now in
  let expired :=
    match translated with
    | Some e => bool_decide (cacheTTL t < Since now (createdAt e))
    | None => bool_decide (cacheTTL t < maxDuration)
    end in
  if negb ok || expired then
    let* translated := Translator_generate prompt in
    match translated with
    | None => ret None
    | Some translated =>
      let* now' := time_Now in
      modify (set_translator (with_cache <[key := mkCacheEntry translated now']>)) ;;
      ret (Some translated)
    end
  else
    ret (text <$> translated).

(** ** websocket.go: prepareMessage *)

(** The first block of [prepareMessage]: detect the customer's language
    if it is unknown.  [false] is the early [return msg] on a failed
    detection. *)
Definition detectCustomerLanguage (room sender : ptr) (content : string) : M bool :=
  let* r := load_room room in
  let* s := load_client sender in
  if bool_decide (Some sender = Customer r) && bool_decide (Language s = "") then
    let* lang := DetectLanguage content in
    match lang with
    | None => ret false
    | Some lang => store_client sender (with_Language (TrimSpace lang)) ;; ret true
    end
  else ret true.

(** The test before the translation: both languages known and different. *)
Definition languagesDiffer (sender recipient : ptr) (w : World) : bool :=
  let s := client_at sender w in
  let rc := client_at recipient w in
  negb (bool_decide (Language s = "") || bool_decide (Language rc = "")
        || bool_decide (Language s = Language rc)).

Definition prepareMessage (room sender recipient : ptr) (content : string)
    : M ChatMessage :=
  let* r := load_room room in
  let* s := load_client sender in
  let msg := mkChatMessage "message" (ID r) (Name s) content "" in
  (* Detect customer language if unknown *)
  let* detected := detectCustomerLanguage room sender content in
  if negb detected then ret msg else
  (* Skip if either language is unknown or they're the same *)
  let* differ := get (languagesDiffer sender recipient) in
  if negb differ then ret msg else
  (* Translate *)
  let* s := load_client sender in
  let* rc := load_client recipient in
  let* translated := Translate content (Language s) (Language rc) in
  match translated with
  | None => ret msg
  | Some translated =>
    let translated := TrimSpace translated in
    (* Customer sees translated only, agent sees both *)
    let* r := load_room room in
    if bool_decide (Some recipient = Customer r) then
      ret (with_Content translated msg)
    else
      ret (with_TranslatedContent translated msg)
  end.

(** The translation [prepareMessage] obtains, if it gets to ask for one
    and the translator answers. *)
Definition translationOf (room sender recipient : ptr) (content : string) (w : World)
    : option string :=
  let '(detected, w1) := detectCustomerLanguage room sender content w in
  if detected && languagesDiffer sender recipient w1 then
    fst (Translate content (Language (client_at sender w1))
                   (Language (client_at recipient w1)) w1)
  else None.

(** ** rest.go: handleEndChat and the close timer *)

(** [time.AfterFunc(d, f)] for the function [closeFunc room]. *)
Definition AfterFunc (d : Duration) (room : ptr) : M ptr :=
  let* now := time_Now in
  λ w, (length (timers w),
        set_timers (λ l, l ++ [mkTimer (now + d) room Scheduled]) w).

(** The runtime looks at a timer: one that is scheduled and due expires,
    and its function is started as a goroutine. *)
Definition Timer_expire (t : ptr) : M (option Thread) :=
  let* tm := get (timer_at t) in
  let* now := time_Now in
  if bool_decide (tm_state tm = Scheduled) && bool_decide (tm_deadline tm ≤ now) then
    store_timer t (with_tm_state Started) ;;
    ret (Some (closeFunc (tm_room tm)))
  else ret None.

(** The timer's function run without interruption. *)
Definition timerFires (t : ptr) : M unit :=
  let* started := Timer_expire t in
  match started with
  | Some f => run_thread f
  | None => ret tt
  end.

Definition handleEndChat (r : Request RoomRequest) : M Response :=
  if negb (bool_decide (Method r = "POST")) then
    ret (HttpError "method not allowed" StatusMethodNotAllowed) else
  let token := TrimPrefix (Authorization r) "Bearer " in
  if bool_decide (token = "") then
    ret (HttpError "token required" StatusUnauthorized) else
  let* found := GetClient token in
  match found with
  | None => ret (HttpError "invalid token" StatusUnauthorized)
  | Some client =>
    match Body r with
    | None => ret (HttpError "invalid json" StatusBadRequest)
    | Some (mkRoomRequest roomID) =>
      let* found := GetRoom roomID in
      match found with
      | None => ret (HttpError "room not found" StatusNotFound)
      | Some room =>
        (* Figure out who ended it and who needs to be notified *)
        let* rm := load_room room in
        let* c := load_client client in
        let* byCustomer :=
          match Customer rm with
          | Some cu =>
            let* cust := load_client cu in
            ret (bool_decide (Token cust = Token c))
          | None => ret false
          end in
        let* ended :=
          if byCustomer then
            store_room room (with_Status RoomClosed) ;;
            RemoveRoom (ID rm) ;;
            ret ("customer_left", Agent rm)
          else
            store_room room (with_Status RoomClosing) ;;
            store_room room (with_Agent None) ;;
            let* t := AfterFunc (5 * Minute) room in
            store_room room (with_CloseTimer (Some t)) ;;
            ret ("agent_left", Customer rm) in
        (* Notify the other participant via WebSocket *)
        notify (snd ended) (FChatEnded "chat_ended" (ID rm) (fst ended)) ;;
        ret (ChatEndedResponse "chat_ended" (ID rm) (fst ended))
      end
    end
  end.

(** The else branch of [handleEndChat], taken when the caller does not
    hold the customer's token, statement by statement: read [other], set
    the status, clear the agent, make the timer, record it, notify. *)
Definition agentLeaves (room : ptr) : Thread :=
  Tstep id (λ w0,
  let other := Customer (room_at room w0) in
  Tstep (λ w, snd (store_room room (with_Status RoomClosing) w)) (λ _,
  Tstep (λ w, snd (store_room room (with_Agent None) w)) (λ _,
  Tstep (λ w, snd (AfterFunc (5 * Minute) room w)) (λ w1,
  let t := fst (AfterFunc (5 * Minute) room w1) in
  Tstep (λ w, snd (store_room room (with_CloseTimer (Some t)) w)) (λ _,
  Tstep (λ w, snd (notify other
                     (FChatEnded "chat_ended" (ID (room_at room w)) "agent_left") w)) (λ _,
  Tdone)))))).

(** ** websocket.go: handleWebSocket *)

(** The local variables of one run of the handler. *)
Record Session := mkSession {
  ses_client : ptr;
  ses_room : ptr;
  ses_conn : Conn;
  ses_recipient : option ptr;
}.

(** How the handler gets to its read loop, if it does. [Panicked] is the
    nil dereference of [room.Customer.Token]. *)
Inductive Upgrade :=
| Refused (resp : Response)
| AcceptFailed
| Panicked
| Serving (s : Session).

(** [defer func() { client.Connection = nil }()] *)
Definition wsDeferred (client : ptr) : M unit :=
  store_client client (with_Connection None).

Fixpoint replay (room customer client : ptr) (conn : Conn) (msgs : list ChatMessage)
    : M unit :=
  match msgs with
  | [] => ret tt
  | msg :: msgs' =>
    let* chatMsg := prepareMessage room customer client (Content msg) in
    conn_Write conn (FChatMessage chatMsg) ;;
    replay room customer client conn msgs'
  end.

(** From the request to the read loop; [acceptOk] tells whether
    [websocket.Accept] succeeds. *)
Definition wsConnect (token roomID : string) (acceptOk : bool) : M Upgrade :=
  if bool_decide (token = "") then
    ret (Refused (HttpError "token required" StatusUnauthorized)) else
  if bool_decide (roomID = "") then
    ret (Refused (HttpError "room_id required" StatusBadRequest)) else
  let* found := GetClient token in
  match found with
  | None => ret (Refused (HttpError "invalid token" StatusUnauthorized))
  | Some client =>
    let* found := GetRoom roomID in
    match found with
    | None => ret (Refused (HttpError "room not found" StatusNotFound))
    | Some room =>
      (* Verify this client belongs to this room *)
      let* rm := load_room room in
      let* w := get id in
      let holds (slot : option ptr) : bool :=
        match slot with
        | Some p => bool_decide (Token (client_at p w) = token)
        | None => false
        end in
      if negb (holds (Customer rm)) && negb (holds (Agent rm)) then
        ret (Refused (HttpError "you are not in this room" StatusForbidden)) else
      if negb acceptOk then ret AcceptFailed else
      let* conn := get accepted in
      modify (set_accepted S) ;;
      store_client client (with_Connection (Some conn)) ;;
      (* Find the recipient *)
      match Customer rm with
      | None => wsDeferred client ;; ret Panicked
      | Some cu =>
        let* cust := load_client cu in
        let* c := load_client client in
        let recipient :=
          if bool_decide (Token cust = Token c) then Agent rm else Customer rm in
        (* Send message history to the agent on connect *)
        (if bool_decide (Some client = Agent rm) then
           replay room cu client conn (Messages rm)
         else ret tt) ;;
        ret (Serving (mkSession client room conn recipient))
      end
    end
  end.

(** What [conn.Read] and [json.Unmarshal] give the loop. *)
Inductive Inbound :=
| ReadError
| InvalidJSON
| Payload (content : string).

Inductive Flow := Continue | Break.

(** The head of a turn: rate limit check, record in history, reject
    messages to a closed room.  [Some flow] when the turn ends here. *)
Definition wsRecord (s : Session) (content : string) : M (option Flow) :=
  let client := ses_client s in
  let room := ses_room s in
  let conn := ses_conn s in
  let* c := load_client client in
  (* Rate limit check *)
  let* allowed := Allow (Token c) in
  if negb allowed then
    conn_Write conn (FError "error" "rate limit exceeded") ;;
    ret (Some Continue)
  else
  (* Record in history *)
  let* rm := load_room room in
  store_room room
    (with_Messages (Messages rm ++ [mkChatMessage "message" (ID rm) (Name c) content ""])) ;;
  (* Reject messages to a closed room *)
  let* rm := load_room room in
  if bool_decide (Status rm = RoomClosed) then
    conn_Write conn (FError "error" "room is closed") ;;
    ret (Some Break)
  else ret None.

(** The tail of a turn: live delivery to the recipient, if connected. *)
Definition wsDeliver (s : Session) (content : string) : M Flow :=
  match ses_recipient s with
  | None => ret Continue
  | Some recipient =>
    let* rc := load_client recipient in
    match Connection rc with
    | None => ret Continue
    | Some _ =>
      let* chatMsg := prepareMessage (ses_room s) (ses_client s) recipient content in
      let* rc := load_client recipient in
      match Connection rc with
      | Some rconn => conn_Write rconn (FChatMessage chatMsg)
      | None => ret tt
      end ;;
      ret Continue
    end
  end.

(** One turn of the read loop. *)
Definition wsIteration (s : Session) (inb : Inbound) : M Flow :=
  match inb with
  | ReadError => ret Break
  | InvalidJSON => ret Continue
  | Payload content =>
    let* ended := wsRecord s content in
    match ended with
    | Some flow => ret flow
    | None =>
      (* Customer sends a message while room is closing *)
      run_thread (reopenRoom (ses_room s) (ses_client s)) ;;
      wsDeliver s content
    end
  end.

(** A turn of the loop, and the deferred calls when it leaves the loop. *)
Definition wsTurn (s : Session) (inb : Inbound) : M Flow :=
  let* flow := wsIteration s inb in
  match flow with
  | Continue => ret Continue
  | Break => wsDeferred (ses_client s) ;; ret Break
  end.

(** ** The program as a transition system

    One event is one request served, one turn of a connection's read loop,
    or one timer firing, each run without interruption. *)
Inductive Event :=
| EvSetProfile (token : string) (r : Request SetProfileRequest)
| EvStartChat (token roomToken : string) (r : Request StartChatRequest)
| EvJoinRoom (r : Request RoomRequest)
| EvEndChat (r : Request RoomRequest)
| EvConnect (token roomID : string) (acceptOk : bool)
| EvTurn (s : Session) (inb : Inbound)
| EvTimer (t : ptr).

Definition handle (e : Event) : M unit :=
  match e with
  | EvSetProfile token r => handleSetProfile token r ;; ret tt
  | EvStartChat token roomToken r => handleStartChat token roomToken r ;; ret tt
  | EvJoinRoom r => handleJoinRoom r ;; ret tt
  | EvEndChat r => handleEndChat r ;; ret tt
  | EvConnect token roomID acceptOk => wsConnect token roomID acceptOk ;; ret tt
  | EvTurn s inb => wsTurn s inb ;; ret tt
  | EvTimer t => timerFires t
  end.

(** [generateToken] draws 128 random bits: the id of a new room is taken
    to differ from the id of every room made before. *)
Definition freshDraw (e : Event) (w : World) : Prop :=
  match e with
  | EvStartChat _ roomToken _ => ∀ rm, rm ∈ rooms w → ID rm ≠ "room_" +:+ roomToken
  | _ => True
  end.

(** main.go: the state the handlers start from. *)
Definition initial (t : Translator) (l : RateLimiter) : World :=
  mkWorld NewHub t l [] [] [] [] 0 [] 0.

Inductive reachable : World → Prop :=
| reachable_initial url model ttl maxMessages window :
    reachable (initial (NewTranslator url model ttl) (NewRateLimiter maxMessages window))
| reachable_event w e :
    reachable w → freshDraw e w → reachable (snd (handle e w)).

Definition run_events (es : list Event) (w : World) : World :=
  foldl (λ w e, snd (handle e w)) w es.

(** The operations of the hub alone, with any arguments. *)
Inductive HubOp :=
| OpAddClient (client : ptr)
| OpRemoveClient (token : string)
| OpCreateRoom (token : string) (customer : option ptr)
| OpJoinRoom (roomID : string) (agent : option ptr)
| OpRemoveRoom (roomID : string).

Definition hubOp (o : HubOp) : M unit :=
  match o with
  | OpAddClient client => AddClient client
  | OpRemoveClient token => RemoveClient token
  | OpCreateRoom token customer => CreateRoom token customer ;; ret tt
  | OpJoinRoom roomID agent => JoinRoom roomID agent ;; ret tt
  | OpRemoveRoom roomID => RemoveRoom roomID
  end.


(** ** Goroutines side by side

    The pool holds what is left of each goroutine.  An action lets one of
    them run its next statement, or lets the runtime expire a timer and
    start its function as a new goroutine. *)
Inductive Action :=
| ActStep (i : nat)
| ActExpire (t : ptr).

Definition act (a : Action) (cfg : World * list Thread) : World * list Thread :=
  match a with
  | ActStep i =>
    match snd cfg !! i with
    | Some (Tstep f k) => (f (fst cfg), <[i := k (fst cfg)]> (snd cfg))
    | _ => cfg
    end
  | ActExpire t =>
    match Timer_expire t (fst cfg) with
    | (Some f, w') => (w', snd cfg ++ [f])
    | (None, w') => (w', snd cfg)
    end
  end.

Definition interleave (l : list Action) (cfg : World * list Thread)
    : World * list Thread :=
  foldl (λ c a, act a c) cfg l.

(** What the invariants read of a state: the hub, the rooms, the timers and
    the token of every client. *)
Definition tokens (w : World) : list string := Token <$> clients w.

Definition core (w : World) : Hub * list Room * list Timer * list string :=
  (hub w, rooms w, timers w, tokens w).

(** ** Invariants *)

(** Section 3 of the specification: every room's customer and agent token
    has an entry in the hub's map of clients. *)
Definition slotRegistered (w : World) (slot : option ptr) : Prop :=
  ∀ p, slot = Some p → is_Some (Clients (hub w) !! Token (client_at p w)).

Definition participantsRegistered (w : World) : Prop :=
  ∀ id room, Rooms (hub w) !! id = Some room →
    slotRegistered w (Customer (room_at room w))
    ∧ slotRegistered w (Agent (room_at room w)).

(** When a direct call of a hub operation keeps [participantsRegistered]:
    a room is created for, or joined by, a registered client only, and a
    client is removed only if no room of the hub refers to its token. *)
Definition keepsRegistration (o : HubOp) (w : World) : Prop :=
  match o with
  | OpAddClient _ => True
  | OpRemoveClient token =>
    ∀ id room p, Rooms (hub w) !! id = Some room →
      Customer (room_at room w) = Some p ∨ Agent (room_at room w) = Some p →
      Token (client_at p w) ≠ token
  | OpCreateRoom _ customer => slotRegistered w customer
  | OpJoinRoom _ agent => slotRegistered w agent
  | OpRemoveRoom _ => True
  end.



(** What every reachable state satisfies. *)
Record wfc (h : Hub) (rs : list Room) (ts : list Timer) (tk : list string) : Prop := {
  wf_unoccupied : ∀ room rm, rs !! room = Some rm →
    Status rm = RoomWaiting ∨ Status rm = RoomClosing → Agent rm = None;
  wf_registered : ∀ room rm, rs !! room = Some rm →
    Status rm ≠ RoomClosed → Rooms h !! ID rm = Some room;
  wf_hub_rooms : ∀ id room, Rooms h !! id = Some room →
    ∃ rm, rs !! room = Some rm ∧ ID rm = id;
  wf_ids : ∀ p q a b, rs !! p = Some a → rs !! q = Some b → ID a = ID b → p = q;
  wf_timer : ∀ room rm, rs !! room = Some rm → Status rm = RoomClosing →
    ∃ t tm, CloseTimer rm = Some t ∧ ts !! t = Some tm
            ∧ tm_state tm = Scheduled ∧ tm_room tm = room;
  wf_timer_room : ∀ t tm, ts !! t = Some tm → is_Some (rs !! tm_room tm);
  wf_hub_clients : ∀ t p, Clients h !! t = Some p → tk !! p = Some t;
  wf_members : ∀ room rm p, rs !! room = Some rm →
    Customer rm = Some p ∨ Agent rm = Some p →
    ∃ t, tk !! p = Some t ∧ is_Some (Clients h !! t);
}.

Definition wf (w : World) : Prop := wfc (hub w) (rooms w) (timers w) (tokens w).

(** [n] calls of [Allow] in a row, with their answers. *)
Fixpoint allowMany (token : string) (n : nat) : M (list bool) :=
  match n with
  | O => ret []
  | S n' =>
    let* b := Allow token in
    let* bs := allowMany token n' in
    ret (b :: bs)
  end.

(** [Allow] for one identity after the other, with the answers. *)
Fixpoint allowEach (tokens : list string) : M (list bool) :=
  match tokens with
  | [] => ret []
  | token :: tokens' =>
    let* b := Allow token in
    let* bs := allowEach tokens' in
    ret (b :: bs)
  end.

(** No identity holds more stamps than the limit. *)
Definition limiterBounded (r : RateLimiter) : Prop :=
  ∀ token stamps, limits r !! token = Some stamps →
    Z.of_nat (length stamps) ≤ Z.max 0 (maxMessages r).

(** The cache holds an entry under [key] that is no older than the TTL. *)
Definition cacheFresh (key : string) (w : World) : bool :=
  match cache (translator w) !! key with
  | Some e => bool_decide (Since (clock (ticks w)) (createdAt e) ≤ cacheTTL (translator w))
  | None => false
  end.

(** The sender is the room's customer and its language is not known yet:
    the case in which [prepareMessage] asks for a detection. *)
Definition needsDetection (room sender : ptr) (w : World) : bool :=
  bool_decide (Some sender = Customer (room_at room w))
  && bool_decide (Language (client_at sender w) = "").

(** The message [prepareMessage] starts from. *)
Definition plainMessage (room sender : ptr) (content : string) (w : World) : ChatMessage :=
  mkChatMessage "message" (ID (room_at room w)) (Name (client_at sender w)) content "".

(** The prompt of [DetectLanguage]. *)
Definition detectPrompt (text : string) : string :=
  "What language is this text? Reply with ONLY the ISO language code (e.g. en, pt, es, fr): "
  +:+ text.

(** ** rest.go: handleRooms *)

Record RoomInfo := mkRoomInfo {
  info_RoomID : string;
  info_CustomerName : string;
  info_Language : string;
}.

(** What [handleRooms] answers; [RoomsPanic] is the nil dereference of
    [room.Customer.Name]. *)
Inductive RoomsResponse :=
| RoomsError (msg : string) (code : nat)
| RoomsPanic
| RoomsList (result : list RoomInfo).

(** The loop of [handleRooms] over the waiting rooms. *)
Fixpoint roomInfos (waiting : list ptr) (w : World) : option (list RoomInfo) :=
  match waiting with
  | [] => Some []
  | room :: waiting' =>
    let rm := room_at room w in
    match Customer rm with
    | None => None
    | Some c =>
      let cu := client_at c w in
      match roomInfos waiting' w with
      | None => None
      | Some result => Some (mkRoomInfo (ID rm) (Name cu) (Language cu) :: result)
      end
    end
  end.

Definition handleRooms (r : Request unit) : M RoomsResponse :=
  if negb (bool_decide (Method r = "GET")) then
    ret (RoomsError "method not allowed" StatusMethodNotAllowed) else
  let* waiting := GetWaitingRooms in
  let* w := get id in
  match roomInfos waiting w with
  | Some result => ret (RoomsList result)
  | None => ret RoomsPanic
  end.

(** ** The life of a room

    How one event may change the status and the agent of a room: not at
    all; a waiting room is joined by an agent that is in no active room;
    the agent leaves and the room is closing; a closing room is reopened;
    the room is closed. *)
Inductive lifecycle (w : World) (rm rm' : Room) : Prop :=
| life_same :
    Status rm' = Status rm → Agent rm' = Agent rm → lifecycle w rm rm'
| life_joined (a : ptr) :
    Status rm = RoomWaiting → Agent rm = None →
    Status rm' = RoomActive → Agent rm' = Some a →
    is_Some (clients w !! a) →
    fst (IsAgentInRoom (Token (client_at a w)) w) = false →
    lifecycle w rm rm'
| life_agent_left :
    Status rm ≠ RoomClosed → Status rm' = RoomClosing → Agent rm' = None →
    lifecycle w rm rm'
| life_reopened :
    Status rm = RoomClosing → Status rm' = RoomWaiting → Agent rm' = None →
    lifecycle w rm rm'
| life_closed :
    Status rm' = RoomClosed → Agent rm' = Agent rm → lifecycle w rm rm'.

(** One event changes at most the room [room]: a room that exists keeps
    its id and its customer, its history is extended, and its status and
    agent move along [lifecycle]; a room that is new waits for an agent
    and has a customer. *)
Definition roomStep (w w' : World) (room : ptr) : Prop :=
  (∀ p, p ≠ room → rooms w' !! p = rooms w !! p)
  ∧ match rooms w !! room, rooms w' !! room with
    | Some rm, Some rm' =>
      ID rm' = ID rm ∧ Customer rm' = Customer rm
      ∧ Messages rm `prefix_of` Messages rm' ∧ lifecycle w rm rm'
    | None, Some rm' =>
      Status rm' = RoomWaiting ∧ Agent rm' = None ∧ is_Some (Customer rm')
    | None, None => True
    | Some _, None => False
    end.

Record evolves (w w' : World) : Prop := {
  ev_tokens : tokens w `prefix_of` tokens w';
  ev_registered : ∀ t, is_Some (Clients (hub w) !! t) → is_Some (Clients (hub w') !! t);
  ev_rooms : ∃ room, roomStep w w' room;
}.

(** A room that the hub finds is not closed. *)
Definition hubOpen (w : World) : Prop :=
  ∀ id room, Rooms (hub w) !! id = Some room → Status (room_at room w) ≠ RoomClosed.

(** No token is the agent's token of two active rooms. *)
Definition agentsDistinct (w : World) : Prop :=
  ∀ p q rp rq a b,
    rooms w !! p = Some rp → rooms w !! q = Some rq →
    Status rp = RoomActive → Status rq = RoomActive →
    Agent rp = Some a → Agent rq = Some b →
    Token (client_at a w) = Token (client_at b w) → p = q.

(** Every room has a customer, and the customer is a client. *)
Definition roomsHaveCustomers (w : World) : Prop :=
  ∀ p rm, rooms w !! p = Some rm →
    ∃ c, Customer rm = Some c ∧ is_Some (clients w !! c).

End Model.

(** ** A concrete outside world, for the examples *)

Fixpoint trimLeft (s : string) : string :=
  match s with
  | String a s' => if Ascii.is_space a then trimLeft s' else s
  | EmptyString => EmptyString
  end.

Definition trimAscii (s : string) : string :=
  String.rev (trimLeft (String.rev (trimLeft s))).

(** A model that calls every text Portuguese and answers a request for a
    translation with the prompt in brackets. *)
Definition exampleModel (n : nat) (prompt : string) : option string :=
  match cut_prefix "What language" prompt with
  | Some _ => Some " pt "
  | None => Some (" <" +:+ prompt +:+ "> ")
  end.

(** A clock that is read seven times within nanoseconds and then jumps by
    a minute. *)
Definition quickClock (n : nat) : Time :=
  if bool_decide (n < 7)%nat then Z.of_nat n else Minute + Z.of_nat n.

(** A clock that is read once at the start and then again and again in
    the nanoseconds around five minutes later. *)
Definition lateClock (n : nat) : Time :=
  match n with
  | O => 0
  | S _ => 5 * Minute - 3 + Z.of_nat n
  end.

Definition exampleOracle : Oracle := mkOracle quickClock exampleModel trimAscii.
Definition lateOracle : Oracle := mkOracle lateClock exampleModel trimAscii.

Definition exampleStart : World :=
  initial (NewTranslator "http://localhost:11434" "llama3.2" (10 * Minute))
          (NewRateLimiter 3 Minute).

Definition post {B} (auth : string) (body : B) : Request B :=
  mkRequest "POST" auth (Some body).

(** An agent registers, a customer starts a chat, the agent joins, and the
    customer opens its connection.  The agent is client 0, the customer
    client 1, the room is room 0. *)
Definition chatEvents : list Event :=
  [ EvSetProfile "a1" (post "" (mkSetProfileRequest "Bob" "en"));
    EvStartChat "c1" "r1" (post "" (mkStartChatRequest "Ana" "Preciso de ajuda"));
    EvJoinRoom (post "Bearer a1" (mkRoomRequest "room_r1"));
    EvConnect "c1" "room_r1" true ].

Definition chatWorld : World := run_events (H := exampleOracle) chatEvents exampleStart.

(** The customer's run of the websocket handler in [chatWorld]. *)
Definition customerSession : Session := mkSession 1 0 0 (Some 0%nat).

(** Then the agent ends the chat: the room is closing, timer 0 is set. *)
Definition closingWorld : World :=
  run_events (H := lateOracle)
    (chatEvents ++ [EvEndChat (post "Bearer a1" (mkRoomRequest "room_r1"))])
    exampleStart.

(** The draws of a run of events are fresh one after the other. *)
Fixpoint freshAlong `{Oracle} (es : list Event) (w : World) : Prop :=
  match es with
  | [] => True
  | e :: es' => freshDraw e w ∧ freshAlong es' (snd (handle e w))
  end.

(** The customer's turn in [closingWorld] up to the reopening block. *)
Definition recordedWorld : World :=
  snd (wsRecord (H := lateOracle) customerSession "Ainda aqui" closingWorld).

(** The reopening block and the close timer side by side: the handler
    tests the status, then the timer expires and its function runs to the
    end, then the handler stops the timer, clears it and sets the status. *)
Definition raceSchedule : list Action :=
  [ActStep 0; ActExpire 0; ActStep 1; ActStep 1; ActStep 1;
   ActStep 0; ActStep 0; ActStep 0; ActStep 0].

Definition raceWorld : World :=
  fst (interleave (H := lateOracle) raceSchedule (recordedWorld, [reopenRoom 0 1])).

(** Without any interleaving: the agent's end-chat request arrives twice,
    the customer reopens the room, and the first timer fires. *)
Definition staleEvents : list Event :=
  chatEvents ++
  [ EvEndChat (post "Bearer a1" (mkRoomRequest "room_r1"));
    EvEndChat (post "Bearer a1" (mkRoomRequest "room_r1"));
    EvTurn customerSession (Payload "Ainda aqui") ].

Definition reopenedWorld : World := run_events (H := lateOracle) staleEvents exampleStart.

Definition staleWorld : World := snd (timerFires (H := lateOracle) 0 reopenedWorld).

(** Two calls of [Translate] whose triples differ and whose keys agree. *)
Definition storedWorld : World :=
  snd (Translate (H := exampleOracle) "fr:hello" "en" "pt" exampleStart).

(** The agent's end-chat request. *)
Definition endChatByAgent : Request RoomRequest :=
  post "Bearer a1" (mkRoomRequest "room_r1").

(** After three admitted messages of the customer in a row. *)
Definition busyWorld : World :=
  run_events (H := exampleOracle)
    (chatEvents ++ [EvTurn customerSession (Payload "um");
                    EvTurn customerSession (Payload "dois");
                    EvTurn customerSession (Payload "tres")])
    exampleStart.

(** Before the agent has joined. *)
Definition waitingWorld : World :=
  run_events (H := exampleOracle) (take 2 chatEvents) exampleStart.

(** ** More concrete worlds, for the further properties *)

(** A fourth message of the customer within the minute: it is rejected. *)
Definition rejectedWorld : World :=
  snd (wsTurn (H := exampleOracle) customerSession (Payload "quatro") busyWorld).

(** A limiter that accepts nothing. *)
Definition mutedStart : World :=
  initial (NewTranslator "http://localhost:11434" "llama3.2" (10 * Minute))
          (NewRateLimiter 0 Minute).

(** A limiter configured with the least window, -2^63 ns, and a limit of
    two, and its state after two messages of one identity. *)
Definition leastWindowStart : World :=
  initial (NewTranslator "http://localhost:11434" "llama3.2" (10 * Minute))
          (NewRateLimiter 2 (- 2 ^ 63)).

Definition leastWindowWorld : World :=
  snd (allowMany (H := exampleOracle) "c1" 2 leastWindowStart).

(** The agent's end-chat request is served twice: two close timers are
    pending, and the room records the second. *)
Definition twiceEndedWorld : World :=
  run_events (H := lateOracle)
    (chatEvents ++ [EvEndChat endChatByAgent; EvEndChat endChatByAgent]) exampleStart.

(** The customer's turn in [chatWorld] up to the reopening block. *)
Definition recordedChat : World :=
  snd (wsRecord (H := exampleOracle) customerSession "Ola" chatWorld).



(** A model endpoint that is down. *)
Definition silentOracle : Oracle := mkOracle quickClock (λ _ _, None) trimAscii.

(** The customer has connected and waits for an agent. *)
Definition lobbyWorld : World :=
  run_events (H := exampleOracle)
    (take 2 chatEvents ++ [EvConnect "c1" "room_r1" true]) exampleStart.

Definition joinByAgent : Request RoomRequest :=
  post "Bearer a1" (mkRoomRequest "room_r1").

Definition endChatByCustomer : Request RoomRequest :=
  post "Bearer c1" (mkRoomRequest "room_r1").

(** The customer has ended the chat. *)
Definition closedWorld : World :=
  run_events (H := exampleOracle) (chatEvents ++ [EvEndChat endChatByCustomer]) exampleStart.

(** The agent's run of the websocket handler. *)
Definition agentSession : Session := mkSession 0 0 1 (Some 1%nat).

(** A second customer's start-chat request. *)
Definition secondChat : Request StartChatRequest :=
  post "" (mkStartChatRequest "Eva" "Hello").

Definition listRooms : Request unit := mkRequest "GET" "" None.

Section Proofs.
Context `{Oracle}.

(** The composite operations are unfolded by name only. *)
Local Arguments Allow : simpl never.
Local Arguments Translator_generate : simpl never.
Local Arguments DetectLanguage : simpl never.
Local Arguments Translate : simpl never.
Local Arguments detectCustomerLanguage : simpl never.
Local Arguments prepareMessage : simpl never.
Local Arguments AddClient : simpl never.
Local Arguments RemoveClient : simpl never.
Local Arguments CreateRoom : simpl never.
Local Arguments JoinRoom : simpl never.
Local Arguments RemoveRoom : simpl never.
Local Arguments IsAgentInRoom : simpl never.
Local Arguments notify : simpl never.
Local Arguments notifyClosed : simpl never.
Local Arguments Timer_Stop : simpl never.
Local Arguments Timer_expire : simpl never.
Local Arguments AfterFunc : simpl never.
Local Arguments timerFires : simpl never.
Local Arguments handleSetProfile : simpl never.
Local Arguments handleStartChat : simpl never.
Local Arguments handleJoinRoom : simpl never.
Local Arguments handleEndChat : simpl never.
Local Arguments wsConnect : simpl never.
Local Arguments wsRecord : simpl never.
Local Arguments wsDeliver : simpl never.
Local Arguments wsIteration : simpl never.
Local Arguments wsTurn : simpl never.
Local Arguments wsDeferred : simpl never.
Local Arguments replay : simpl never.
Local Arguments closeFunc : simpl never.
Local Arguments reopenRoom : simpl never.
Local Arguments reopenCond : simpl never.
Local Arguments languagesDiffer : simpl never.
Local Arguments recentStamps : simpl never.
Local Arguments cacheKey : simpl never.
Local Arguments translatePrompt : simpl never.
Local Arguments TrimPrefix : simpl never.
Local Arguments Time_Add : simpl never.
Local Arguments Duration_neg : simpl never.

Ltac run := unfold bind, ret, get, modify, time_Now; cbn.

Lemma elem_of_recentStamps (cutoff t : Time) (stamps : list Time) :
  t ∈ recentStamps cutoff stamps ↔ t ∈ stamps ∧ cutoff < t.
Proof.
  unfold recentStamps, After. rewrite list_elem_of_filter.
  rewrite bool_decide_eq_true. tauto.
Qed.

(** The negation wraps at the least duration only. *)
Lemma Duration_neg_in_range (d : Duration) :
  - 2 ^ 63 < d < 2 ^ 63 → Duration_neg d = - d.
Proof.
  unfold Duration_neg, wrap64.
  change (2 ^ 63) with 9223372036854775808.
  change (2 ^ 64) with 18446744073709551616.
  intros Hd. rewrite Z.mod_small by lia. lia.
Qed.

Lemma Duration_neg_least : Duration_neg (- 2 ^ 63) = - 2 ^ 63.
Proof. reflexivity. Qed.

(** The cutoff of [Allow]: the clock reading minus the window, but for
    the least window, where it is the reading minus 2^63 ns. *)
Lemma cutoff_in_range (now : Time) (d : Duration) :
  - 2 ^ 63 < d < 2 ^ 63 → Time_Add now (Duration_neg d) = now - d.
Proof. intros Hd. unfold Time_Add. rewrite Duration_neg_in_range by exact Hd. lia. Qed.

Lemma cutoff_least (now : Time) :
  Time_Add now (Duration_neg (- 2 ^ 63)) = now - 2 ^ 63.
Proof. unfold Time_Add. rewrite Duration_neg_least. lia. Qed.

Lemma cutoff_Minute (now : Time) : Time_Add now (Duration_neg Minute) = now - Minute.
Proof. apply cutoff_in_range. unfold Minute, Second. lia. Qed.

Lemma Allow_reject (token : string) (w : World) :
  let r := limiter w in
  let recent := recentStamps (Time_Add (clock (ticks w)) (Duration_neg (window r)))
                  (default [] (limits r !! token)) in
  maxMessages r ≤ Z.of_nat (length recent) →
  Allow token w =
    (false, set_limiter (with_limits <[token := recent]>) (set_ticks S w)).
Proof.
  intros r recent Hfull. unfold Allow. run.
  rewrite bool_decide_true; [reflexivity|].
  exact Hfull.
Qed.

Lemma Allow_accept (token : string) (w : World) :
  let r := limiter w in
  let recent := recentStamps (Time_Add (clock (ticks w)) (Duration_neg (window r)))
                  (default [] (limits r !! token)) in
  Z.of_nat (length recent) < maxMessages r →
  Allow token w =
    (true, set_limiter (with_limits <[token := recent ++ [clock (S (ticks w))]]>)
             (set_ticks S (set_ticks S w))).
Proof.
  intros r recent Hroom. unfold Allow. run.
  rewrite bool_decide_false; [reflexivity|].
  fold r. fold recent. lia.
Qed.

Lemma recentStamps_all (cutoff : Time) (stamps : list Time) :
  (∀ t, t ∈ stamps → cutoff < t) → recentStamps cutoff stamps = stamps.
Proof.
  intros Hall. induction stamps as [|t l IH]; [reflexivity|].
  unfold recentStamps. rewrite filter_cons.
  destruct (decide (After t cutoff = true)) as [|Hn].
  - f_equal. apply IH. intros u Hu. apply Hall. now right.
  - exfalso. apply Hn. unfold After. apply bool_decide_eq_true.
    apply Hall. now left.
Qed.

Lemma recentStamps_length (cutoff : Time) (stamps : list Time) :
  (length (recentStamps cutoff stamps) ≤ length stamps)%nat.
Proof. unfold recentStamps. apply length_filter. Qed.

Lemma recentStamps_head_dropped (cutoff t : Time) (stamps : list Time) :
  t ≤ cutoff → (length (recentStamps cutoff (t :: stamps)) ≤ length stamps)%nat.
Proof.
  intros Hold. unfold recentStamps. rewrite filter_cons.
  destruct (decide (After t cutoff = true)) as [Ha|_].
  - unfold After in Ha. apply bool_decide_eq_true in Ha. lia.
  - apply length_filter.
Qed.

(** A call that finds every recorded stamp inside the window and fewer
    of them than the maximum. *)
Lemma Allow_accept_all (token : string) (w : World) (stamps : list Time) :
  default [] (limits (limiter w) !! token) = stamps →
  (∀ t, t ∈ stamps → Time_Add (clock (ticks w)) (Duration_neg (window (limiter w))) < t) →
  Z.of_nat (length stamps) < maxMessages (limiter w) →
  ∃ w', Allow token w = (true, w')
        ∧ default [] (limits (limiter w') !! token) = stamps ++ [clock (S (ticks w))]
        ∧ maxMessages (limiter w') = maxMessages (limiter w)
        ∧ window (limiter w') = window (limiter w)
        ∧ ticks w' = S (S (ticks w)).
Proof.
  intros Hst Hall Hlt. eexists. split.
  - apply Allow_accept. cbn. rewrite Hst, recentStamps_all by assumption. exact Hlt.
  - cbn. rewrite lookup_insert_eq. cbn. rewrite Hst, recentStamps_all by assumption.
    auto.
Qed.

Lemma allowMany_S (token : string) (n : nat) (w : World) :
  fst (allowMany token (S n) w) =
  fst (Allow token w) :: fst (allowMany token n (snd (Allow token w))).
Proof.
  cbn [allowMany]. unfold bind, ret.
  destruct (Allow token w) as [b w1]. cbn.
  destruct (allowMany token n w1) as [bs w2]. reflexivity.
Qed.

Lemma limiter_scenario (token : string) (w : World) :
  maxMessages (limiter w) = 3 →
  window (limiter w) = Minute →
  default [] (limits (limiter w) !! token) = [] →
  (∀ i j, (i ≤ j)%nat → clock i ≤ clock j) →
  clock (ticks w + 6) < clock (ticks w + 1) + Minute →
  clock (ticks w + 1) + Minute ≤ clock (ticks w + 7) →
  fst (allowMany token 5 w) = [true; true; true; false; true].
Proof.
  intros Hmax Hwin Hnone Hmono Hquick Hlate.
  remember (ticks w) as n eqn:Hn.
  assert (Hle : ∀ i j, (i ≤ j)%nat → clock (n + i) ≤ clock (n + j))
    by (intros; apply Hmono; lia).
  pose proof (Hle 1%nat 3%nat ltac:(lia)) as H13.
  pose proof (Hle 1%nat 5%nat ltac:(lia)) as H15.
  pose proof (Hle 2%nat 6%nat ltac:(lia)) as H26.
  pose proof (Hle 4%nat 6%nat ltac:(lia)) as H46.
  pose proof (Hle 3%nat 5%nat ltac:(lia)) as H35.
  (* first call *)
  destruct (Allow_accept_all token w [] Hnone) as (w1 & E1 & S1 & M1 & W1 & T1).
  { intros t Ht. inversion Ht. }
  { rewrite Hmax. cbn. lia. }
  rewrite <- Hn in S1, T1. cbn [app] in S1.
  replace (S n) with (n + 1)%nat in S1 by lia.
  replace (S (S n)) with (n + 2)%nat in T1 by lia.
  rewrite Hwin in W1. rewrite Hmax in M1.
  (* second call *)
  destruct (Allow_accept_all token w1 _ S1) as (w2 & E2 & S2 & M2 & W2 & T2).
  { intros t Ht. rewrite W1, T1, cutoff_Minute.
    apply list_elem_of_singleton in Ht. subst t. lia. }
  { rewrite M1. cbn. lia. }
  rewrite T1 in S2, T2. cbn [app] in S2.
  replace (S (n + 2)) with (n + 3)%nat in S2 by lia.
  replace (S (S (n + 2))) with (n + 4)%nat in T2 by lia.
  rewrite W1 in W2. rewrite M1 in M2.
  (* third call *)
  destruct (Allow_accept_all token w2 _ S2) as (w3 & E3 & S3 & M3 & W3 & T3).
  { intros t Ht. rewrite W2, T2, cutoff_Minute.
    rewrite !elem_of_cons in Ht.
    destruct Ht as [->|[->|Ht]]; [| |inversion Ht]; lia. }
  { rewrite M2. cbn. lia. }
  rewrite T2 in S3, T3. cbn [app] in S3.
  replace (S (n + 4)) with (n + 5)%nat in S3 by lia.
  replace (S (S (n + 4))) with (n + 6)%nat in T3 by lia.
  rewrite W2 in W3. rewrite M2 in M3.
  assert (Hcut : ∀ t, t ∈ [clock (n + 1); clock (n + 3); clock (n + 5)] →
                      clock (n + 6) - Minute < t).
  { intros t Ht. rewrite !elem_of_cons in Ht.
    destruct Ht as [->|[->|[->|Ht]]]; [| | |inversion Ht]; lia. }
  (* fourth call *)
  pose proof (Allow_reject token w3) as E4. cbn zeta in E4.
  rewrite S3, T3, W3, M3, cutoff_Minute, recentStamps_all in E4 by exact Hcut.
  specialize (E4 ltac:(cbn; lia)).
  (* fifth call *)
  remember (snd (Allow token w3)) as w4 eqn:Hw4.
  assert (S4 : default [] (limits (limiter w4) !! token)
               = [clock (n + 1); clock (n + 3); clock (n + 5)]).
  { rewrite Hw4, E4. cbn. rewrite lookup_insert_eq. reflexivity. }
  assert (T4 : ticks w4 = (n + 7)%nat).
  { rewrite Hw4, E4. cbn. rewrite T3. lia. }
  assert (W4 : window (limiter w4) = Minute).
  { rewrite Hw4, E4. cbn. exact W3. }
  assert (M4 : maxMessages (limiter w4) = 3).
  { rewrite Hw4, E4. cbn. exact M3. }
  pose proof (Allow_accept token w4) as E5. cbn zeta in E5.
  rewrite S4, T4, W4, M4, cutoff_Minute in E5.
  assert (Hdrop : Z.of_nat (length (recentStamps (clock (n + 7) - Minute)
            [clock (n + 1); clock (n + 3); clock (n + 5)])) < 3).
  { pose proof (recentStamps_head_dropped (clock (n + 7) - Minute) (clock (n + 1))
                  [clock (n + 3); clock (n + 5)]) as Hd.
    assert (Hold : clock (n + 1) ≤ clock (n + 7) - Minute) by lia.
    specialize (Hd Hold). cbn [length] in Hd. lia. }
  specialize (E5 Hdrop).
  rewrite !allowMany_S. rewrite E1. cbn [fst snd]. rewrite E2. cbn [fst snd].
  rewrite E3. cbn [fst snd]. rewrite <- Hw4.
  assert (E4' : fst (Allow token w3) = false) by (rewrite E4; reflexivity).
  rewrite E4', E5. reflexivity.
Qed.

(** C3: [Allow] takes the cutoff "now minus the window" in the int64
    arithmetic of [time.Duration]: for every window but the least one the
    cutoff is the clock reading minus the window, and for the least one,
    -2^63 ns, whose opposite overflows, it is the reading minus 2^63 ns.
    It keeps of the identity's stamps exactly those strictly after the
    cutoff (a stamp equal to the cutoff is dropped with the older ones),
    answers false and stores the kept stamps when they are at least
    [maxMessages], and otherwise stores them with a new clock reading
    appended and answers true.  With a maximum of three and a window of one
    minute, on a monotonic clock: three calls and a fourth within a minute
    of the first answer true, true, true, false, and a call at least a
    minute after the first stamp answers true again. *)
Theorem Allow_sliding_window (token : string) (w : World) :
  let r := limiter w in
  let cutoff := Time_Add (clock (ticks w)) (Duration_neg (window r)) in
  let stamps := default [] (limits r !! token) in
  let recent := recentStamps cutoff stamps in
  (- 2 ^ 63 < window r < 2 ^ 63 → cutoff = clock (ticks w) - window r)
  ∧ (window r = - 2 ^ 63 → cutoff = clock (ticks w) - 2 ^ 63)
  ∧ (∀ t, t ∈ recent ↔ t ∈ stamps ∧ cutoff < t)
  ∧ (maxMessages r ≤ Z.of_nat (length recent) →
     Allow token w =
       (false, set_limiter (with_limits <[token := recent]>) (set_ticks S w)))
  ∧ (Z.of_nat (length recent) < maxMessages r →
     Allow token w =
       (true, set_limiter (with_limits <[token := recent ++ [clock (S (ticks w))]]>)
                (set_ticks S (set_ticks S w))))
  ∧ (maxMessages r = 3 → window r = Minute → stamps = [] →
     (∀ i j, (i ≤ j)%nat → clock i ≤ clock j) →
     clock (ticks w + 6) < clock (ticks w + 1) + Minute →
     clock (ticks w + 1) + Minute ≤ clock (ticks w + 7) →
     fst (allowMany token 5 w) = [true; true; true; false; true]).
Proof.
  intros r cutoff stamps recent.
  split; [|split; [|split; [|split; [|split]]]].
  - apply cutoff_in_range.
  - intros Hw. subst cutoff. rewrite Hw. apply cutoff_least.
  - intros t. apply elem_of_recentStamps.
  - apply Allow_reject.
  - apply Allow_accept.
  - apply limiter_scenario.
Qed.

(** ** The translation cache *)

(** What [Translate] does on a miss: one request to the model; an answer is
    stored under the key with the time of storing. *)
Lemma Translate_miss_run (txt from to : string) (w : World) :
  (match cache (translator w) !! cacheKey from to txt with
   | Some e => cacheTTL (translator w) < Since (clock (ticks w)) (createdAt e)
   | None => True
   end) →
  let prompt := translatePrompt txt from to in
  let w1 := set_requests (λ l, l ++ [prompt]) (set_ticks S w) in
  Translate txt from to w =
    match generate (length (requests w)) prompt with
    | None => (None, w1)
    | Some translated =>
      (Some translated,
       set_translator
         (with_cache <[cacheKey from to txt := mkCacheEntry translated (clock (S (ticks w)))]>)
         (set_ticks S w1))
    end.
Proof.
  intros Hmiss prompt w1. unfold Translate, Translator_generate. run.
  destruct (cache (translator w) !! cacheKey from to txt) as [e|] eqn:He; cbn.
  - rewrite bool_decide_true by exact Hmiss. cbn.
    fold prompt. destruct (generate _ prompt); reflexivity.
  - fold prompt. destruct (generate _ prompt); reflexivity.
Qed.

(** An entry that is not older than the TTL answers the call: no request
    is made and nothing but the count of clock readings changes. *)
Lemma Translate_hit (txt from to : string) (w : World) (e : cacheEntry) :
  cache (translator w) !! cacheKey from to txt = Some e →
  Since (clock (ticks w)) (createdAt e) ≤ cacheTTL (translator w) →
  Translate txt from to w = (Some (text e), set_ticks S w).
Proof.
  intros He Hage. unfold Translate. run. rewrite He. cbn.
  rewrite bool_decide_false by lia. reflexivity.
Qed.

(** Storing, then looking the same key up. *)
Lemma Translate_store_lookup (txt from to translated : string) (w w1 w2 : World) :
  Translate txt from to w = (Some translated, w1) →
  cache (translator w) !! cacheKey from to txt = None →
  cache (translator w2) !! cacheKey from to txt
    = cache (translator w1) !! cacheKey from to txt →
  cacheTTL (translator w2) = cacheTTL (translator w) →
  let age := Since (clock (ticks w2)) (clock (S (ticks w))) in
  (age ≤ cacheTTL (translator w) →
     Translate txt from to w2 = (Some translated, set_ticks S w2))
  ∧ (cacheTTL (translator w) < age →
     requests (snd (Translate txt from to w2))
       = requests w2 ++ [translatePrompt txt from to]
     ∧ fst (Translate txt from to w2)
       = generate (length (requests w2)) (translatePrompt txt from to)).
Proof.
  intros Hrun Hnone Hkept Httl age.
  rewrite Translate_miss_run in Hrun by (rewrite Hnone; exact I).
  destruct (generate (length (requests w)) (translatePrompt txt from to))
    as [tr|] eqn:Hg; [|discriminate].
  injection Hrun as -> <-. cbn in Hkept. rewrite lookup_insert_eq in Hkept.
  split.
  - intros Hage. rewrite (Translate_hit _ _ _ _ _ Hkept); [reflexivity|].
    cbn. rewrite Httl. exact Hage.
  - intros Hage. rewrite Translate_miss_run.
    + destruct (generate (length (requests w2)) _); cbn; auto.
    + rewrite Hkept. cbn. rewrite Httl. exact Hage.
Qed.

(** The key is the three strings joined by colons, and two different
    triples can give one key. *)
Lemma cacheKey_not_injective :
  cacheKey "en" "pt" "fr:hello" = cacheKey "en" "pt:fr" "hello"
  ∧ ("en", "pt", "fr:hello") ≠ ("en", "pt:fr", "hello").
Proof. split; [reflexivity | discriminate]. Qed.

(** ** prepareMessage *)

Lemma tokens_alter (f : Client → Client) (p : ptr) (l : list Client) :
  (∀ c, Token (f c) = Token c) → Token <$> alter f p l = Token <$> l.
Proof.
  intros Hf. revert p. induction l as [|c l IH]; intros [|p]; cbn; try reflexivity.
  - now rewrite Hf.
  - now rewrite IH.
Qed.

Lemma client_at_token (p : ptr) (w w' : World) :
  tokens w' = tokens w → Token (client_at p w') = Token (client_at p w).
Proof.
  unfold tokens, client_at. intros Heq.
  rewrite !list_lookup_total_alt.
  assert (Hl : (Token <$> clients w') !! p = (Token <$> clients w) !! p) by now rewrite Heq.
  rewrite !list_lookup_fmap in Hl.
  destruct (clients w' !! p) as [c'|] eqn:E', (clients w !! p) as [c|] eqn:E;
    rewrite ?E, ?E' in Hl |- *; cbn in *; congruence.
Qed.

Lemma Translate_core (txt from to : string) (w : World) :
  core (snd (Translate txt from to w)) = core w
  ∧ clients (snd (Translate txt from to w)) = clients w.
Proof.
  unfold Translate, Translator_generate. run.
  repeat case_match; cbn; auto.
Qed.

Lemma detectCustomerLanguage_core (room sender : ptr) (content : string) (w : World) :
  core (snd (detectCustomerLanguage room sender content w)) = core w.
Proof.
  unfold detectCustomerLanguage, DetectLanguage, Translator_generate, load_room,
    load_client, store_client. run.
  repeat case_match; cbn; auto.
  unfold core, tokens. cbn. f_equal. now apply tokens_alter.
Qed.

Lemma prepareMessage_core (room sender recipient : ptr) (content : string) (w : World) :
  core (snd (prepareMessage room sender recipient content w)) = core w.
Proof.
  unfold prepareMessage, load_room, load_client. run.
  pose proof (detectCustomerLanguage_core room sender content w) as Hd.
  destruct (detectCustomerLanguage room sender content w) as [detected w1]. cbn in *.
  destruct detected; cbn; [|exact Hd].
  destruct (languagesDiffer sender recipient w1); cbn; [|exact Hd].
  pose proof (Translate_core content (Language (client_at sender w1))
                (Language (client_at recipient w1)) w1) as [Ht _].
  destruct (Translate _ _ _ w1) as [[tr|] w2]; cbn in *; [|congruence].
  case_bool_decide; cbn; congruence.
Qed.

Lemma core_rooms (w w' : World) : core w' = core w → rooms w' = rooms w.
Proof. unfold core. congruence. Qed.

Lemma core_room_at (w w' : World) (p : ptr) : core w' = core w → room_at p w' = room_at p w.
Proof. intros Hc. unfold room_at. now rewrite (core_rooms _ _ Hc). Qed.

(** The message [prepareMessage] returns, case by case. *)
Lemma prepareMessage_run (room sender recipient : ptr) (content : string) (w : World) :
  fst (prepareMessage room sender recipient content w) =
    let msg := mkChatMessage "message" (ID (room_at room w)) (Name (client_at sender w))
                             content "" in
    match translationOf room sender recipient content w with
    | Some translated =>
      if bool_decide (Some recipient = Customer (room_at room w))
      then with_Content (TrimSpace translated) msg
      else with_TranslatedContent (TrimSpace translated) msg
    | None => msg
    end.
Proof.
  unfold prepareMessage, translationOf, load_room, load_client. run.
  pose proof (detectCustomerLanguage_core room sender content w) as Hd.
  destruct (detectCustomerLanguage room sender content w) as [detected w1]. cbn in *.
  destruct detected; cbn; [|reflexivity].
  destruct (languagesDiffer sender recipient w1); cbn; [|reflexivity].
  pose proof (Translate_core content (Language (client_at sender w1))
                (Language (client_at recipient w1)) w1) as [Ht _].
  destruct (Translate _ _ _ w1) as [[tr|] w2]; cbn in *; [|reflexivity].
  rewrite (core_room_at w w2 room) by congruence.
  case_bool_decide; reflexivity.
Qed.

(** C1, as the code has it: the translated field of the outbound record is
    filled only when the recipient is not the room's customer and the
    languages of sender and recipient are both known and differ; a
    recipient other than the customer (the agent) always gets the original
    content; the customer gets the trimmed translation as the content when
    a translation was obtained and the original content otherwise, and
    never a translated field. *)
Theorem prepareMessage_translated_field
    (room sender recipient : ptr) (content : string) (w : World) :
  let msg := fst (prepareMessage room sender recipient content w) in
  let w1 := snd (detectCustomerLanguage room sender content w) in
  let toCustomer := Some recipient = Customer (room_at room w) in
  (TranslatedContent msg ≠ "" →
     ¬ toCustomer
     ∧ Language (client_at sender w1) ≠ ""
     ∧ Language (client_at recipient w1) ≠ ""
     ∧ Language (client_at sender w1) ≠ Language (client_at recipient w1))
  ∧ (¬ toCustomer → Content msg = content)
  ∧ (toCustomer →
     TranslatedContent msg = ""
     ∧ Content msg = match translationOf room sender recipient content w with
                     | Some translated => TrimSpace translated
                     | None => content
                     end).
Proof.
  intros msg w1 toCustomer. subst msg. rewrite prepareMessage_run. cbn zeta.
  unfold toCustomer.
  assert (Hlang : ∀ tr, translationOf room sender recipient content w = Some tr →
            Language (client_at sender w1) ≠ ""
            ∧ Language (client_at recipient w1) ≠ ""
            ∧ Language (client_at sender w1) ≠ Language (client_at recipient w1)).
  { intros tr. unfold translationOf. subst w1.
    destruct (detectCustomerLanguage room sender content w) as [d w1]. cbn.
    destruct d; cbn; [|discriminate].
    unfold languagesDiffer.
    repeat case_bool_decide; cbn; try discriminate. auto. }
  destruct (translationOf room sender recipient content w) as [tr|] eqn:Htr.
  - specialize (Hlang tr eq_refl).
    case_bool_decide as Hc; cbn.
    + split; [intros Hne; now contradiction Hne|]. split; [tauto|auto].
    + split; [auto|]. split; [auto|tauto].
  - cbn. split; [intros Hne; now contradiction Hne|]. split; auto.
Qed.

(** ** The hub *)

Lemma room_at_alter (f : Room → Room) (room p : ptr) (w : World) :
  room_at p (set_rooms (alter f room) w) =
  if bool_decide (p = room ∧ is_Some (rooms w !! room)) then f (room_at p w)
  else room_at p w.
Proof.
  unfold room_at. cbn. rewrite !list_lookup_total_alt.
  case_bool_decide as Hc.
  - destruct Hc as [-> [rm Hrm]].
    rewrite list_lookup_alter_eq, Hrm. reflexivity.
  - destruct (decide (p = room)) as [->|Hne].
    + rewrite list_lookup_alter_eq.
      destruct (rooms w !! room) eqn:Hrm; [|reflexivity].
      exfalso. apply Hc. split; [reflexivity|eauto].
    + rewrite list_lookup_alter_ne by congruence. reflexivity.
Qed.

(** A room with a customer is a room of the heap (the zero [Room] has
    none). *)
Lemma customer_is_Some (room : ptr) (w : World) :
  Customer (room_at room w) ≠ None → is_Some (rooms w !! room).
Proof.
  unfold room_at. rewrite list_lookup_total_alt.
  destruct (rooms w !! room); [eauto|]. cbn. congruence.
Qed.

Lemma JoinRoom_run (roomID : string) (agent : option ptr) (w : World) :
  JoinRoom roomID agent w =
    match Rooms (hub w) !! roomID with
    | None => (Err ("room not found: " +:+ roomID), w)
    | Some room =>
      let r := room_at room w in
      if bool_decide (Status r ≠ RoomWaiting) then
        (Err ("room is not available: " +:+ roomID), w)
      else if bool_decide (Agent r ≠ None) then
        (Err ("agent is already in room: " +:+ roomID), w)
      else if bool_decide (Customer r = None) then
        (Err ("customer is required: " +:+ roomID), w)
      else
        (Ok room,
         set_rooms (alter (with_Status RoomActive) room)
           (set_rooms (alter (with_Agent agent) room) w))
    end.
Proof.
  unfold JoinRoom, load_room, store_room. run.
  destruct (Rooms (hub w) !! roomID) as [room|]; [|reflexivity]. cbn.
  repeat case_bool_decide; reflexivity.
Qed.

(** The call that passes the four checks. *)
Lemma JoinRoom_success (roomID : string) (agent : option ptr) (room : ptr) (w : World) :
  Rooms (hub w) !! roomID = Some room →
  Status (room_at room w) = RoomWaiting →
  Agent (room_at room w) = None →
  Customer (room_at room w) ≠ None →
  let out := JoinRoom roomID agent w in
  fst out = Ok room
  ∧ room_at room (snd out) = with_Status RoomActive (with_Agent agent (room_at room w))
  ∧ (∀ p, p ≠ room → room_at p (snd out) = room_at p w)
  ∧ hub (snd out) = hub w.
Proof.
  intros Hroom Hs Ha Hc out. subst out. rewrite JoinRoom_run, Hroom. cbn zeta.
  rewrite bool_decide_false by (intros Hn; now apply Hn).
  rewrite bool_decide_false by (intros Hn; now apply Hn).
  rewrite bool_decide_false by exact Hc. cbn [fst snd].
  pose proof (customer_is_Some room w Hc) as Hin.
  split; [reflexivity|]. split; [|split].
  - rewrite room_at_alter, bool_decide_true.
    + rewrite room_at_alter, bool_decide_true by auto. reflexivity.
    + split; [reflexivity|]. cbn. destruct Hin as [rm Hrm].
      rewrite list_lookup_alter_eq, Hrm. cbn. eauto.
  - intros p Hp. rewrite !room_at_alter.
    rewrite !bool_decide_false by (intros [? _]; contradiction). reflexivity.
  - reflexivity.
Qed.

(** C2: [JoinRoom] fails with "room not found" for an unknown id, with
    "room is not available" for a room that is not waiting, with "agent is
    already in room" for a waiting room that has an agent, and with
    "customer is required" for a waiting room without agent and without
    customer, each time leaving the state as it was; otherwise it succeeds,
    and then the room has the agent assigned and the status active, every
    other room and the hub's maps being unchanged.  It succeeds exactly
    when none of the four conditions holds. *)
Theorem JoinRoom_outcomes (roomID : string) (agent : option ptr) (w : World) :
  let found := Rooms (hub w) !! roomID in
  let out := JoinRoom roomID agent w in
  (found = None → out = (Err ("room not found: " +:+ roomID), w))
  ∧ (∀ room, found = Some room →
       let r := room_at room w in
       (Status r ≠ RoomWaiting →
          out = (Err ("room is not available: " +:+ roomID), w))
       ∧ (Status r = RoomWaiting → Agent r ≠ None →
          out = (Err ("agent is already in room: " +:+ roomID), w))
       ∧ (Status r = RoomWaiting → Agent r = None → Customer r = None →
          out = (Err ("customer is required: " +:+ roomID), w))
       ∧ (Status r = RoomWaiting → Agent r = None → Customer r ≠ None →
          fst out = Ok room
          ∧ room_at room (snd out) = with_Status RoomActive (with_Agent agent r)
          ∧ (∀ p, p ≠ room → room_at p (snd out) = room_at p w)
          ∧ hub (snd out) = hub w))
  ∧ ((∃ room, fst out = Ok room) ↔
     ¬ (found = None
        ∨ (∃ room, found = Some room ∧
             (Status (room_at room w) ≠ RoomWaiting
              ∨ Agent (room_at room w) ≠ None
              ∨ Customer (room_at room w) = None)))).
Proof.
  intros found out. subst out found.
  split; [|split].
  - intros Hnone. rewrite JoinRoom_run, Hnone. reflexivity.
  - intros room Hroom. cbn zeta. split; [|split; [|split]].
    + intros Hs. rewrite JoinRoom_run, Hroom. cbn zeta.
      rewrite bool_decide_true by exact Hs. reflexivity.
    + intros Hs Ha. rewrite JoinRoom_run, Hroom. cbn zeta.
      rewrite bool_decide_false by (intros Hn; now apply Hn).
      rewrite bool_decide_true by exact Ha. reflexivity.
    + intros Hs Ha Hc. rewrite JoinRoom_run, Hroom. cbn zeta.
      rewrite bool_decide_false by (intros Hn; now apply Hn).
      rewrite bool_decide_false by (intros Hn; now apply Hn).
      rewrite bool_decide_true by exact Hc. reflexivity.
    + intros Hs Ha Hc. now apply JoinRoom_success.
  - rewrite JoinRoom_run.
    destruct (Rooms (hub w) !! roomID) as [room|]; cbn.
    + repeat case_bool_decide; cbn; split;
        try (intros [? ?]; discriminate);
        try (intros Hn; exfalso; apply Hn; right; exists room; tauto).
      * intros _ [?|(room' & Heq & Hbad)]; [discriminate|].
        injection Heq as <-. destruct Hbad as [?|[?|?]]; tauto.
      * eauto.
    + split; [intros [? ?]; discriminate|]. intros Hn. exfalso. apply Hn. now left.
Qed.

(** ** The read loop: a message the limiter rejects *)

Lemma Allow_frame (token : string) (w : World) :
  let w' := snd (Allow token w) in
  hub w' = hub w ∧ translator w' = translator w ∧ clients w' = clients w
  ∧ rooms w' = rooms w ∧ timers w' = timers w ∧ wire w' = wire w
  ∧ accepted w' = accepted w ∧ requests w' = requests w.
Proof.
  unfold Allow. run. case_bool_decide; cbn; repeat split; reflexivity.
Qed.

(** C6: when the limiter rejects the sender, the turn writes the error
    notice to the sender's connection and nothing else: the history and
    every other field of every room, the clients, the hub and the timers
    are as before, no frame goes to the counterpart, no request goes to the
    translator, and the loop goes on to the next message. *)
Theorem wsTurn_rate_limited (s : Session) (content : string) (w : World) :
  fst (Allow (Token (client_at (ses_client s) w)) w) = false →
  let out := wsTurn s (Payload content) w in
  fst out = Continue
  ∧ wire (snd out) = wire w ++ [(ses_conn s, FError "error" "rate limit exceeded")]
  ∧ rooms (snd out) = rooms w
  ∧ hub (snd out) = hub w
  ∧ clients (snd out) = clients w
  ∧ timers (snd out) = timers w
  ∧ translator (snd out) = translator w
  ∧ requests (snd out) = requests w
  ∧ limiter (snd out) = limiter (snd (Allow (Token (client_at (ses_client s) w)) w)).
Proof.
  intros Hrej out. subst out.
  unfold wsTurn, wsIteration, wsRecord, load_client, conn_Write. run.
  pose proof (Allow_frame (Token (client_at (ses_client s) w)) w) as Hf.
  cbn zeta in Hf.
  destruct (Allow (Token (client_at (ses_client s) w)) w) as [b w1].
  cbn in Hrej, Hf. subst b. cbn.
  destruct Hf as (Hh & Ht & Hc & Hr & Htm & Hw & _ & Hq).
  rewrite Hw. repeat split; assumption.
Qed.

(** ** Ending a chat *)

Lemma room_at_alter_eq (f : Room → Room) (room : ptr) (w : World) :
  is_Some (rooms w !! room) →
  room_at room (set_rooms (alter f room) w) = f (room_at room w).
Proof.
  intros Hin. rewrite room_at_alter, bool_decide_true by auto. reflexivity.
Qed.

Lemma notify_frame (other : option ptr) (f : Frame) (w : World) :
  let w' := snd (notify other f w) in
  hub w' = hub w ∧ rooms w' = rooms w ∧ timers w' = timers w
  ∧ clients w' = clients w ∧ ticks w' = ticks w.
Proof.
  unfold notify, load_client, conn_Write. run.
  repeat case_match; cbn; repeat split; reflexivity.
Qed.

(** C9: an end-chat request with a valid token, for a room the hub knows,
    from a participant whose token is not that of the room's customer sets
    the room's status to closing, clears the agent and schedules a close
    timer five minutes out, whatever the caller's relation to the room and
    whatever the room's status and agent were. *)
Theorem handleEndChat_agent_left
    (r : Request RoomRequest) (roomID : string) (client room : ptr) (w : World) :
  Method r = "POST" →
  TrimPrefix (Authorization r) "Bearer " ≠ "" →
  Clients (hub w) !! TrimPrefix (Authorization r) "Bearer " = Some client →
  Body r = Some (mkRoomRequest roomID) →
  Rooms (hub w) !! roomID = Some room →
  is_Some (rooms w !! room) →
  (∀ cu, Customer (room_at room w) = Some cu →
         Token (client_at cu w) ≠ Token (client_at client w)) →
  let out := handleEndChat r w in
  let rm := room_at room w in
  fst out = ChatEndedResponse "chat_ended" (ID rm) "agent_left"
  ∧ room_at room (snd out)
    = mkRoom (ID rm) (Customer rm) None RoomClosing (Messages rm)
             (Some (length (timers w)))
  ∧ timers (snd out)
    = timers w ++ [mkTimer (clock (ticks w) + 5 * Minute) room Scheduled]
  ∧ hub (snd out) = hub w.
Proof.
  intros Hm Htok Hcl Hbody Hroom Hin Hother out rm. subst out.
  unfold handleEndChat, GetClient, GetRoom, load_room, load_client. run.
  rewrite Hm, Hbody. cbn.
  rewrite bool_decide_true by reflexivity. cbn.
  rewrite bool_decide_false by exact Htok.
  rewrite Hcl. cbn. rewrite Hroom. cbn.
  fold rm.
  remember (mkRoom (ID rm) (Customer rm) None RoomClosing (Messages rm)
                   (Some (length (timers w)))) as closing eqn:Hclosing.
  destruct (Customer rm) as [cu|] eqn:Hcu; cbn;
    [rewrite bool_decide_false by (now apply Hother); cbn|].
  all: unfold store_room, AfterFunc; run.
  all: match goal with
  | |- context [notify ?o ?f ?w0] =>
    pose proof (notify_frame o f w0) as Hn; cbn zeta in Hn;
    destruct (notify o f w0) as [[] w2]
  end.
  all: cbn in Hn |- *; destruct Hn as (Hh & Hr & Ht & _ & _).
  all: split; [reflexivity|]; split; [|split];
    [ unfold room_at in *; rewrite Hr, !list_lookup_total_alt;
      destruct Hin as [rm0 Hrm0];
      rewrite !list_lookup_alter_eq, Hrm0; cbn;
      rewrite Hclosing; unfold rm in Hcu |- *;
      rewrite list_lookup_total_alt, Hrm0 in Hcu |- *; cbn in Hcu |- *;
      unfold with_CloseTimer, with_Agent, with_Status; cbn;
      rewrite Hcu; reflexivity
    | rewrite Ht; reflexivity
    | rewrite Hh; reflexivity ].
Qed.


(** ** The invariant and the changes that keep it *)

Lemma wf_core (w w' : World) : core w' = core w → wf w → wf w'.
Proof.
  unfold core, wf. intros Hc. injection Hc as -> -> -> ->. auto.
Qed.

Lemma alter_lookup_inv {A} (f : A → A) (i j : nat) (l : list A) (y : A) :
  alter f i l !! j = Some y →
  ∃ x, l !! j = Some x ∧ ((j = i ∧ y = f x) ∨ (j ≠ i ∧ y = x)).
Proof.
  destruct (decide (i = j)) as [->|Hne].
  - rewrite list_lookup_alter_eq. destruct (l !! j) as [x|]; [|discriminate].
    cbn. intros [= <-]. eauto.
  - rewrite list_lookup_alter_ne by exact Hne. intros Hy. exists y. split; [exact Hy|].
    right. split; congruence.
Qed.

Lemma alter_oob {A} (f : A → A) (i : nat) (l : list A) :
  l !! i = None → alter f i l = l.
Proof.
  revert i. induction l as [|x l IH]; intros [|i]; cbn; try reflexivity.
  - discriminate.
  - intros Hi. f_equal. now apply IH.
Qed.

Lemma alter_is_Some {A} (f : A → A) (i j : nat) (l : list A) :
  is_Some (alter f i l !! j) ↔ is_Some (l !! j).
Proof. rewrite !lookup_lt_is_Some, length_alter. reflexivity. Qed.

(** A new client, added to the hub under its token. *)
Lemma wfc_add_client (h : Hub) rs ts tk (t : string) :
  wfc h rs ts tk →
  wfc (with_Clients <[t := length tk]> h) rs ts (tk ++ [t]).
Proof.
  intros [Hu Hr Hh Hi Ht Htr Hc Hm]. split; cbn; auto.
  - intros t' p. rewrite lookup_insert_Some. intros [[<- <-]|[Hne Hp]].
    + rewrite lookup_app_r by lia. now rewrite Nat.sub_diag.
    + apply lookup_app_l_Some. now apply Hc.
  - intros room rm p Hrm Hp. destruct (Hm room rm p Hrm Hp) as (t' & Ht' & Hs).
    exists t'. split; [now apply lookup_app_l_Some|].
    rewrite lookup_insert_is_Some. destruct (decide (t = t')); auto.
Qed.

(** A new waiting room for a registered customer, under a new id. *)
Lemma wfc_add_room (h : Hub) rs ts tk (id t : string) (customer : nat)
    (msgs : list ChatMessage) :
  wfc h rs ts tk →
  (∀ rm, rm ∈ rs → ID rm ≠ id) →
  tk !! customer = Some t → is_Some (Clients h !! t) →
  wfc (with_Rooms <[id := length rs]> h)
      (rs ++ [mkRoom id (Some customer) None RoomWaiting msgs None]) ts tk.
Proof.
  intros [Hu Hr Hh Hi Ht Htr Hc Hm] Hfresh Hcust Hreg.
  assert (Hold : ∀ p rm, rs !! p = Some rm → ID rm ≠ id).
  { intros p rm Hp. apply Hfresh. eapply list_elem_of_lookup_2; eauto. }
  split; cbn.
  - intros room rm. rewrite lookup_snoc_Some. intros [[_ Hp]|[_ <-]]; eauto.
  - intros room rm. rewrite lookup_snoc_Some. intros [[_ Hp]|[-> <-]] Hs; cbn.
    + rewrite lookup_insert_ne by (intros Heq; apply (Hold _ _ Hp); congruence). eauto.
    + now rewrite lookup_insert_eq.
  - intros id' room. rewrite lookup_insert_Some. intros [[<- <-]|[Hne Hp]].
    + eexists. split.
      * rewrite lookup_app_r by lia. now rewrite Nat.sub_diag.
      * reflexivity.
    + destruct (Hh _ _ Hp) as (rm & Hrm & Hid). exists rm. split; [|exact Hid].
      now apply lookup_app_l_Some.
  - intros p q a b. rewrite !lookup_snoc_Some.
    intros [[_ Hp]|[-> <-]] [[_ Hq]|[-> <-]] Hid; cbn in *; eauto.
    + exfalso. eapply Hold; eauto.
    + exfalso. eapply Hold; eauto.
  - intros room rm. rewrite lookup_snoc_Some. intros [[_ Hp]|[_ <-]] Hs; [eauto|].
    discriminate.
  - intros t' tm Htm. destruct (Htr _ _ Htm) as [rm Hrm].
    exists rm. now apply lookup_app_l_Some.
  - exact Hc.
  - intros room rm p. rewrite lookup_snoc_Some. intros [[_ Hp]|[_ <-]] Hslot; [eauto|].
    cbn in Hslot. destruct Hslot as [[= <-]|Hn]; [|discriminate]. eauto.
Qed.

(** One room changes (its id and customer do not), the hub keeps its
    clients and at most loses the room's id, and the timers of the other
    rooms stay as they are. *)
Lemma wfc_update_room (h h' : Hub) rs ts ts' tk (room : nat) (rm : Room)
    (f : Room → Room) :
  wfc h rs ts tk →
  rs !! room = Some rm →
  (∀ x, ID (f x) = ID x) →
  (∀ x, Customer (f x) = Customer x) →
  (Status (f rm) = RoomWaiting ∨ Status (f rm) = RoomClosing → Agent (f rm) = None) →
  (Status (f rm) ≠ RoomClosed → Rooms h' !! ID rm = Some room) →
  (Status (f rm) = RoomClosing →
     ∃ t tm, CloseTimer (f rm) = Some t ∧ ts' !! t = Some tm
             ∧ tm_state tm = Scheduled ∧ tm_room tm = room) →
  (∀ p, Agent (f rm) = Some p → ∃ t, tk !! p = Some t ∧ is_Some (Clients h !! t)) →
  Clients h' = Clients h →
  (∀ id, id ≠ ID rm → Rooms h' !! id = Rooms h !! id) →
  (Rooms h' !! ID rm = Rooms h !! ID rm ∨ Rooms h' !! ID rm = None) →
  (∀ t tm, ts !! t = Some tm → tm_room tm ≠ room → ts' !! t = Some tm) →
  (∀ t tm, ts' !! t = Some tm → is_Some (rs !! tm_room tm)) →
  wfc h' (alter f room rs) ts' tk.
Proof.
  intros [Hu Hr Hh Hi Ht Htr Hc Hm] Hrm Hfid Hfcu Hnu Hnr Hnt Hna Hcl Hrother Hrself
    Htother Htvalid.
  split.
  - intros p rm' Hp Hs. apply alter_lookup_inv in Hp as (x & Hx & [[-> ->]|[Hne ->]]).
    + rewrite Hrm in Hx. injection Hx as <-. auto.
    + eauto.
  - intros p rm' Hp Hs. apply alter_lookup_inv in Hp as (x & Hx & [[-> ->]|[Hne ->]]).
    + rewrite Hrm in Hx. injection Hx as <-. rewrite Hfid. auto.
    + rewrite Hrother; [eauto|]. intros Heq. apply Hne. eapply Hi; eauto.
  - intros id p Hp.
    assert (Hold : Rooms h !! id = Some p).
    { destruct (decide (id = ID rm)) as [->|Hne].
      - destruct Hrself as [Heq|Heq]; congruence.
      - now rewrite <- Hrother. }
    destruct (Hh _ _ Hold) as (x & Hx & Hid).
    destruct (decide (p = room)) as [->|Hne].
    + exists (f x). rewrite list_lookup_alter_eq, Hx. rewrite Hfid. auto.
    + exists x. rewrite list_lookup_alter_ne by congruence. auto.
  - intros p q a b Hp Hq.
    apply alter_lookup_inv in Hp as (x & Hx & Hxa).
    apply alter_lookup_inv in Hq as (y & Hy & Hyb).
    assert (ID a = ID x) as -> by (destruct Hxa as [[_ ->]|[_ ->]]; auto).
    assert (ID b = ID y) as -> by (destruct Hyb as [[_ ->]|[_ ->]]; auto).
    eauto.
  - intros p rm' Hp Hs. apply alter_lookup_inv in Hp as (x & Hx & [[-> ->]|[Hne ->]]).
    + rewrite Hrm in Hx. injection Hx as <-. auto.
    + destruct (Ht _ _ Hx Hs) as (t & tm & Hct & Htm & Hst & Htr').
      exists t, tm. repeat split; auto. apply Htother; congruence.
  - intros t tm Htm. apply alter_is_Some. eauto.
  - intros t p. rewrite Hcl. auto.
  - intros p rm' q Hp Hslot. rewrite Hcl.
    apply alter_lookup_inv in Hp as (x & Hx & [[-> ->]|[Hne ->]]).
    + rewrite Hrm in Hx. injection Hx as <-.
      destruct Hslot as [Hcu|Hag]; [|eauto].
      rewrite Hfcu in Hcu. eauto.
    + eauto.
Qed.

(** A change that leaves the id, the customer, the agent, the status and
    the timer of the room alone (its history). *)
Lemma wfc_history (h : Hub) rs ts tk (room : nat) (f : Room → Room) :
  (∀ x, ID (f x) = ID x ∧ Customer (f x) = Customer x ∧ Agent (f x) = Agent x
        ∧ Status (f x) = Status x ∧ CloseTimer (f x) = CloseTimer x) →
  wfc h rs ts tk → wfc h (alter f room rs) ts tk.
Proof.
  intros Hf Hwf. destruct (rs !! room) as [rm|] eqn:Hrm.
  - destruct (Hf rm) as (Hid & Hcu & Hag & Hst & Hct).
    apply (wfc_update_room h h rs ts ts tk room rm f Hwf Hrm); auto.
    + intros x. apply Hf.
    + intros x. apply Hf.
    + rewrite Hst, Hag. apply (wf_unoccupied _ _ _ _ Hwf _ _ Hrm).
    + rewrite Hst. apply (wf_registered _ _ _ _ Hwf _ _ Hrm).
    + rewrite Hst, Hct. apply (wf_timer _ _ _ _ Hwf _ _ Hrm).
    + rewrite Hag. intros p Hp. apply (wf_members _ _ _ _ Hwf _ _ _ Hrm). auto.
    + apply (wf_timer_room _ _ _ _ Hwf).
  - rewrite alter_oob by exact Hrm. exact Hwf.
Qed.

(** An agent joins a waiting room. *)
Lemma wfc_join (h : Hub) rs ts tk (room agent : nat) (rm : Room) (t : string) :
  wfc h rs ts tk →
  rs !! room = Some rm → Status rm = RoomWaiting →
  tk !! agent = Some t → is_Some (Clients h !! t) →
  wfc h (alter (with_Status RoomActive) room (alter (with_Agent (Some agent)) room rs))
      ts tk.
Proof.
  intros Hwf Hrm Hst Hag Hreg. rewrite list_alter_alter_eq.
  apply (wfc_update_room h h rs ts ts tk room rm _ Hwf Hrm); cbn; auto.
  - intros [?|?]; discriminate.
  - intros _. apply (wf_registered _ _ _ _ Hwf _ _ Hrm). rewrite Hst. discriminate.
  - discriminate.
  - intros p [= <-]. eauto.
  - apply (wf_timer_room _ _ _ _ Hwf).
Qed.

(** A room is closed and taken out of the hub, by its customer or by a
    timer of its own that expires. *)
Lemma wfc_close (h : Hub) rs ts ts' tk (room : nat) (rm : Room) :
  wfc h rs ts tk →
  rs !! room = Some rm →
  (ts' = ts ∨ ∃ t tm, ts !! t = Some tm ∧ tm_room tm = room
                      ∧ ts' = alter (with_tm_state Started) t ts) →
  wfc (with_Rooms (delete (ID rm)) h) (alter (with_Status RoomClosed) room rs) ts' tk.
Proof.
  intros Hwf Hrm Hts.
  apply (wfc_update_room h _ rs ts ts' tk room rm _ Hwf Hrm); cbn; auto.
  - intros [?|?]; discriminate.
  - intros Hn. now contradiction Hn.
  - discriminate.
  - intros p Hp. apply (wf_members _ _ _ _ Hwf _ _ _ Hrm). auto.
  - intros id Hne. now rewrite lookup_delete_ne.
  - right. apply lookup_delete_eq.
  - intros t tm Htm Hne. destruct Hts as [->|(t' & tm' & Htm' & Hroom & ->)]; [exact Htm|].
    rewrite list_lookup_alter_ne; [exact Htm|]. congruence.
  - intros t tm Htm. destruct Hts as [->|(t' & tm' & Htm' & Hroom & ->)].
    + apply (wf_timer_room _ _ _ _ Hwf _ _ Htm).
    + apply alter_lookup_inv in Htm as (x & Hx & [[-> ->]|[_ ->]]).
      * cbn. apply (wf_timer_room _ _ _ _ Hwf _ _ Hx).
      * apply (wf_timer_room _ _ _ _ Hwf _ _ Hx).
Qed.

(** A caller other than the customer ends the chat of a room of the hub. *)
Lemma wfc_agent_left (h : Hub) rs ts tk (room : nat) (rm : Room) (d : Z) :
  wfc h rs ts tk →
  rs !! room = Some rm → Rooms h !! ID rm = Some room →
  wfc h (alter (with_CloseTimer (Some (length ts))) room
           (alter (with_Agent None) room
              (alter (with_Status RoomClosing) room rs)))
      (ts ++ [mkTimer d room Scheduled]) tk.
Proof.
  intros Hwf Hrm Hreg. rewrite !list_alter_alter_eq.
  apply (wfc_update_room h h rs ts _ tk room rm _ Hwf Hrm); cbn; auto.
  - intros _. exists (length ts), (mkTimer d room Scheduled).
    repeat split; auto. rewrite lookup_app_r by lia. now rewrite Nat.sub_diag.
  - discriminate.
  - intros t tm Htm _. now apply lookup_app_l_Some.
  - intros t tm. rewrite lookup_snoc_Some. intros [[_ Htm]|[_ <-]].
    + apply (wf_timer_room _ _ _ _ Hwf _ _ Htm).
    + cbn. eauto.
Qed.

(** The customer's message reopens a closing room and stops its timer. *)
Lemma wfc_reopen (h : Hub) rs ts tk (room t : nat) (rm : Room) :
  wfc h rs ts tk →
  rs !! room = Some rm → Status rm = RoomClosing → CloseTimer rm = Some t →
  wfc h (alter (with_Status RoomWaiting) room (alter (with_CloseTimer None) room rs))
      (alter (with_tm_state Stopped) t ts) tk.
Proof.
  intros Hwf Hrm Hst Hct. rewrite list_alter_alter_eq.
  destruct (wf_timer _ _ _ _ Hwf _ _ Hrm Hst) as (t' & tm & Hct' & Htm & _ & Hroom).
  assert (t' = t) as -> by congruence.
  apply (wfc_update_room h h rs ts _ tk room rm _ Hwf Hrm); cbn; auto.
  - intros _. apply (wf_unoccupied _ _ _ _ Hwf _ _ Hrm). auto.
  - intros _. apply (wf_registered _ _ _ _ Hwf _ _ Hrm). rewrite Hst. discriminate.
  - discriminate.
  - intros p Hp. apply (wf_members _ _ _ _ Hwf _ _ _ Hrm). auto.
  - intros t2 tm2 Htm2 Hne. rewrite list_lookup_alter_ne; [exact Htm2|]. congruence.
  - intros t2 tm2 Htm2. apply alter_lookup_inv in Htm2 as (x & Hx & [[-> ->]|[_ ->]]).
    + cbn. apply (wf_timer_room _ _ _ _ Hwf _ _ Hx).
    + apply (wf_timer_room _ _ _ _ Hwf _ _ Hx).
Qed.


(** ** The handlers keep the invariant *)

Lemma tokens_length (w : World) : length (tokens w) = length (clients w).
Proof. unfold tokens. apply length_fmap. Qed.

Lemma snoc_lookup_total `{!Inhabited A} (l : list A) (x : A) :
  (l ++ [x]) !!! length l = x.
Proof. rewrite list_lookup_total_alt, lookup_app_r, Nat.sub_diag by lia. reflexivity. Qed.

Lemma handleSetProfile_wf (token : string) (r : Request SetProfileRequest) (w : World) :
  wf w → wf (snd (handleSetProfile token r w)).
Proof.
  intros Hwf. unfold handleSetProfile.
  case_bool_decide; cbn; [|exact Hwf].
  destruct (Body r) as [[name language]|]; cbn; [|exact Hwf].
  destruct (bool_decide (name = "") || bool_decide (language = "")); cbn; [exact Hwf|].
  unfold NewClient, AddClient, load_client, client_at. run.
  rewrite snoc_lookup_total. cbn.
  unfold wf, tokens. cbn. rewrite fmap_app. cbn.
  rewrite <- (length_fmap Token (clients w)).
  now apply wfc_add_client.
Qed.

Lemma handleStartChat_wf (token roomToken : string) (r : Request StartChatRequest)
    (w : World) :
  wf w → (∀ rm, rm ∈ rooms w → ID rm ≠ "room_" +:+ roomToken) →
  wf (snd (handleStartChat token roomToken r w)).
Proof.
  intros Hwf Hfresh. unfold handleStartChat.
  case_bool_decide; cbn; [|exact Hwf].
  destruct (Body r) as [[name content]|]; cbn; [|exact Hwf].
  destruct (bool_decide (name = "") || bool_decide (content = "")); cbn; [exact Hwf|].
  unfold NewClient, AddClient, CreateRoom, NewRoom, load_client, load_room, store_room,
    client_at, room_at. run.
  rewrite !snoc_lookup_total. cbn.
  unfold wf, tokens. cbn. rewrite fmap_app. cbn.
  apply wfc_history; [intros x; cbn; auto|].
  rewrite <- (length_fmap Token (clients w)).
  apply (wfc_add_room _ _ _ _ _ token).
  - now apply wfc_add_client.
  - exact Hfresh.
  - rewrite lookup_app_r by lia. now rewrite Nat.sub_diag.
  - cbn. rewrite lookup_insert_eq. eauto.
Qed.

Lemma notify_core (other : option ptr) (f : Frame) (w : World) :
  core (snd (notify other f w)) = core w.
Proof.
  pose proof (notify_frame other f w) as (Hh & Hr & Ht & Hc & _).
  unfold core, tokens. cbn zeta in *. congruence.
Qed.

Ltac after_notify :=
  match goal with
  | |- context [notify ?o ?f ?w0] =>
    let Hn := fresh "Hn" in
    pose proof (notify_core o f w0) as Hn;
    destruct (notify o f w0) as [[] ?w]; cbn in Hn |- *;
    apply (wf_core _ _ Hn)
  end.

Lemma wf_room_at (w : World) (id : string) (room : nat) :
  wf w → Rooms (hub w) !! id = Some room →
  rooms w !! room = Some (room_at room w) ∧ ID (room_at room w) = id.
Proof.
  intros Hwf Hid. destruct (wf_hub_rooms _ _ _ _ Hwf _ _ Hid) as (rm & Hrm & Hrid).
  unfold room_at. rewrite list_lookup_total_alt, Hrm. auto.
Qed.

Lemma handleJoinRoom_wf (r : Request RoomRequest) (w : World) :
  wf w → wf (snd (handleJoinRoom r w)).
Proof.
  intros Hwf. unfold handleJoinRoom.
  case_bool_decide; cbn; [|exact Hwf].
  case_bool_decide; cbn; [exact Hwf|].
  unfold GetClient, load_client. run.
  destruct (Clients (hub w) !! TrimPrefix (Authorization r) "Bearer ") as [agent|] eqn:Hag;
    cbn; [|exact Hwf].
  unfold IsAgentInRoom. cbn.
  match goal with |- context [existsb ?f ?l] => destruct (existsb f l) end;
    cbn; [exact Hwf|].
  destruct (Body r) as [[roomID]|]; cbn; [|exact Hwf].
  rewrite JoinRoom_run.
  destruct (Rooms (hub w) !! roomID) as [room|] eqn:Hroom; cbn; [|exact Hwf].
  destruct (wf_room_at w roomID room Hwf Hroom) as [Hrm Hid].
  case_bool_decide as Hst; cbn; [exact Hwf|].
  case_bool_decide; cbn; [exact Hwf|].
  case_bool_decide; cbn; [exact Hwf|].
  unfold load_room. run.
  after_notify.
  unfold wf. cbn.
  apply (wfc_join _ _ _ _ room agent (room_at room w)
           (TrimPrefix (Authorization r) "Bearer ")).
  - exact Hwf.
  - exact Hrm.
  - destruct (decide (Status (room_at room w) = RoomWaiting)) as [Hw|Hw];
      [exact Hw | contradiction].
  - apply (wf_hub_clients _ _ _ _ Hwf _ _ Hag).
  - rewrite Hag. eauto.
Qed.

Lemma handleEndChat_wf (r : Request RoomRequest) (w : World) :
  wf w → wf (snd (handleEndChat r w)).
Proof.
  intros Hwf. unfold handleEndChat.
  case_bool_decide; cbn; [|exact Hwf].
  case_bool_decide; cbn; [exact Hwf|].
  unfold GetClient, GetRoom, load_client, load_room. run.
  destruct (Clients (hub w) !! TrimPrefix (Authorization r) "Bearer ") as [client|];
    cbn; [|exact Hwf].
  destruct (Body r) as [[roomID]|]; cbn; [|exact Hwf].
  destruct (Rooms (hub w) !! roomID) as [room|] eqn:Hroom; cbn; [|exact Hwf].
  destruct (wf_room_at w roomID room Hwf Hroom) as [Hrm Hid].
  assert (Hcases : ∀ (b : bool) (w0 : World), w0 = w →
    wf (snd (let '(a0, w'0) :=
               (if b
                then λ w1 : World,
                  let '(_, w'0) := RemoveRoom (ID (room_at room w))
                     (snd (store_room room (with_Status RoomClosed) w1)) in
                  ("customer_left", Agent (room_at room w), w'0)
                else λ w1 : World,
                  let '(_, w'0) := store_room room (with_Agent None)
                     (snd (store_room room (with_Status RoomClosing) w1)) in
                  let '(a0, w'1) := AfterFunc (5 * Minute) room w'0 in
                  let '(_, w'2) := store_room room (with_CloseTimer (Some a0)) w'1 in
                  ("agent_left", Customer (room_at room w), w'2)) w0 in
             let '(_, w'1) :=
               notify a0.2 (FChatEnded "chat_ended" (ID (room_at room w)) a0.1) w'0 in
             (ChatEndedResponse "chat_ended" (ID (room_at room w)) a0.1, w'1)))).
  { intros b w0 ->. destruct b.
    - unfold RemoveRoom, store_room. run.
      after_notify. unfold wf. cbn.
      apply (wfc_close _ _ (timers w) _ _ room (room_at room w));
        [exact Hwf | exact Hrm | left; reflexivity].
    - unfold AfterFunc, store_room. run.
      after_notify. unfold wf. cbn.
      apply (wfc_agent_left _ _ _ _ room (room_at room w));
        [exact Hwf | exact Hrm | now rewrite Hid]. }
  destruct (Customer (room_at room w)) as [cu|]; cbn.
  - apply (Hcases _ w eq_refl).
  - apply (Hcases false w eq_refl).
Qed.

Lemma store_client_core (p : ptr) (f : Client → Client) (w : World) :
  (∀ c, Token (f c) = Token c) →
  core (snd (store_client p f w)) = core w.
Proof.
  intros Hf. unfold store_client, core, tokens. cbn. f_equal. now apply tokens_alter.
Qed.

Lemma replay_core (room customer client : ptr) (conn : Conn) (msgs : list ChatMessage)
    (w : World) :
  core (snd (replay room customer client conn msgs w)) = core w.
Proof.
  revert w. induction msgs as [|msg msgs IH]; intros w; [reflexivity|].
  unfold replay; fold replay. unfold conn_Write. run.
  pose proof (prepareMessage_core room customer client (Content msg) w) as Hp.
  destruct (prepareMessage room customer client (Content msg) w) as [m w1]. cbn in *.
  rewrite IH. exact Hp.
Qed.

Lemma wsConnect_core (token roomID : string) (acceptOk : bool) (w : World) :
  core (snd (wsConnect token roomID acceptOk w)) = core w.
Proof.
  unfold wsConnect.
  case_bool_decide; cbn; [reflexivity|].
  case_bool_decide; cbn; [reflexivity|].
  unfold GetClient, GetRoom, load_room, load_client. run.
  destruct (Clients (hub w) !! token) as [client|]; cbn; [|reflexivity].
  destruct (Rooms (hub w) !! roomID) as [room|]; cbn; [|reflexivity].
  match goal with |- context [if ?b then _ else _] => destruct b end; cbn; [reflexivity|].
  destruct acceptOk; cbn; [|reflexivity].
  assert (Hc : core (set_clients (alter (with_Connection (Some (accepted w))) client)
                       (set_accepted S w)) = core w).
  { unfold core, tokens. cbn. f_equal. now apply tokens_alter. }
  destruct (Customer (room_at room w)) as [cu|]; cbn.
  - case_bool_decide; cbn.
    + match goal with |- context [replay ?a ?b ?c ?d ?e ?w0] =>
        pose proof (replay_core a b c d e w0) as Hr;
        destruct (replay a b c d e w0) as [[] w2] end.
      cbn in *. congruence.
    + exact Hc.
  - unfold wsDeferred, store_client. cbn. unfold core, tokens in *. cbn in *.
    rewrite tokens_alter by reflexivity. exact Hc.
Qed.

Lemma Allow_core (token : string) (w : World) : core (snd (Allow token w)) = core w.
Proof.
  pose proof (Allow_frame token w) as (Hh & _ & Hc & Hr & Ht & _).
  unfold core, tokens. cbn zeta in *. congruence.
Qed.

Lemma wsRecord_wf (s : Session) (content : string) (w : World) :
  wf w → wf (snd (wsRecord s content w)).
Proof.
  intros Hwf. unfold wsRecord, load_client, load_room, store_room, conn_Write. run.
  pose proof (Allow_core (Token (client_at (ses_client s) w)) w) as Ha.
  destruct (Allow (Token (client_at (ses_client s) w)) w) as [allowed w1]. cbn in *.
  apply (wf_core _ _ Ha) in Hwf.
  destruct allowed; cbn; [|exact Hwf].
  assert (Hwf' : wf (set_rooms (alter (with_Messages
            (Messages (room_at (ses_room s) w1) ++
             [mkChatMessage "message" (ID (room_at (ses_room s) w1))
                (Name (client_at (ses_client s) w)) content ""])) (ses_room s)) w1)).
  { unfold wf. cbn. apply wfc_history; [intros x; cbn; auto|exact Hwf]. }
  case_bool_decide; cbn; exact Hwf'.
Qed.

Lemma Timer_Stop_scheduled (t : ptr) (tm : Timer) (w : World) :
  timers w !! t = Some tm → tm_state tm = Scheduled →
  snd (Timer_Stop t w) = set_timers (alter (with_tm_state Stopped) t) w.
Proof.
  intros Htm Hst. unfold Timer_Stop, timer_at, store_timer. run.
  rewrite list_lookup_total_alt, Htm. cbn. rewrite Hst. reflexivity.
Qed.

Lemma reopenRoom_run (room client : ptr) (w : World) :
  snd (run_thread (reopenRoom room client) w) =
    if reopenCond room client w then
      match CloseTimer (room_at room w) with
      | Some t =>
        set_rooms (alter (with_Status RoomWaiting) room)
          (set_rooms (alter (with_CloseTimer None) room) (snd (Timer_Stop t w)))
      | None => set_rooms (alter (with_Status RoomWaiting) room) w
      end
    else w.
Proof.
  unfold reopenRoom. cbn [run_thread]. unfold id.
  destruct (reopenCond room client w); [|reflexivity].
  cbn [run_thread]. unfold id.
  destruct (CloseTimer (room_at room w)); reflexivity.
Qed.

Lemma reopenCond_closing (room client : ptr) (w : World) :
  reopenCond room client w = true → Status (room_at room w) = RoomClosing.
Proof.
  unfold reopenCond. intros Hc. apply andb_true_iff in Hc as [Hc _].
  now apply bool_decide_eq_true in Hc.
Qed.

Lemma room_at_Some (room : ptr) (w : World) :
  Status (room_at room w) = RoomClosing → rooms w !! room = Some (room_at room w).
Proof.
  unfold room_at. rewrite list_lookup_total_alt.
  destruct (rooms w !! room); [reflexivity|]. discriminate.
Qed.

Lemma reopenRoom_wf (room client : ptr) (w : World) :
  wf w → wf (snd (run_thread (reopenRoom room client) w)).
Proof.
  intros Hwf. rewrite reopenRoom_run.
  destruct (reopenCond room client w) eqn:Hc; [|exact Hwf].
  apply reopenCond_closing in Hc. pose proof (room_at_Some room w Hc) as Hrm.
  destruct (wf_timer _ _ _ _ Hwf _ _ Hrm Hc) as (t & tm & Hct & Htm & Hst & Hroom).
  rewrite Hct, (Timer_Stop_scheduled t tm w Htm Hst).
  unfold wf. cbn. eapply wfc_reopen; eauto.
Qed.

Lemma wsDeliver_core (s : Session) (content : string) (w : World) :
  core (snd (wsDeliver s content w)) = core w.
Proof.
  unfold wsDeliver, load_client, conn_Write. run.
  destruct (ses_recipient s) as [recipient|]; cbn; [|reflexivity].
  destruct (Connection (client_at recipient w)); cbn; [|reflexivity].
  pose proof (prepareMessage_core (ses_room s) (ses_client s) recipient content w) as Hp.
  destruct (prepareMessage (ses_room s) (ses_client s) recipient content w) as [m w1].
  cbn in *. destruct (Connection (client_at recipient w1)); cbn; exact Hp.
Qed.

Lemma wsIteration_wf (s : Session) (inb : Inbound) (w : World) :
  wf w → wf (snd (wsIteration s inb w)).
Proof.
  intros Hwf. unfold wsIteration. destruct inb as [| |content]; cbn; try exact Hwf.
  run. pose proof (wsRecord_wf s content w Hwf) as Ha.
  destruct (wsRecord s content w) as [[flow|] w1]; cbn in *; [exact Ha|].
  pose proof (reopenRoom_wf (ses_room s) (ses_client s) w1 Ha) as Hr.
  destruct (run_thread (reopenRoom (ses_room s) (ses_client s)) w1) as [[] w2].
  cbn in *. eapply wf_core; [apply wsDeliver_core|exact Hr].
Qed.

Lemma wsTurn_wf (s : Session) (inb : Inbound) (w : World) :
  wf w → wf (snd (wsTurn s inb w)).
Proof.
  intros Hwf. unfold wsTurn. run.
  pose proof (wsIteration_wf s inb w Hwf) as Hi.
  destruct (wsIteration s inb w) as [[|] w1]; cbn in *; [exact Hi|].
  eapply wf_core; [|exact Hi]. unfold wsDeferred. now apply store_client_core.
Qed.

Lemma notifyClosed_core (room : ptr) (w : World) :
  core (snd (notifyClosed room w)) = core w.
Proof.
  unfold notifyClosed, load_room, load_client, conn_Write. run.
  repeat case_match; reflexivity.
Qed.

Lemma closeFunc_run (room : ptr) (w : World) :
  snd (run_thread (closeFunc room) w) =
    snd (notifyClosed room
           (set_hub (with_Rooms (delete (ID (room_at room
                        (set_rooms (alter (with_Status RoomClosed) room) w)))))
              (set_rooms (alter (with_Status RoomClosed) room) w))).
Proof. reflexivity. Qed.

Lemma timerFires_wf (t : ptr) (w : World) : wf w → wf (snd (timerFires t w)).
Proof.
  intros Hwf. unfold timerFires, Timer_expire, store_timer. run.
  destruct (bool_decide (tm_state (timer_at t w) = Scheduled)
            && bool_decide (tm_deadline (timer_at t w) ≤ clock (ticks w))) eqn:Hdue;
    cbn; [|exact Hwf].
  apply andb_true_iff in Hdue as [Hs _]. apply bool_decide_eq_true in Hs.
  assert (Htm : timers w !! t = Some (timer_at t w)).
  { unfold timer_at in *. rewrite list_lookup_total_alt in *.
    destruct (timers w !! t); [reflexivity|discriminate]. }
  destruct (wf_timer_room _ _ _ _ Hwf _ _ Htm) as [rm Hrm].
  match goal with |- wf (snd (run_thread ?f ?w0)) =>
    change (wf (snd (run_thread f w0))); rewrite (closeFunc_run _ w0) end.
  eapply wf_core; [apply notifyClosed_core|].
  rewrite room_at_alter_eq by (cbn; eauto). cbn.
  unfold wf. cbn.
  replace (ID (room_at (tm_room (timer_at t w)) _)) with (ID rm)
    by (unfold room_at; cbn; now rewrite list_lookup_total_alt, Hrm).
  apply (wfc_close _ _ (timers w) _ _ _ rm); [exact Hwf|exact Hrm|].
  right. eauto.
Qed.

(** Every reachable state is well formed. *)
Lemma reachable_wf (w : World) : reachable w → wf w.
Proof.
  induction 1 as [| w e Hreach IH Hfresh].
  - split; cbn; intros; try discriminate; set_solver.
  - destruct e; cbn in *; run.
    + pose proof (handleSetProfile_wf token r w IH).
      destruct (handleSetProfile token r w); assumption.
    + pose proof (handleStartChat_wf token roomToken r w IH Hfresh).
      destruct (handleStartChat token roomToken r w); assumption.
    + pose proof (handleJoinRoom_wf r w IH).
      destruct (handleJoinRoom r w); assumption.
    + pose proof (handleEndChat_wf r w IH).
      destruct (handleEndChat r w); assumption.
    + pose proof (wsConnect_core token roomID acceptOk w) as Hc.
      destruct (wsConnect token roomID acceptOk w). cbn in *.
      now apply (wf_core _ _ Hc).
    + pose proof (wsTurn_wf s inb w IH).
      destruct (wsTurn s inb w); assumption.
    + now apply timerFires_wf.
Qed.

(** ** Waiting rooms have no agent *)










Lemma Timer_Stop_rooms (t : ptr) (w : World) : rooms (snd (Timer_Stop t w)) = rooms w.
Proof. unfold Timer_Stop, store_timer. run. case_bool_decide; reflexivity. Qed.







(** ** A closing room is reopened by its customer *)

Lemma wsRecord_allowed (s : Session) (content : string) (w : World) (rm : Room) :
  fst (Allow (Token (client_at (ses_client s) w)) w) = true →
  rooms w !! ses_room s = Some rm →
  Status rm ≠ RoomClosed →
  let out := wsRecord s content w in
  fst out = None
  ∧ rooms (snd out)
    = alter (with_Messages (Messages rm ++
               [mkChatMessage "message" (ID rm) (Name (client_at (ses_client s) w))
                              content ""])) (ses_room s) (rooms w)
  ∧ hub (snd out) = hub w
  ∧ timers (snd out) = timers w
  ∧ clients (snd out) = clients w.
Proof.
  intros Hallow Hrm Hst out. subst out.
  unfold wsRecord, load_client, load_room, store_room, conn_Write. run.
  pose proof (Allow_frame (Token (client_at (ses_client s) w)) w) as Hf.
  cbn zeta in Hf.
  destruct (Allow (Token (client_at (ses_client s) w)) w) as [allowed w1].
  cbn in Hallow, Hf. subst allowed. cbn.
  destruct Hf as (Hh & _ & Hc & Hr & Ht & _).
  assert (Hat : room_at (ses_room s) w1 = rm).
  { unfold room_at. now rewrite Hr, list_lookup_total_alt, Hrm. }
  rewrite Hat.
  rewrite bool_decide_false.
  - cbn. rewrite Hr, Hh, Ht, Hc. auto.
  - unfold room_at. cbn. rewrite Hr, list_lookup_total_alt, list_lookup_alter_eq, Hrm.
    exact Hst.
Qed.

Lemma Timer_expire_stopped (t : ptr) (w : World) :
  tm_state (timer_at t w) = Stopped → fst (Timer_expire t w) = None.
Proof.
  intros Hst. unfold Timer_expire, store_timer. run. rewrite Hst. reflexivity.
Qed.

(** The reopening when handlers do not overlap, for the timer that the
    room records: in a reachable state, when the customer of a closing
    room sends a message that the limiter accepts, the recorded close
    timer is stopped (it will not fire) and cleared, the status becomes
    waiting and the loop goes on; right after that, [JoinRoom] with the
    room's id succeeds for any agent and makes the room active with that
    agent.  A timer of an earlier end-chat request is not the recorded one
    and stays scheduled. *)
Lemma customer_message_reopens_room
    (s : Session) (content : string) (cu : ptr) (w : World) :
  reachable w →
  Status (room_at (ses_room s) w) = RoomClosing →
  Customer (room_at (ses_room s) w) = Some cu →
  Token (client_at cu w) = Token (client_at (ses_client s) w) →
  fst (Allow (Token (client_at (ses_client s) w)) w) = true →
  let room := ses_room s in
  let out := wsTurn s (Payload content) w in
  fst out = Continue
  ∧ (∃ t, CloseTimer (room_at room w) = Some t
          ∧ tm_state (timer_at t w) = Scheduled
          ∧ tm_state (timer_at t (snd out)) = Stopped
          ∧ fst (Timer_expire t (snd out)) = None)
  ∧ CloseTimer (room_at room (snd out)) = None
  ∧ Status (room_at room (snd out)) = RoomWaiting
  ∧ ∀ agent,
      let joined := JoinRoom (ID (room_at room w)) agent (snd out) in
      fst joined = Ok room
      ∧ Status (room_at room (snd joined)) = RoomActive
      ∧ Agent (room_at room (snd joined)) = agent.
Proof.
  intros Hreach Hclosing Hcust Htok Hallow room out.
  pose proof (reachable_wf w Hreach) as Hwf.
  pose proof (room_at_Some (ses_room s) w Hclosing) as Hrm.
  set (rm := room_at (ses_room s) w) in *.
  destruct (wf_timer _ _ _ _ Hwf _ _ Hrm Hclosing) as (t & tm & Hct & Htm & Hsched & Htroom).
  pose proof (wf_unoccupied _ _ _ _ Hwf _ _ Hrm (or_intror Hclosing)) as Hnoagent.
  assert (Hreg : Rooms (hub w) !! ID rm = Some (ses_room s)).
  { apply (wf_registered _ _ _ _ Hwf _ _ Hrm). rewrite Hclosing. discriminate. }
  destruct (wsRecord_allowed s content w rm Hallow Hrm) as (Hnone & Hr1 & Hh1 & Ht1 & Hc1).
  { rewrite Hclosing. discriminate. }
  subst out. unfold wsTurn, wsIteration. run.
  destruct (wsRecord s content w) as [ended w1]. cbn in Hnone, Hr1, Hh1, Ht1, Hc1.
  subst ended. cbn.
  set (ms := Messages rm ++ _) in Hr1.
  assert (Hrm1 : rooms w1 !! ses_room s = Some (with_Messages ms rm)).
  { rewrite Hr1, list_lookup_alter_eq, Hrm. reflexivity. }
  assert (Hat1 : room_at (ses_room s) w1 = with_Messages ms rm).
  { unfold room_at. now rewrite list_lookup_total_alt, Hrm1. }
  assert (Hcond : reopenCond (ses_room s) (ses_client s) w1 = true).
  { unfold reopenCond. rewrite Hat1. cbn. rewrite Hclosing, Hcust.
    unfold client_at in *. rewrite Hc1.
    rewrite !bool_decide_true by auto. reflexivity. }
  pose proof (reopenRoom_run (ses_room s) (ses_client s) w1) as Hrun.
  rewrite Hcond, Hat1 in Hrun. cbn in Hrun. rewrite Hct in Hrun.
  rewrite (Timer_Stop_scheduled t tm w1) in Hrun by (rewrite ?Ht1; assumption).
  destruct (run_thread (reopenRoom (ses_room s) (ses_client s)) w1) as [[] w2].
  cbn in Hrun. subst w2.
  match goal with |- context [wsDeliver s content ?w0] =>
    pose proof (wsDeliver_core s content w0) as Hd;
    destruct (wsDeliver s content w0) as [flow w3] eqn:Hdel end.
  assert (Hflow : flow = Continue).
  { revert Hdel. unfold wsDeliver, load_client, conn_Write. run.
    repeat case_match; cbn; intros [= <- _]; reflexivity. }
  subst flow. cbn.
  unfold core in Hd. cbn in Hd. injection Hd as Hh3 Hr3 Ht3 _.
  rewrite Hr1, Ht1, Hh1 in *.
  assert (Hat3 : room_at room w3
                 = with_Status RoomWaiting (with_CloseTimer None (with_Messages ms rm))).
  { unfold room_at, room. rewrite Hr3, list_lookup_total_alt, !list_lookup_alter_eq, Hrm.
    reflexivity. }
  split; [reflexivity|]. split; [|split; [|split]].
  - exists t. split; [exact Hct|].
    assert (Hs3 : tm_state (timer_at t w3) = Stopped).
    { unfold timer_at. rewrite Ht3, list_lookup_total_alt, list_lookup_alter_eq, Htm.
      reflexivity. }
    split; [|split; [exact Hs3|now apply Timer_expire_stopped]].
    unfold timer_at. now rewrite list_lookup_total_alt, Htm.
  - now rewrite Hat3.
  - now rewrite Hat3.
  - intros agent. change (ID (room_at room w)) with (ID rm).
    pose proof (JoinRoom_success (ID rm) agent room w3) as Hok.
    rewrite Hh3, Hat3 in Hok. cbn in Hok.
    destruct (Hok Hreg eq_refl Hnoagent ltac:(rewrite Hcust; discriminate))
      as (Hj & Hroom & _).
    split; [exact Hj|]. rewrite Hroom. auto.
Qed.

(** ** Rooms refer to registered participants *)

Lemma reachable_participantsRegistered (w : World) :
  reachable w → participantsRegistered w.
Proof.
  intros Hreach. pose proof (reachable_wf w Hreach) as Hwf.
  intros id room Hid.
  destruct (wf_hub_rooms _ _ _ _ Hwf _ _ Hid) as (rm & Hrm & _).
  assert (Hat : room_at room w = rm).
  { unfold room_at. now rewrite list_lookup_total_alt, Hrm. }
  rewrite Hat.
  assert (Hslot : ∀ p, Customer rm = Some p ∨ Agent rm = Some p →
                       is_Some (Clients (hub w) !! Token (client_at p w))).
  { intros p Hp. destruct (wf_members _ _ _ _ Hwf _ _ _ Hrm Hp) as (t & Ht & Hreg).
    unfold tokens in Ht. rewrite list_lookup_fmap in Ht.
    unfold client_at. rewrite list_lookup_total_alt.
    destruct (clients w !! p) as [c|]; [|discriminate].
    cbn in *. injection Ht as ->. exact Hreg. }
  split; intros p Hp; apply Hslot; auto.
Qed.

Lemma room_at_snoc (rm : Room) (room : ptr) (w : World) :
  room_at room (set_rooms (λ l, l ++ [rm]) w) = room_at room w
  ∨ room_at room (set_rooms (λ l, l ++ [rm]) w) = rm.
Proof.
  unfold room_at. cbn. rewrite !list_lookup_total_alt.
  destruct (decide (room < length (rooms w))%nat) as [Hlt|Hge].
  - left. now rewrite lookup_app_l by exact Hlt.
  - destruct (decide (room = length (rooms w))) as [->|Hne].
    + right. rewrite lookup_app_r, Nat.sub_diag by lia. reflexivity.
    + left. rewrite lookup_app_r by lia.
      rewrite (lookup_ge_None_2 (rooms w)) by lia.
      destruct (room - length (rooms w))%nat as [|n] eqn:Hn; [lia|]. reflexivity.
Qed.

Lemma hubOp_keeps_registration (o : HubOp) (w : World) :
  participantsRegistered w → keepsRegistration o w →
  participantsRegistered (snd (hubOp o w)).
Proof.
  intros Hinv Hsafe. destruct o as [client|token|token customer|roomID agent|roomID];
    cbn in Hsafe |- *.
  - (* AddClient *)
    unfold AddClient, load_client. run. intros id room Hid.
    destruct (Hinv id room Hid) as [Hc Ha].
    split; intros p Hp; unfold client_at, room_at in *; cbn in *;
      apply lookup_insert_is_Some';
      [right; now apply Hc | right; now apply Ha].
  - (* RemoveClient *)
    unfold RemoveClient. run. intros id room Hid.
    destruct (Hinv id room Hid) as [Hc Ha].
    split; intros p Hp; unfold client_at, room_at in *; cbn in *.
    + destruct (Hc p Hp) as [q Hq]. exists q.
      rewrite lookup_delete_ne; [exact Hq|]. intros Heq.
      apply (Hsafe id room p Hid (or_introl Hp)). now rewrite Heq.
    + destruct (Ha p Hp) as [q Hq]. exists q.
      rewrite lookup_delete_ne; [exact Hq|]. intros Heq.
      apply (Hsafe id room p Hid (or_intror Hp)). now rewrite Heq.
  - (* CreateRoom *)
    unfold CreateRoom, NewRoom. run. intros id room Hid.
    unfold slotRegistered in *. unfold client_at in *. cbn in *.
    match goal with |- context [room_at room ?w0] =>
      destruct (room_at_snoc (mkRoom ("room_" +:+ token) customer None RoomWaiting [] None)
                  room w) as [Heq|Heq];
      change (room_at room w0) with
        (room_at room (set_rooms (λ l, l ++
           [mkRoom ("room_" +:+ token) customer None RoomWaiting [] None]) w));
      rewrite Heq
    end.
    + apply lookup_insert_Some in Hid as [[_ <-]|[_ Hid]].
      * unfold room_at in Heq |- *. cbn in Heq.
        rewrite !list_lookup_total_alt in *.
        rewrite lookup_ge_None_2 by lia. cbn. split; intros p Hp; discriminate.
      * apply (Hinv id room Hid).
    + cbn. split; [exact Hsafe|]. intros p Hp; discriminate.
  - (* JoinRoom *)
    run. pose proof (JoinRoom_run roomID agent w) as Hrun.
    destruct (JoinRoom roomID agent w) as [res w1]. cbn.
    destruct (Rooms (hub w) !! roomID) as [room|] eqn:Hroom;
      [|injection Hrun as _ ->; exact Hinv].
    cbn zeta in Hrun.
    repeat case_bool_decide; injection Hrun as _ ->; try exact Hinv.
    intros id room' Hid. cbn in Hid.
    unfold slotRegistered, client_at. cbn.
    rewrite !room_at_alter.
    destruct (Hinv id room' Hid) as [Hc Ha].
    unfold slotRegistered, client_at in *.
    repeat case_bool_decide; cbn; split; assumption.
  - (* RemoveRoom *)
    unfold RemoveRoom. run. intros id room Hid. cbn in Hid.
    apply lookup_delete_Some in Hid as [_ Hid]. apply (Hinv id room Hid).
Qed.

(** C7, as the code has it: every state the handlers reach satisfies the
    invariant, and a direct call of a hub operation keeps it when
    [CreateRoom] and [JoinRoom] are given a registered client and
    [RemoveClient] a token that no room of the hub refers to ([AddClient]
    and [RemoveRoom] always keep it). *)
Theorem participants_stay_registered (w : World) :
  (reachable w → participantsRegistered w)
  ∧ (∀ o, participantsRegistered w → keepsRegistration o w →
          participantsRegistered (snd (hubOp o w))).
Proof.
  split.
  - apply reachable_participantsRegistered.
  - intros o. apply hubOp_keeps_registration.
Qed.

(** ** Runs of events *)

Lemma run_events_reachable (es : list Event) (w : World) :
  reachable w → freshAlong es w → reachable (run_events es w).
Proof.
  revert w. induction es as [|e es IH]; intros w Hreach Hfresh; [exact Hreach|].
  destruct Hfresh as [Hf Hfs]. cbn. apply IH; [|exact Hfs].
  now apply reachable_event.
Qed.


(** ** Further properties: the limiter *)

Lemma Allow_limits (token : string) (w : World) :
  let r := limiter w in
  let recent := recentStamps (Time_Add (clock (ticks w)) (Duration_neg (window r)))
                  (default [] (limits r !! token)) in
  let full := bool_decide (maxMessages r ≤ Z.of_nat (length recent)) in
  fst (Allow token w) = negb full
  ∧ limiter (snd (Allow token w)) =
    with_limits <[token := if full then recent else recent ++ [clock (S (ticks w))]]> r.
Proof.
  intros r recent full. subst full. case_bool_decide as Hc.
  - now rewrite (Allow_reject token w Hc).
  - rewrite (Allow_accept token w); [done | fold r recent; lia].
Qed.

(** X1: the limiter keeps one list of stamps per identity: a call for one
    identity leaves the stamps of every other identity, the limit and the
    window as they are. *)
Theorem Allow_other_identity (token other : string) (w : World) :
  other ≠ token →
  let w' := snd (Allow token w) in
  limits (limiter w') !! other = limits (limiter w) !! other
  ∧ maxMessages (limiter w') = maxMessages (limiter w)
  ∧ window (limiter w') = window (limiter w).
Proof.
  intros Hne w'. subst w'.
  destruct (Allow_limits token w) as [_ ->]. cbn.
  split; [|done]. now rewrite lookup_insert_ne.
Qed.

Lemma Allow_config (token : string) (w : World) :
  maxMessages (limiter (snd (Allow token w))) = maxMessages (limiter w)
  ∧ window (limiter (snd (Allow token w))) = window (limiter w).
Proof. now destruct (Allow_limits token w) as [_ ->]. Qed.

Lemma allowEach_cons (token : string) (tokens : list string) (w : World) :
  allowEach (token :: tokens) w =
    (fst (Allow token w) :: fst (allowEach tokens (snd (Allow token w))),
     snd (allowEach tokens (snd (Allow token w)))).
Proof.
  cbn. unfold bind, ret. destruct (Allow token w) as [b w1]. cbn.
  now destruct (allowEach tokens w1).
Qed.

(** X2: a limiter whose limit is zero or negative accepts nothing, for any
    identity and for ever, and records no stamp. *)
Theorem Allow_nonpositive_limit (tokens : list string) (w : World) :
  maxMessages (limiter w) ≤ 0 →
  (∀ b, b ∈ fst (allowEach tokens w) → b = false)
  ∧ ∀ token t, t ∈ default [] (limits (limiter (snd (allowEach tokens w))) !! token) →
               t ∈ default [] (limits (limiter w) !! token).
Proof.
  revert w. induction tokens as [|token tokens IH]; intros w Hmax.
  - cbn. split; [intros b Hb; inversion Hb | done].
  - rewrite allowEach_cons. cbn.
    pose proof (Allow_limits token w) as [Hans Hlim].
    pose proof (Allow_config token w) as [Hm _].
    cbn in Hans, Hlim.
    rewrite bool_decide_eq_true_2 in Hans, Hlim by lia. cbn in Hans.
    assert (maxMessages (limiter (snd (Allow token w))) ≤ 0) as Hmax1 by lia.
    destruct (IH _ Hmax1) as [IHb IHs].
    split.
    + intros b' [->|Hin]%elem_of_cons; [done | auto].
    + intros tk t Hin. apply IHs in Hin. rewrite Hlim in Hin. cbn in Hin.
      destruct (decide (tk = token)) as [->|Hne].
      * rewrite lookup_insert_eq in Hin. cbn in Hin.
        now apply elem_of_recentStamps in Hin as [? _].
      * now rewrite lookup_insert_ne in Hin.
Qed.

Lemma Allow_bounded (token : string) (w : World) :
  limiterBounded (limiter w) → limiterBounded (limiter (snd (Allow token w))).
Proof.
  intros Hb tk stamps.
  destruct (Allow_limits token w) as [_ ->]. cbn.
  destruct (decide (tk = token)) as [->|Hne].
  - rewrite lookup_insert_eq. intros [= <-].
    pose proof (recentStamps_length
                  (Time_Add (clock (ticks w)) (Duration_neg (window (limiter w))))
                  (default [] (limits (limiter w) !! token))) as Hlen.
    assert (Z.of_nat (length (default [] (limits (limiter w) !! token)))
            ≤ Z.max 0 (maxMessages (limiter w))) as Hold.
    { destruct (limits (limiter w) !! token) as [l|] eqn:Hl; cbn; [eauto | lia]. }
    case_bool_decide; [lia|]. rewrite length_app. cbn. lia.
  - rewrite lookup_insert_ne by done. apply Hb.
Qed.

(** X3: the limiter never holds more stamps for an identity than its limit
    (none when the limit is not positive): calls of [Allow], for whatever
    identities and at whatever times, keep this bound. *)
Theorem allowEach_bounded (tokens : list string) (w : World) :
  limiterBounded (limiter w) → limiterBounded (limiter (snd (allowEach tokens w))).
Proof.
  revert w. induction tokens as [|token tokens IH]; intros w Hb; [done|].
  rewrite allowEach_cons. cbn. apply IH, Allow_bounded, Hb.
Qed.

(** X4: for a window that is an int64 other than the least one, whose
    opposite overflows: once every stamp of an identity is a full window
    old, its next message is accepted and the old stamps are dropped: the
    stored list is the new stamp alone. *)
Theorem Allow_after_window (token : string) (w : World) :
  - 2 ^ 63 < window (limiter w) < 2 ^ 63 →
  0 < maxMessages (limiter w) →
  (∀ t, t ∈ default [] (limits (limiter w) !! token) →
        t ≤ clock (ticks w) - window (limiter w)) →
  fst (Allow token w) = true
  ∧ limits (limiter (snd (Allow token w))) !! token = Some [clock (S (ticks w))].
Proof.
  intros Hwin Hmax Hold.
  assert (recentStamps (Time_Add (clock (ticks w)) (Duration_neg (window (limiter w))))
            (default [] (limits (limiter w) !! token)) = []) as Hnil.
  { apply elem_of_nil_inv. intros t [Hin Hlt]%elem_of_recentStamps.
    rewrite cutoff_in_range in Hlt by exact Hwin.
    apply Hold in Hin. lia. }
  destruct (Allow_limits token w) as [-> ->]. rewrite Hnil. cbn.
  rewrite bool_decide_eq_false_2 by lia. split; [done|].
  now rewrite lookup_insert_eq.
Qed.

(** ** Further properties: the translator *)

Lemma Translate_cases (txt from to : string) (w : World) :
  let prompt := translatePrompt txt from to in
  let key := cacheKey from to txt in
  let w1 := set_requests (λ l, l ++ [prompt]) (set_ticks S w) in
  (cacheFresh key w = true
   ∧ ∃ e, cache (translator w) !! key = Some e
          ∧ Translate txt from to w = (Some (text e), set_ticks S w))
  ∨ (cacheFresh key w = false
     ∧ Translate txt from to w =
       match generate (length (requests w)) prompt with
       | None => (None, w1)
       | Some translated =>
         (Some translated,
          set_translator
            (with_cache <[key := mkCacheEntry translated (clock (S (ticks w)))]>)
            (set_ticks S w1))
       end).
Proof.
  intros prompt key w1. unfold cacheFresh.
  destruct (cache (translator w) !! key) as [e|] eqn:He.
  - case_bool_decide as Hage.
    + left. split; [done|]. exists e. split; [done|]. now apply Translate_hit.
    + right. split; [done|]. apply Translate_miss_run. fold key. rewrite He. lia.
  - right. split; [done|]. apply Translate_miss_run. fold key. now rewrite He.
Qed.

(** X5: a translation that fails is not cached: when [Translate] returns
    no text, the model was asked once and gave an error, and the
    translator is as before. *)
Theorem Translate_failure_not_cached (txt from to : string) (w : World) :
  fst (Translate txt from to w) = None →
  generate (length (requests w)) (translatePrompt txt from to) = None
  ∧ translator (snd (Translate txt from to w)) = translator w
  ∧ requests (snd (Translate txt from to w)) = requests w ++ [translatePrompt txt from to].
Proof.
  destruct (Translate_cases txt from to w) as [(_ & e & _ & ->)|[_ ->]]; [done|].
  now destruct (generate _ _).
Qed.

(** X6: the cache only grows: a call of [Translate] writes at most the
    entry under its own key, never removes an entry, and leaves the TTL,
    the endpoint and the model name alone. *)
Theorem Translate_cache_grows (txt from to : string) (w : World) :
  let w' := snd (Translate txt from to w) in
  (∀ key, key ≠ cacheKey from to txt →
          cache (translator w') !! key = cache (translator w) !! key)
  ∧ (∀ key, is_Some (cache (translator w) !! key) → is_Some (cache (translator w') !! key))
  ∧ cacheTTL (translator w') = cacheTTL (translator w)
  ∧ url (translator w') = url (translator w)
  ∧ model (translator w') = model (translator w).
Proof.
  intros w'. subst w'.
  destruct (Translate_cases txt from to w) as [(_ & e & _ & ->)|[_ ->]]; [done|].
  destruct (generate _ _) as [translated|]; [|done]. cbn.
  split; [|split; [|done]].
  - intros key Hne. now rewrite lookup_insert_ne.
  - intros key Hk. destruct (decide (key = cacheKey from to txt)) as [->|Hne].
    + rewrite lookup_insert_eq. eauto.
    + now rewrite lookup_insert_ne.
Qed.

(** X7: [Translate] sends at most one request to the model, and none
    exactly when the cache holds an entry under the key string that is no
    older than the TTL; that entry's text is then the result. *)
Theorem Translate_requests (txt from to : string) (w : World) :
  let out := Translate txt from to w in
  let key := cacheKey from to txt in
  requests (snd out) =
    (if cacheFresh key w then requests w
     else requests w ++ [translatePrompt txt from to])
  ∧ fst out =
    (if cacheFresh key w then text <$> cache (translator w) !! key
     else generate (length (requests w)) (translatePrompt txt from to)).
Proof.
  intros out key. subst out key.
  destruct (Translate_cases txt from to w) as [(-> & e & He & ->)|[-> ->]].
  - now rewrite He.
  - now destruct (generate _ _).
Qed.

(** ** Further properties: [prepareMessage] *)

Lemma detectCustomerLanguage_run (room sender : ptr) (content : string) (w : World) :
  detectCustomerLanguage room sender content w =
    if needsDetection room sender w then
      match generate (length (requests w)) (detectPrompt content) with
      | None => (false, set_requests (λ l, l ++ [detectPrompt content]) w)
      | Some lang =>
        (true, set_clients (alter (with_Language (TrimSpace lang)) sender)
                 (set_requests (λ l, l ++ [detectPrompt content]) w))
      end
    else (true, w).
Proof.
  unfold detectCustomerLanguage, needsDetection, DetectLanguage, Translator_generate,
    store_client, load_room, load_client. run.
  destruct (_ && _); [|done]. fold (detectPrompt content).
  now destruct (generate _ _).
Qed.

(** X8: when no detection is due and the two languages are equal, or one
    of them is unknown, [prepareMessage] returns the message as it was
    sent and touches nothing: no request to the model, no clock reading,
    no change of any client. *)
Theorem prepareMessage_skips (room sender recipient : ptr) (content : string) (w : World) :
  needsDetection room sender w = false →
  languagesDiffer sender recipient w = false →
  prepareMessage room sender recipient content w
    = (plainMessage room sender content w, w).
Proof.
  intros Hd Hl. unfold prepareMessage, load_room, load_client. run.
  rewrite detectCustomerLanguage_run, Hd. cbn. now rewrite Hl.
Qed.

(** X9: when the detection of the customer's language fails, the message
    goes out as it was sent: the language stays unknown, no translation is
    asked for, and the one request made is the detection. *)
Theorem prepareMessage_detection_fails
    (room sender recipient : ptr) (content : string) (w : World) :
  needsDetection room sender w = true →
  generate (length (requests w)) (detectPrompt content) = None →
  prepareMessage room sender recipient content w
    = (plainMessage room sender content w,
       set_requests (λ l, l ++ [detectPrompt content]) w).
Proof.
  intros Hd Hg. unfold prepareMessage, load_room, load_client. run.
  now rewrite detectCustomerLanguage_run, Hd, Hg.
Qed.

Lemma client_at_alter (f : Client → Client) (sender p : ptr) (w : World) :
  client_at p (set_clients (alter f sender) w) =
  if bool_decide (p = sender ∧ is_Some (clients w !! sender)) then f (client_at p w)
  else client_at p w.
Proof.
  unfold client_at. cbn. rewrite !list_lookup_total_alt.
  case_bool_decide as Hc.
  - destruct Hc as [-> [c Hc]]. now rewrite list_lookup_alter_eq, Hc.
  - destruct (decide (p = sender)) as [->|Hne].
    + rewrite alter_oob; [done|].
      destruct (clients w !! sender) eqn:E; [|done]. destruct Hc; eauto.
    + now rewrite list_lookup_alter_ne.
Qed.

Lemma prepareMessage_client_at
    (room sender recipient : ptr) (content : string) (w : World) :
  let w' := snd (prepareMessage room sender recipient content w) in
  length (clients w') = length (clients w)
  ∧ ∀ p, client_at p w' = client_at p w
         ∨ (p = sender ∧ needsDetection room sender w = true
            ∧ ∃ lang, generate (length (requests w)) (detectPrompt content) = Some lang
                      ∧ client_at p w' = with_Language (TrimSpace lang) (client_at p w)).
Proof.
  intros w'. subst w'. unfold prepareMessage, load_room, load_client. run.
  rewrite detectCustomerLanguage_run.
  destruct (needsDetection room sender w) eqn:Hd; cbn.
  - destruct (generate _ _) as [lang|] eqn:Hg; cbn; [|auto].
    set (w1 := set_clients _ _).
    assert (length (clients w1) = length (clients w)) as Hlen.
    { subst w1. cbn. now rewrite length_alter. }
    assert (∀ p, client_at p w1 = client_at p w
              ∨ (p = sender ∧ true = true ∧ ∃ lang0, Some lang = Some lang0
                   ∧ client_at p w1 = with_Language (TrimSpace lang0) (client_at p w)))
      as Hcl.
    { intros p. subst w1.
      replace (client_at p (set_clients (alter (with_Language (TrimSpace lang)) sender)
                 (set_requests (λ l, l ++ [detectPrompt content]) w)))
        with (if bool_decide (p = sender ∧ is_Some (clients w !! sender))
              then with_Language (TrimSpace lang) (client_at p w) else client_at p w).
      - case_bool_decide as Hc; [|auto]. right. destruct Hc as [-> _]. eauto.
      - symmetry. apply (client_at_alter _ sender p
                           (set_requests (λ l, l ++ [detectPrompt content]) w)). }
    destruct (languagesDiffer sender recipient w1); cbn; [|auto].
    pose proof (Translate_core content (Language (client_at sender w1))
                  (Language (client_at recipient w1)) w1) as [_ Hc].
    destruct (Translate _ _ _ w1) as [[tr|] w2]; cbn in *.
    + assert (∀ p, client_at p w2 = client_at p w1) as Heq
        by (intros p; unfold client_at; now rewrite Hc).
      case_bool_decide; cbn; (split; [congruence|]); intros p; rewrite Heq; apply Hcl.
    + assert (∀ p, client_at p w2 = client_at p w1) as Heq
        by (intros p; unfold client_at; now rewrite Hc).
      split; [congruence|]. intros p; rewrite Heq; apply Hcl.
  - destruct (languagesDiffer sender recipient w); cbn; [|auto].
    pose proof (Translate_core content (Language (client_at sender w))
                  (Language (client_at recipient w)) w) as [_ Hc].
    destruct (Translate _ _ _ w) as [[tr|] w2]; cbn in *.
    + case_bool_decide; cbn; (split; [congruence|]); intros p; left;
        unfold client_at; now rewrite Hc.
    + split; [congruence|]. intros p; left; unfold client_at; now rewrite Hc.
Qed.

(** X10: the only thing [prepareMessage] ever writes to a client is the
    language of a customer whose language was unknown: every other client,
    and every client whose language is known, is left as it is, and
    tokens, names and connections never change. *)
Theorem prepareMessage_clients
    (room sender recipient : ptr) (content : string) (w : World) :
  let w' := snd (prepareMessage room sender recipient content w) in
  length (clients w') = length (clients w)
  ∧ (∀ p, client_at p w' = client_at p w
          ∨ (p = sender ∧ needsDetection room sender w = true
             ∧ ∃ lang, generate (length (requests w)) (detectPrompt content) = Some lang
                       ∧ client_at p w' = with_Language (TrimSpace lang) (client_at p w)))
  ∧ (∀ p, Language (client_at p w) ≠ "" → client_at p w' = client_at p w)
  ∧ (∀ p, Token (client_at p w') = Token (client_at p w)
          ∧ Name (client_at p w') = Name (client_at p w)
          ∧ Connection (client_at p w') = Connection (client_at p w)).
Proof.
  intros w'. destruct (prepareMessage_client_at room sender recipient content w) as [Hl Hc].
  fold w' in Hl, Hc. split; [exact Hl|]. split; [exact Hc|]. split.
  - intros p Hlang. destruct (Hc p) as [Hp|(-> & Hd & _)]; [exact Hp|].
    unfold needsDetection in Hd. apply andb_true_iff in Hd as [_ Hd].
    apply bool_decide_eq_true in Hd. contradiction.
  - intros p. destruct (Hc p) as [->|(_ & _ & lang & _ & ->)]; done.
Qed.

(** ** Further properties: the hub *)

Lemma elem_of_GetWaitingRooms (room : ptr) (w : World) :
  room ∈ fst (GetWaitingRooms w) ↔
  ∃ id, Rooms (hub w) !! id = Some room ∧ Status (room_at room w) = RoomWaiting.
Proof.
  unfold GetWaitingRooms. cbn. rewrite list_elem_of_filter, list_elem_of_fmap.
  split.
  - intros [Hst [[id p] [-> Hin]]]. apply elem_of_map_to_list in Hin. eauto.
  - intros [id [Hid Hst]]. split; [done|]. exists (id, room). split; [done|].
    now apply elem_of_map_to_list.
Qed.

(** X11: a room made by [CreateRoom] is found under its id, waits for an
    agent with no agent, no history and no timer, is listed by
    [GetWaitingRooms], and the rooms made before are untouched; after
    [RemoveRoom] the id finds nothing, while the room object lives on. *)
Theorem Rooms_round_trip (token : string) (customer : option ptr) (w : World) :
  let id := "room_" +:+ token in
  let out := CreateRoom token customer w in
  let removed := snd (RemoveRoom id (snd out)) in
  fst out = length (rooms w)
  ∧ fst (GetRoom id (snd out)) = Some (fst out)
  ∧ room_at (fst out) (snd out) = mkRoom id customer None RoomWaiting [] None
  ∧ (∀ p, (p < length (rooms w))%nat → room_at p (snd out) = room_at p w)
  ∧ fst out ∈ fst (GetWaitingRooms (snd out))
  ∧ fst (GetRoom id removed) = None
  ∧ rooms removed = rooms (snd out)
  ∧ (∀ other, other ≠ id → fst (GetRoom other removed) = fst (GetRoom other w)).
Proof.
  intros id out removed.
  set (w1 := set_hub (with_Rooms <[id := length (rooms w)]>)
               (set_rooms (λ l, l ++ [mkRoom id customer None RoomWaiting [] None]) w)).
  assert (out = (length (rooms w), w1)) as Hout
    by (subst out; unfold CreateRoom, NewRoom; now run).
  assert (room_at (length (rooms w)) w1 = mkRoom id customer None RoomWaiting [] None)
    as Hnew by (unfold room_at; cbn; apply snoc_lookup_total).
  subst removed. rewrite Hout. cbn [fst snd]. unfold GetRoom, RemoveRoom. run.
  split; [done|]. split; [now rewrite lookup_insert_eq|]. split; [exact Hnew|].
  split; [|split; [|split; [|split]]].
  - intros p Hp. unfold room_at. cbn. now rewrite lookup_total_app_l.
  - apply elem_of_GetWaitingRooms. exists id. cbn. rewrite lookup_insert_eq.
    split; [done|]. now rewrite Hnew.
  - now rewrite lookup_delete_eq.
  - done.
  - intros other Hne. rewrite lookup_delete_ne by done. now rewrite lookup_insert_ne.
Qed.

(** X12: [GetWaitingRooms] reads only, and lists exactly the rooms of the
    hub whose status is waiting; in a reachable state it lists each of
    them once. *)
Theorem GetWaitingRooms_spec (w : World) :
  snd (GetWaitingRooms w) = w
  ∧ (∀ room, room ∈ fst (GetWaitingRooms w) ↔
       ∃ id, Rooms (hub w) !! id = Some room ∧ Status (room_at room w) = RoomWaiting)
  ∧ (reachable w → NoDup (fst (GetWaitingRooms w))).
Proof.
  split; [done|]. split; [intros room; apply elem_of_GetWaitingRooms|].
  intros Hwf%reachable_wf. unfold GetWaitingRooms. cbn.
  apply NoDup_filter, NoDup_fmap_2_strong; [|apply NoDup_map_to_list].
  intros [id1 p1] [id2 p2] H1%elem_of_map_to_list H2%elem_of_map_to_list Heq.
  cbn in Heq. subst p2.
  destruct (wf_room_at w id1 p1 Hwf H1) as [_ <-].
  destruct (wf_room_at w id2 p1 Hwf H2) as [_ <-]. done.
Qed.

Lemma IsAgentInRoom_true (agentToken : string) (w : World) :
  fst (IsAgentInRoom agentToken w) = true ↔
  ∃ id room a, Rooms (hub w) !! id = Some room
    ∧ Agent (room_at room w) = Some a
    ∧ Token (client_at a w) = agentToken
    ∧ Status (room_at room w) = RoomActive.
Proof.
  unfold IsAgentInRoom. cbn. rewrite existsb_exists. split.
  - intros [room [Hin Hc]]. apply list_elem_of_In, list_elem_of_fmap in Hin.
    destruct Hin as [[id p] [-> Hin]]. apply elem_of_map_to_list in Hin.
    change ((id, p).2) with p in Hc. destruct (Agent (room_at p w)) as [a|] eqn:Ha; [|done].
    apply andb_true_iff in Hc as [Ht Hs].
    apply bool_decide_eq_true in Ht, Hs. exists id, p, a. auto.
  - intros (id & room & a & Hid & Ha & Ht & Hs). exists room. split.
    + apply list_elem_of_In, list_elem_of_fmap. exists (id, room). split; [done|].
      now apply elem_of_map_to_list.
    + rewrite Ha. apply andb_true_iff. split; now apply bool_decide_eq_true.
Qed.

Lemma JoinRoom_Ok_inv (roomID : string) (agent : option ptr) (room : ptr) (w : World) :
  fst (JoinRoom roomID agent w) = Ok room →
  Rooms (hub w) !! roomID = Some room
  ∧ Status (room_at room w) = RoomWaiting
  ∧ Agent (room_at room w) = None
  ∧ Customer (room_at room w) ≠ None
  ∧ snd (JoinRoom roomID agent w)
    = set_rooms (alter (with_Status RoomActive) room)
        (set_rooms (alter (with_Agent agent) room) w).
Proof.
  rewrite JoinRoom_run.
  destruct (Rooms (hub w) !! roomID) as [room'|]; cbn; [|done].
  case_bool_decide as Hs; cbn; [done|].
  case_bool_decide as Ha; cbn; [done|].
  case_bool_decide as Hc; cbn; [done|].
  intros [= ->]. split; [done|].
  split; [destruct (decide (Status (room_at room w) = RoomWaiting)); [done|contradiction]|].
  split; [destruct (decide (Agent (room_at room w) = None)); [done|contradiction]|].
  done.
Qed.

(** X13: a room is joined once: after a successful [JoinRoom] the room is
    active with the agent that joined, and any further [JoinRoom] for the
    same id fails with "room is not available" and changes nothing. *)
Theorem JoinRoom_only_once
    (roomID : string) (agent agent' : option ptr) (room : ptr) (w : World) :
  fst (JoinRoom roomID agent w) = Ok room →
  let w1 := snd (JoinRoom roomID agent w) in
  Status (room_at room w1) = RoomActive
  ∧ Agent (room_at room w1) = agent
  ∧ JoinRoom roomID agent' w1 = (Err ("room is not available: " +:+ roomID), w1).
Proof.
  intros Hok w1.
  destruct (JoinRoom_Ok_inv _ _ _ _ Hok) as (Hid & Hst & Hag & Hcu & Hw1).
  pose proof (JoinRoom_success roomID agent room w Hid Hst Hag Hcu) as (_ & Hrm & _ & Hhub).
  cbn zeta in Hrm, Hhub. fold w1 in Hrm, Hhub.
  split; [now rewrite Hrm|]. split; [now rewrite Hrm|].
  rewrite JoinRoom_run, Hhub, Hid. cbn. rewrite Hrm. cbn.
  now rewrite bool_decide_eq_true_2.
Qed.

(** ** Further properties: the REST handlers *)

Lemma notify_run (other : option ptr) (f : Frame) (w : World) :
  snd (notify other f w) =
    set_wire (λ l, l ++ match other with
                        | Some o =>
                          match Connection (client_at o w) with
                          | Some conn => [(conn, f)]
                          | None => []
                          end
                        | None => []
                        end) w.
Proof.
  unfold notify, load_client, conn_Write. destruct other as [o|]; run.
  - destruct (Connection (client_at o w)); cbn; [done|].
    destruct w; unfold set_wire; cbn; now rewrite app_nil_r.
  - destruct w; unfold set_wire; cbn; now rewrite app_nil_r.
Qed.

(** X14: a REST request that is answered with an HTTP error changes
    nothing: no client, room, timer or frame is made or changed by a
    request that is refused. *)
Theorem rest_errors_change_nothing (w : World) (msg : string) (code : nat) :
  (∀ token r, fst (handleSetProfile token r w) = HttpError msg code →
              snd (handleSetProfile token r w) = w)
  ∧ (∀ token roomToken r, fst (handleStartChat token roomToken r w) = HttpError msg code →
                          snd (handleStartChat token roomToken r w) = w)
  ∧ (∀ r, fst (handleJoinRoom r w) = HttpError msg code → snd (handleJoinRoom r w) = w)
  ∧ (∀ r, fst (handleEndChat r w) = HttpError msg code → snd (handleEndChat r w) = w).
Proof.
  split; [|split; [|split]].
  - intros token r. unfold handleSetProfile.
    case_bool_decide; cbn; [|done].
    destruct (Body r) as [[name language]|]; cbn; [|done].
    destruct (bool_decide (name = "") || bool_decide (language = "")); cbn; [done|].
    unfold NewClient, AddClient, load_client. run. done.
  - intros token roomToken r. unfold handleStartChat.
    case_bool_decide; cbn; [|done].
    destruct (Body r) as [[name content]|]; cbn; [|done].
    destruct (bool_decide (name = "") || bool_decide (content = "")); cbn; [done|].
    unfold NewClient, AddClient, CreateRoom, NewRoom, load_client, load_room, store_room.
    run. done.
  - intros r. unfold handleJoinRoom.
    case_bool_decide; cbn; [|done].
    case_bool_decide; cbn; [done|].
    unfold GetClient, load_client. run.
    destruct (Clients (hub w) !! _) as [agent|]; cbn; [|done].
    unfold IsAgentInRoom. cbn.
    match goal with |- context [existsb ?f ?l] => destruct (existsb f l) end; cbn; [done|].
    destruct (Body r) as [[roomID]|]; cbn; [|done].
    rewrite JoinRoom_run.
    destruct (Rooms (hub w) !! roomID) as [room|]; cbn; [|done].
    case_bool_decide; cbn; [done|].
    case_bool_decide; cbn; [done|].
    case_bool_decide; cbn; [done|].
    unfold load_room. run.
    match goal with |- context [notify ?o ?f ?w0] => destruct (notify o f w0) end. done.
  - intros r. unfold handleEndChat.
    case_bool_decide; cbn; [|done].
    case_bool_decide; cbn; [done|].
    unfold GetClient, GetRoom, load_client, load_room. run.
    destruct (Clients (hub w) !! _) as [client|]; cbn; [|done].
    destruct (Body r) as [[roomID]|]; cbn; [|done].
    destruct (Rooms (hub w) !! roomID) as [room|]; cbn; [|done].
    destruct (Customer (room_at room w)) as [cu|]; cbn;
      [case_bool_decide; cbn|]; unfold RemoveRoom, AfterFunc; run;
      match goal with |- context [notify ?o ?f ?w0] => destruct (notify o f w0) end; done.
Qed.

(** X15: a well-formed start-chat request registers the customer, with
    no language yet, and opens a room for it: the room has the id drawn,
    waits with no agent and no timer, holds the first message as its whole
    history, and is listed by [GetWaitingRooms]. *)
Theorem handleStartChat_opens_room
    (token roomToken name content : string) (r : Request StartChatRequest) (w : World) :
  Method r = "POST" →
  Body r = Some (mkStartChatRequest name content) →
  name ≠ "" → content ≠ "" →
  let out := handleStartChat token roomToken r w in
  let customer := length (clients w) in
  let room := length (rooms w) in
  let id := "room_" +:+ roomToken in
  fst out = StartChatResponse token id
  ∧ fst (GetClient token (snd out)) = Some customer
  ∧ client_at customer (snd out) = mkClient token name "" None
  ∧ fst (GetRoom id (snd out)) = Some room
  ∧ room_at room (snd out)
    = mkRoom id (Some customer) None RoomWaiting
             [mkChatMessage "message" id name content ""] None
  ∧ room ∈ fst (GetWaitingRooms (snd out))
  ∧ (∀ p, (p < length (rooms w))%nat → room_at p (snd out) = room_at p w)
  ∧ (∀ p, (p < length (clients w))%nat → client_at p (snd out) = client_at p w).
Proof.
  intros Hm Hb Hn Hc out customer room id.
  assert (out = (StartChatResponse token id,
    set_rooms (alter (with_Messages [mkChatMessage "message" id name content ""]) room)
      (set_hub (with_Rooms <[id := room]>)
        (set_rooms (λ l, l ++ [mkRoom id (Some customer) None RoomWaiting [] None])
          (set_hub (with_Clients <[token := customer]>)
            (set_clients (λ l, l ++ [mkClient token name "" None]) w))))))
    as Hout.
  { subst out. unfold handleStartChat. rewrite Hm, Hb.
    rewrite bool_decide_eq_true_2 by done. cbn.
    rewrite !bool_decide_eq_false_2 by done. cbn.
    unfold NewClient, AddClient, CreateRoom, NewRoom, load_client, load_room, store_room,
      client_at, room_at. run.
    rewrite !snoc_lookup_total. now cbn. }
  assert (room_at room out.2
          = mkRoom id (Some customer) None RoomWaiting
                   [mkChatMessage "message" id name content ""] None) as Hroom.
  { rewrite Hout. unfold room_at. cbn. rewrite list_lookup_total_alt.
    rewrite list_lookup_alter_eq. subst room.
    rewrite lookup_app_r by lia. now rewrite Nat.sub_diag. }
  split; [now rewrite Hout|].
  split; [rewrite Hout; unfold GetClient; run; now rewrite lookup_insert_eq|].
  split; [rewrite Hout; unfold client_at; cbn; apply snoc_lookup_total|].
  split; [rewrite Hout; unfold GetRoom; run; now rewrite lookup_insert_eq|].
  split; [exact Hroom|].
  split.
  { apply elem_of_GetWaitingRooms. exists id. rewrite Hroom. split; [|done].
    rewrite Hout. cbn. now rewrite lookup_insert_eq. }
  split.
  - intros p Hp. rewrite Hout. unfold room_at. cbn. rewrite !list_lookup_total_alt.
    rewrite list_lookup_alter_ne by (subst room; lia).
    now rewrite lookup_app_l.
  - intros p Hp. rewrite Hout. unfold client_at. cbn. now rewrite lookup_total_app_l.
Qed.

(** X16: an agent that is in no active room joins a waiting room: the
    room becomes active with that agent, the answer names the room, and
    the customer is told on its connection if it has one, and only then. *)
Theorem handleJoinRoom_joins
    (r : Request RoomRequest) (roomID : string) (agent room cu : ptr) (w : World) :
  Method r = "POST" →
  TrimPrefix (Authorization r) "Bearer " ≠ "" →
  Clients (hub w) !! TrimPrefix (Authorization r) "Bearer " = Some agent →
  fst (IsAgentInRoom (Token (client_at agent w)) w) = false →
  Body r = Some (mkRoomRequest roomID) →
  Rooms (hub w) !! roomID = Some room →
  Status (room_at room w) = RoomWaiting →
  Agent (room_at room w) = None →
  Customer (room_at room w) = Some cu →
  let out := handleJoinRoom r w in
  let rm := room_at room w in
  fst out = RoomJoinedResponse "room_joined" (ID rm)
  ∧ room_at room (snd out) = with_Status RoomActive (with_Agent (Some agent) rm)
  ∧ (∀ p, p ≠ room → room_at p (snd out) = room_at p w)
  ∧ wire (snd out) = wire w ++ match Connection (client_at cu w) with
                               | Some conn => [(conn, FRoomJoined "room_joined" (ID rm))]
                               | None => []
                               end
  ∧ hub (snd out) = hub w
  ∧ clients (snd out) = clients w
  ∧ timers (snd out) = timers w.
Proof.
  intros Hm Htok Hag Hbusy Hb Hid Hst Hno Hcu out rm.
  assert (Customer (room_at room w) ≠ None) as Hcu' by (rewrite Hcu; done).
  pose proof (JoinRoom_success roomID (Some agent) room w Hid Hst Hno Hcu')
    as (Hok & Hrm & Hoth & Hhub).
  cbn zeta in Hok, Hrm, Hoth, Hhub.
  pose proof (JoinRoom_Ok_inv _ _ _ _ Hok) as (_ & _ & _ & _ & Hw1).
  subst out. unfold handleJoinRoom. rewrite Hm.
  rewrite bool_decide_eq_true_2 by done. cbn.
  rewrite bool_decide_eq_false_2 by done. cbn.
  unfold GetClient, load_client. run. rewrite Hag. cbn.
  destruct (IsAgentInRoom (Token (client_at agent w)) w) as [busy w0] eqn:Hb0.
  assert (w0 = w) as -> by (unfold IsAgentInRoom in Hb0; now injection Hb0).
  cbn in Hbusy. subst busy. rewrite Hb. cbn.
  destruct (JoinRoom roomID (Some agent) w) as [joined w1] eqn:Hj. cbn in *.
  subst joined. unfold load_room. run.
  rewrite Hrm. cbn. fold rm.
  pose proof (notify_run (Customer rm) (FRoomJoined "room_joined" (ID rm)) w1) as Hn.
  destruct (notify (Customer rm) (FRoomJoined "room_joined" (ID rm)) w1) as [[] w2].
  cbn in Hn |- *. subst w2. cbn.
  split; [done|]. split; [exact Hrm|]. split; [exact Hoth|].
  split; [|rewrite Hw1; done].
  unfold rm. rewrite Hcu. rewrite Hw1 at 1 2. cbn. done.
Qed.

(** X17: the customer ends the chat: the room is closed at once and its id
    is taken out of the hub, the agent, if there is one and it is
    connected, is told "customer_left", and no timer is set, stopped or
    changed. *)
Theorem handleEndChat_customer_left
    (r : Request RoomRequest) (roomID : string) (client room cu : ptr) (w : World) :
  Method r = "POST" →
  TrimPrefix (Authorization r) "Bearer " ≠ "" →
  Clients (hub w) !! TrimPrefix (Authorization r) "Bearer " = Some client →
  Body r = Some (mkRoomRequest roomID) →
  Rooms (hub w) !! roomID = Some room →
  is_Some (rooms w !! room) →
  Customer (room_at room w) = Some cu →
  Token (client_at cu w) = Token (client_at client w) →
  let out := handleEndChat r w in
  let rm := room_at room w in
  fst out = ChatEndedResponse "chat_ended" (ID rm) "customer_left"
  ∧ room_at room (snd out) = with_Status RoomClosed rm
  ∧ (∀ p, p ≠ room → room_at p (snd out) = room_at p w)
  ∧ Rooms (hub (snd out)) = delete (ID rm) (Rooms (hub w))
  ∧ Clients (hub (snd out)) = Clients (hub w)
  ∧ timers (snd out) = timers w
  ∧ clients (snd out) = clients w
  ∧ wire (snd out) = wire w ++ match Agent rm with
                               | Some a =>
                                 match Connection (client_at a w) with
                                 | Some conn =>
                                   [(conn, FChatEnded "chat_ended" (ID rm) "customer_left")]
                                 | None => []
                                 end
                               | None => []
                               end.
Proof.
  intros Hm Htok Hcl Hb Hid Hsome Hcu Hsame out rm. subst out.
  unfold handleEndChat. rewrite Hm.
  rewrite bool_decide_eq_true_2 by done. cbn.
  rewrite bool_decide_eq_false_2 by done. cbn.
  unfold GetClient, GetRoom, load_client, load_room. run.
  rewrite Hcl. cbn. rewrite Hb. cbn. rewrite Hid. cbn. rewrite Hcu. cbn.
  rewrite bool_decide_eq_true_2 by done. cbn.
  unfold store_room, RemoveRoom. run. fold rm.
  match goal with |- context [notify ?o ?f ?w0] =>
    pose proof (notify_run o f w0) as Hn; destruct (notify o f w0) as [[] w2] end.
  cbn in Hn |- *. subst w2. cbn.
  split; [done|].
  split; [apply (room_at_alter_eq _ room w Hsome)|].
  split.
  { intros p Hp. pose proof (room_at_alter (with_Status RoomClosed) room p w) as Hra.
    rewrite bool_decide_eq_false_2 in Hra by (intros [? _]; done).
    unfold room_at in *. cbn in *. exact Hra. }
  done.
Qed.

(** ** Further properties: the websocket handler *)

Lemma Translate_frame (txt from to : string) (w : World) :
  let w' := snd (Translate txt from to w) in
  hub w' = hub w ∧ rooms w' = rooms w ∧ timers w' = timers w ∧ wire w' = wire w
  ∧ accepted w' = accepted w ∧ limiter w' = limiter w ∧ clients w' = clients w.
Proof.
  intros w'. subst w'.
  destruct (Translate_cases txt from to w) as [(_ & e & _ & ->)|[_ ->]]; [done|].
  now destruct (generate _ _).
Qed.

Lemma prepareMessage_frame (room sender recipient : ptr) (content : string) (w : World) :
  let w' := snd (prepareMessage room sender recipient content w) in
  hub w' = hub w ∧ rooms w' = rooms w ∧ timers w' = timers w ∧ wire w' = wire w
  ∧ accepted w' = accepted w ∧ limiter w' = limiter w.
Proof.
  intros w'. subst w'. unfold prepareMessage, load_room, load_client. run.
  rewrite detectCustomerLanguage_run.
  destruct (needsDetection room sender w); cbn;
    [destruct (generate _ _) as [lang|]; cbn; [|done]|].
  all: match goal with
       | |- context [languagesDiffer ?a ?b ?w0] => destruct (languagesDiffer a b w0)
       end; cbn; [|done].
  all: match goal with
       | |- context [Translate ?a ?b ?c ?w0] =>
         pose proof (Translate_frame a b c w0) as Hf;
         destruct (Translate a b c w0) as [[tr|] w2]
       end; cbn in *; [case_bool_decide; cbn|]; tauto.
Qed.

Lemma prepareMessage_envelope (room sender recipient : ptr) (content : string) (w : World) :
  let m := fst (prepareMessage room sender recipient content w) in
  Type_ m = "message" ∧ RoomID m = ID (room_at room w)
  ∧ From_ m = Name (client_at sender w)
  ∧ (Some recipient ≠ Customer (room_at room w) → Content m = content).
Proof.
  intros m. subst m. rewrite prepareMessage_run. cbn zeta.
  destruct (translationOf room sender recipient content w); [|done].
  case_bool_decide; done.
Qed.

Lemma replay_frame (room customer client : ptr) (conn : Conn) (msgs : list ChatMessage)
    (w : World) :
  let w' := snd (replay room customer client conn msgs w) in
  hub w' = hub w ∧ rooms w' = rooms w ∧ timers w' = timers w
  ∧ accepted w' = accepted w ∧ limiter w' = limiter w
  ∧ length (clients w') = length (clients w)
  ∧ ∀ p, Token (client_at p w') = Token (client_at p w)
         ∧ Name (client_at p w') = Name (client_at p w)
         ∧ Connection (client_at p w') = Connection (client_at p w).
Proof.
  revert w. induction msgs as [|msg msgs IH]; intros w; [done|].
  unfold replay; fold replay. unfold conn_Write. run.
  pose proof (prepareMessage_frame room customer client (Content msg) w)
    as (Hh & Hr & Ht & _ & Ha & Hl).
  pose proof (prepareMessage_client_at room customer client (Content msg) w) as [Hlen Hc].
  destruct (prepareMessage room customer client (Content msg) w) as [m w1]. cbn in *.
  specialize (IH (set_wire (λ l, l ++ [(conn, FChatMessage m)]) w1)).
  cbn zeta in IH. destruct IH as (IHh & IHr & IHt & IHa & IHl & IHlen & IHc).
  cbn in IHh, IHr, IHt, IHa, IHl, IHlen.
  split; [congruence|]. split; [congruence|]. split; [congruence|].
  split; [congruence|]. split; [congruence|]. split; [congruence|].
  intros p. destruct (IHc p) as (-> & -> & ->).
  change (client_at p (set_wire (λ l, l ++ [(conn, FChatMessage m)]) w1))
    with (client_at p w1).
  destruct (Hc p) as [->|(_ & _ & lang & _ & ->)]; done.
Qed.

(** X18: the connection request: a request that is refused, or whose
    upgrade fails, changes nothing; a request that is served belongs to a
    registered client that holds the customer's or the agent's token of
    the room found under the id, gets the next connection number, marks
    the client as connected, and sends to the agent if the client has the
    customer's token and to the customer otherwise. *)
Theorem wsConnect_outcomes (token roomID : string) (acceptOk : bool) (w : World) :
  let out := wsConnect token roomID acceptOk w in
  (∀ resp, fst out = Refused resp → snd out = w)
  ∧ (fst out = AcceptFailed → snd out = w)
  ∧ (∀ s, fst out = Serving s →
       let rm := room_at (ses_room s) w in
       acceptOk = true
       ∧ Clients (hub w) !! token = Some (ses_client s)
       ∧ Rooms (hub w) !! roomID = Some (ses_room s)
       ∧ (∃ p, (Customer rm = Some p ∨ Agent rm = Some p) ∧ Token (client_at p w) = token)
       ∧ ses_conn s = accepted w
       ∧ accepted (snd out) = S (accepted w)
       ∧ (is_Some (clients w !! ses_client s) →
          Connection (client_at (ses_client s) (snd out)) = Some (accepted w))
       ∧ (∃ cu, Customer rm = Some cu
            ∧ ses_recipient s =
              if bool_decide (Token (client_at cu w) = Token (client_at (ses_client s) w))
              then Agent rm else Some cu)).
Proof.
  intros out. subst out. unfold wsConnect.
  case_bool_decide as Htok; cbn; [by repeat split|].
  case_bool_decide as Hrid; cbn; [by repeat split|].
  unfold GetClient, GetRoom, load_room, load_client. run.
  destruct (Clients (hub w) !! token) as [client|] eqn:Hcl; cbn; [|by repeat split].
  destruct (Rooms (hub w) !! roomID) as [room|] eqn:Hroom; cbn; [|by repeat split].
  match goal with |- context [if ?b then _ else _] => destruct b eqn:Hmem end; cbn;
    [by repeat split|].
  destruct acceptOk; cbn; [|by repeat split].
  set (w1 := set_clients (alter (with_Connection (Some (accepted w))) client)
               (set_accepted S w)).
  assert (∀ p, Token (client_at p w1) = Token (client_at p w)) as Htk.
  { intros p. apply client_at_token. unfold tokens. subst w1. cbn.
    now apply tokens_alter. }
  assert (∃ p, (Customer (room_at room w) = Some p ∨ Agent (room_at room w) = Some p)
               ∧ Token (client_at p w) = token) as Hmember'.
  { apply andb_false_iff in Hmem as [Hm|Hm]; apply negb_false_iff in Hm.
    - destruct (Customer (room_at room w)) as [p|]; [|done].
      apply bool_decide_eq_true in Hm. eauto.
    - destruct (Agent (room_at room w)) as [p|]; [|done].
      apply bool_decide_eq_true in Hm. eauto. }
  destruct (Customer (room_at room w)) as [cu|] eqn:Hcu; cbn.
  - fold w1.
    assert (∃ p, (Customer (room_at room w) = Some p ∨ Agent (room_at room w) = Some p)
                 ∧ Token (client_at p w) = token) as Hmember
      by (rewrite Hcu; exact Hmember').
    assert (is_Some (clients w !! client) →
            Connection (client_at client w1) = Some (accepted w)) as Hconn.
    { intros Hv. subst w1.
      pose proof (client_at_alter (with_Connection (Some (accepted w))) client client
                    (set_accepted S w)) as Ha.
      rewrite bool_decide_eq_true_2 in Ha by done.
      unfold client_at in *. cbn in *. now rewrite Ha. }
    destruct (bool_decide (Some client = Agent (room_at room w))) eqn:Hag; cbn.
    + pose proof (replay_frame room cu client (accepted w) (Messages (room_at room w)) w1)
        as (_ & _ & _ & Hacc & _ & _ & Hsame).
      destruct (replay room cu client (accepted w) (Messages (room_at room w)) w1)
        as [[] w2].
      cbn [fst snd] in *. split; [done|]. split; [done|]. intros s [= <-].
      cbn [ses_room ses_client ses_conn ses_recipient].
      rewrite !Htk.
      split; [done|]. split; [done|]. split; [done|]. split; [exact Hmember|].
      split; [done|]. split; [exact Hacc|]. split.
      * intros Hv. destruct (Hsame client) as (_ & _ & ->). auto.
      * exists cu. rewrite Hcu. done.
    + cbn [fst snd]. split; [done|]. split; [done|]. intros s [= <-].
      cbn [ses_room ses_client ses_conn ses_recipient].
      rewrite !Htk.
      split; [done|]. split; [done|]. split; [done|]. split; [exact Hmember|].
      split; [done|]. split; [done|]. split; [exact Hconn|].
      exists cu. rewrite Hcu. done.
  - split; [done|]. split; [done|]. intros s. unfold wsDeferred, store_client. run. done.
Qed.

(** X19: the history sent to an agent that connects: one frame per stored
    message, in order, all on the agent's connection; every frame names
    the room and gives the customer's name as the sender, whoever wrote
    the stored message, and carries the stored content when the agent is
    not the room's customer itself. *)
Theorem replay_frames (room customer client : ptr) (conn : Conn) (msgs : list ChatMessage)
    (w : World) :
  ∃ out : list ChatMessage,
    wire (snd (replay room customer client conn msgs w))
      = wire w ++ ((λ m, (conn, FChatMessage m)) <$> out)
    ∧ length out = length msgs
    ∧ Forall (λ m, Type_ m = "message" ∧ RoomID m = ID (room_at room w)
                   ∧ From_ m = Name (client_at customer w)) out
    ∧ (Some client ≠ Customer (room_at room w) → Content <$> out = Content <$> msgs).
Proof.
  revert w. induction msgs as [|msg msgs IH]; intros w.
  - exists []. cbn. rewrite app_nil_r. done.
  - unfold replay; fold replay. unfold conn_Write. run.
    pose proof (prepareMessage_frame room customer client (Content msg) w)
      as (_ & Hr & _ & Hw & _).
    pose proof (prepareMessage_client_at room customer client (Content msg) w) as [_ Hc].
    pose proof (prepareMessage_envelope room customer client (Content msg) w)
      as (Hty & Hid & Hfrom & Hcontent).
    destruct (prepareMessage room customer client (Content msg) w) as [m w1]. cbn in *.
    destruct (IH (set_wire (λ l, l ++ [(conn, FChatMessage m)]) w1))
      as (out & Hwire & Hlen & Hall & Hcont).
    assert (room_at room (set_wire (λ l, l ++ [(conn, FChatMessage m)]) w1)
            = room_at room w) as Hroom by (unfold room_at; cbn; now rewrite Hr).
    assert (Name (client_at customer (set_wire (λ l, l ++ [(conn, FChatMessage m)]) w1))
            = Name (client_at customer w)) as Hname.
    { change (client_at customer (set_wire (λ l, l ++ [(conn, FChatMessage m)]) w1))
        with (client_at customer w1).
      destruct (Hc customer) as [->|(_ & _ & lang & _ & ->)]; done. }
    rewrite Hroom, Hname in *.
    exists (m :: out). split; [|split; [|split]].
    + rewrite Hwire. cbn. rewrite Hw, <- app_assoc. done.
    + cbn. now rewrite Hlen.
    + constructor; [done|exact Hall].
    + intros Hne. cbn. rewrite Hcontent, Hcont by done. done.
Qed.

Lemma wsRecord_run (s : Session) (content : string) (w : World) :
  let tok := Token (client_at (ses_client s) w) in
  let w1 := snd (Allow tok w) in
  let rm := room_at (ses_room s) w in
  let msg := mkChatMessage "message" (ID rm) (Name (client_at (ses_client s) w)) content "" in
  let w2 := set_rooms (alter (with_Messages (Messages rm ++ [msg])) (ses_room s)) w1 in
  wsRecord s content w =
    if fst (Allow tok w) then
      if bool_decide (Status rm = RoomClosed)
      then (Some Break,
            set_wire (λ l, l ++ [(ses_conn s, FError "error" "room is closed")]) w2)
      else (None, w2)
    else (Some Continue,
          set_wire (λ l, l ++ [(ses_conn s, FError "error" "rate limit exceeded")]) w1).
Proof.
  intros tok w1 rm msg w2. subst tok w1 rm msg w2.
  unfold wsRecord, load_client, load_room, store_room, conn_Write. run.
  pose proof (Allow_frame (Token (client_at (ses_client s) w)) w)
    as (_ & _ & _ & Hr & _).
  destruct (Allow (Token (client_at (ses_client s) w)) w) as [allowed w1]. cbn in *.
  destruct allowed; cbn; [|done].
  assert (room_at (ses_room s) w1 = room_at (ses_room s) w) as ->
    by (unfold room_at; now rewrite Hr).
  match goal with |- context [bool_decide (Status (room_at ?p ?w0) = RoomClosed)] =>
    assert (Status (room_at p w0) = Status (room_at (ses_room s) w)) as -> end.
  { rewrite room_at_alter. case_bool_decide; [cbn|];
      unfold room_at; now rewrite Hr. }
  now case_bool_decide.
Qed.

Lemma reopenRoom_frame (room client : ptr) (w : World) :
  let w' := snd (run_thread (reopenRoom room client) w) in
  hub w' = hub w ∧ clients w' = clients w ∧ wire w' = wire w
  ∧ requests w' = requests w ∧ translator w' = translator w
  ∧ limiter w' = limiter w ∧ accepted w' = accepted w ∧ ticks w' = ticks w
  ∧ ∀ p, Messages (room_at p w') = Messages (room_at p w)
         ∧ ID (room_at p w') = ID (room_at p w)
         ∧ Customer (room_at p w') = Customer (room_at p w)
         ∧ Agent (room_at p w') = Agent (room_at p w).
Proof.
  intros w'. subst w'. rewrite reopenRoom_run.
  destruct (reopenCond room client w); [|done].
  destruct (CloseTimer (room_at room w)) as [t|].
  - assert (snd (Timer_Stop t w) = w
            ∨ snd (Timer_Stop t w) = set_timers (alter (with_tm_state Stopped) t) w) as Hs.
    { unfold Timer_Stop, store_timer. run. case_bool_decide; cbn; auto. }
    assert (∀ p w0, rooms w0 = rooms w →
              Messages (room_at p (set_rooms (alter (with_Status RoomWaiting) room)
                          (set_rooms (alter (with_CloseTimer None) room) w0)))
                = Messages (room_at p w)
              ∧ ID (room_at p (set_rooms (alter (with_Status RoomWaiting) room)
                          (set_rooms (alter (with_CloseTimer None) room) w0)))
                = ID (room_at p w)
              ∧ Customer (room_at p (set_rooms (alter (with_Status RoomWaiting) room)
                          (set_rooms (alter (with_CloseTimer None) room) w0)))
                = Customer (room_at p w)
              ∧ Agent (room_at p (set_rooms (alter (with_Status RoomWaiting) room)
                          (set_rooms (alter (with_CloseTimer None) room) w0)))
                = Agent (room_at p w)) as Hrooms.
    { intros p w0 Hw0. rewrite !room_at_alter.
      assert (room_at p w0 = room_at p w) as -> by (unfold room_at; now rewrite Hw0).
      repeat case_bool_decide; done. }
    destruct Hs as [-> | ->]; cbn; repeat split; try done; apply Hrooms; done.
  - repeat split; try done; rewrite room_at_alter; case_bool_decide; done.
Qed.

Lemma wsDeliver_offline (s : Session) (content : string) (w : World) :
  (∀ rc, ses_recipient s = Some rc → Connection (client_at rc w) = None) →
  wsDeliver s content w = (Continue, w).
Proof.
  intros Hoff. unfold wsDeliver, load_client. run.
  destruct (ses_recipient s) as [rc|]; cbn; [|done].
  now rewrite (Hoff rc eq_refl).
Qed.

(** X20: a message for a room that is closed: the sender is told "room is
    closed" and its read loop ends, which marks the client as not
    connected; nothing is delivered or translated, and yet the message is
    appended to the room's history. *)
Theorem wsTurn_closed_room (s : Session) (content : string) (w : World) :
  fst (Allow (Token (client_at (ses_client s) w)) w) = true →
  Status (room_at (ses_room s) w) = RoomClosed →
  let out := wsTurn s (Payload content) w in
  let rm := room_at (ses_room s) w in
  fst out = Break
  ∧ wire (snd out) = wire w ++ [(ses_conn s, FError "error" "room is closed")]
  ∧ room_at (ses_room s) (snd out)
    = with_Messages
        (Messages rm ++
         [mkChatMessage "message" (ID rm) (Name (client_at (ses_client s) w)) content ""])
        rm
  ∧ clients (snd out) = alter (with_Connection None) (ses_client s) (clients w)
  ∧ hub (snd out) = hub w
  ∧ timers (snd out) = timers w
  ∧ requests (snd out) = requests w
  ∧ translator (snd out) = translator w.
Proof.
  intros Hallow Hclosed out rm. subst out.
  unfold wsTurn, wsIteration, wsDeferred, store_client. run.
  rewrite wsRecord_run. cbn zeta. rewrite Hallow, Hclosed.
  rewrite bool_decide_eq_true_2 by done. cbn.
  pose proof (Allow_frame (Token (client_at (ses_client s) w)) w)
    as (Hh & Htr & Hc & Hr & Ht & Hw & _ & Hq).
  cbn zeta in *.
  destruct (Allow (Token (client_at (ses_client s) w)) w) as [allowed w1]. cbn in *.
  split; [done|]. split; [now rewrite Hw|]. split; [|repeat split; congruence].
  assert (is_Some (rooms w !! ses_room s)) as Hsome.
  { unfold room_at in Hclosed. rewrite list_lookup_total_alt in Hclosed.
    destruct (rooms w !! ses_room s); [eauto|discriminate]. }
  subst rm. unfold room_at. cbn. rewrite Hr, !list_lookup_total_alt.
  destruct Hsome as [rm0 Hrm0]. now rewrite list_lookup_alter_eq, Hrm0.
Qed.

Lemma reopenCond_recorded (room client : ptr) (w w1 : World) (f : Room → Room) :
  clients w1 = clients w → rooms w1 = rooms w →
  (∀ x, Status (f x) = Status x ∧ Customer (f x) = Customer x) →
  reopenCond room client (set_rooms (alter f room) w1) = reopenCond room client w.
Proof.
  intros Hc Hr Hf. unfold reopenCond.
  assert (∀ p, client_at p (set_rooms (alter f room) w1) = client_at p w) as Hcl
    by (intros p; unfold client_at; cbn; now rewrite Hc).
  assert (Status (room_at room (set_rooms (alter f room) w1)) = Status (room_at room w)
          ∧ Customer (room_at room (set_rooms (alter f room) w1))
            = Customer (room_at room w)) as [-> ->].
  { rewrite room_at_alter.
    assert (room_at room w1 = room_at room w) as -> by (unfold room_at; now rewrite Hr).
    case_bool_decide; [apply Hf | done]. }
  destruct (Customer (room_at room w)); [|done]. now rewrite !Hcl.
Qed.

(** X21: a message whose recipient is not connected, or for a room with
    no recipient.  The turn ends in the state that [Allow] left, with the
    message appended to the room's history and the reopening block run;
    when the room is not a closing room of the sender, the block does
    nothing and that state is exact; when it is, the room is waiting with
    no timer recorded.  Either way no frame is written, the translator is
    not asked, no client, connection or hub entry changes, and the loop
    goes on. *)
Theorem wsTurn_recipient_offline (s : Session) (content : string) (w : World) :
  fst (Allow (Token (client_at (ses_client s) w)) w) = true →
  is_Some (rooms w !! ses_room s) →
  Status (room_at (ses_room s) w) ≠ RoomClosed →
  (∀ rc, ses_recipient s = Some rc → Connection (client_at rc w) = None) →
  let rm := room_at (ses_room s) w in
  let msg := mkChatMessage "message" (ID rm) (Name (client_at (ses_client s) w))
               content "" in
  let recorded := set_rooms (alter (with_Messages (Messages rm ++ [msg])) (ses_room s))
                    (snd (Allow (Token (client_at (ses_client s) w)) w)) in
  let out := wsTurn s (Payload content) w in
  out = (Continue, snd (run_thread (reopenRoom (ses_room s) (ses_client s)) recorded))
  ∧ (reopenCond (ses_room s) (ses_client s) w = false → snd out = recorded)
  ∧ (reopenCond (ses_room s) (ses_client s) w = true →
     Status (room_at (ses_room s) (snd out)) = RoomWaiting
     ∧ CloseTimer (room_at (ses_room s) (snd out)) = None
     ∧ ∀ t, timers w !! t = timers (snd out) !! t
            ∨ (CloseTimer rm = Some t
               ∧ timers (snd out) !! t = with_tm_state Stopped <$> timers w !! t))
  ∧ Messages (room_at (ses_room s) (snd out)) = Messages rm ++ [msg]
  ∧ wire (snd out) = wire w
  ∧ requests (snd out) = requests w
  ∧ translator (snd out) = translator w
  ∧ clients (snd out) = clients w
  ∧ hub (snd out) = hub w
  ∧ accepted (snd out) = accepted w.
Proof.
  intros Hallow Hsome Hopen Hoff rm msg recorded out.
  pose proof (Allow_frame (Token (client_at (ses_client s) w)) w)
    as (Hh & Htr & Hc & Hr & Ht & Hw & Hacc & Hq).
  cbn zeta in Hh, Htr, Hc, Hr, Ht, Hw, Hacc, Hq.
  destruct Hsome as [rm0 Hrm0].
  assert (rm = rm0) as Hrm
    by (subst rm; unfold room_at; now rewrite list_lookup_total_alt, Hrm0).
  (* what the recorded state is made of *)
  assert (hub recorded = hub w ∧ translator recorded = translator w
          ∧ clients recorded = clients w ∧ timers recorded = timers w
          ∧ wire recorded = wire w ∧ accepted recorded = accepted w
          ∧ requests recorded = requests w) as (Fh & Ftr & Fc & Ft & Fw & Fa & Fq)
    by (subst recorded; cbn; auto 10).
  assert (room_at (ses_room s) recorded = with_Messages (Messages rm ++ [msg]) rm) as Hrec.
  { subst recorded. unfold room_at. cbn.
    rewrite Hr, list_lookup_total_alt, list_lookup_alter_eq, Hrm0. cbn. now rewrite Hrm. }
  assert (is_Some (rooms recorded !! ses_room s)) as Hvalid.
  { subst recorded. cbn. apply alter_is_Some. rewrite Hr. eauto. }
  assert (reopenCond (ses_room s) (ses_client s) recorded
          = reopenCond (ses_room s) (ses_client s) w) as Hcond
    by (apply reopenCond_recorded; done).
  assert (out = (Continue,
                 snd (run_thread (reopenRoom (ses_room s) (ses_client s)) recorded)))
    as Hout.
  { pose proof (reopenRoom_frame (ses_room s) (ses_client s) recorded)
      as (_ & Rc & _).
    subst out. unfold wsTurn, wsIteration. run.
    rewrite wsRecord_run. cbn zeta. rewrite Hallow.
    rewrite bool_decide_eq_false_2 by done. cbn. fold rm. fold msg. fold recorded.
    destruct (run_thread (reopenRoom (ses_room s) (ses_client s)) recorded) as [[] w3].
    cbn in *. rewrite wsDeliver_offline; [done|].
    intros rc Hrc. unfold client_at. rewrite Rc, Fc. now apply Hoff. }
  clearbody recorded out. subst out. cbn [fst snd].
  pose proof (reopenRoom_frame (ses_room s) (ses_client s) recorded)
    as (Rh & Rc & Rw & Rq & Rt & _ & Ra & _ & Rm).
  cbn zeta in Rh, Rc, Rw, Rq, Rt, Ra, Rm.
  pose proof (reopenRoom_run (ses_room s) (ses_client s) recorded) as Hrun.
  rewrite Hcond in Hrun.
  split; [done|]. split; [intros Hf; now rewrite Hf in Hrun|].
  split.
  { intros Htrue. rewrite Htrue, Hrec in Hrun. cbn [CloseTimer with_Messages] in Hrun.
    rewrite Hrun.
    destruct (CloseTimer rm) as [t|] eqn:Htimer.
    - assert (rooms (snd (Timer_Stop t recorded)) = rooms recorded) as Hsr
        by apply Timer_Stop_rooms.
      rewrite room_at_alter_eq by (apply alter_is_Some; rewrite Hsr; exact Hvalid).
      rewrite room_at_alter_eq by (rewrite Hsr; exact Hvalid).
      split; [done|]. split; [done|].
      intros t'.
      change (timers (set_rooms (alter (with_Status RoomWaiting) (ses_room s))
                        (set_rooms (alter (with_CloseTimer None) (ses_room s))
                           (snd (Timer_Stop t recorded)))))
        with (timers (snd (Timer_Stop t recorded))).
      unfold Timer_Stop, store_timer. run. case_bool_decide; cbn.
      + destruct (decide (t' = t)) as [->|Hne].
        * right. split; [done|]. now rewrite Ft, list_lookup_alter_eq.
        * left. now rewrite Ft, list_lookup_alter_ne.
      + left. now rewrite Ft.
    - rewrite room_at_alter_eq by exact Hvalid.
      split; [done|]. split; [rewrite Hrec; exact Htimer|].
      intros t'. left.
      change (timers (set_rooms (alter (with_Status RoomWaiting) (ses_room s)) recorded))
        with (timers recorded).
      now rewrite Ft. }
  destruct (Rm (ses_room s)) as (-> & _).
  rewrite Hrec, Rh, Rc, Rw, Rq, Rt, Ra, Fh, Fc, Fw, Fq, Ftr, Fa.
  repeat split; done.
Qed.

(** X22: only the customer reopens a closing room: a message of anyone
    who does not hold the customer's token leaves the room closing, with
    its close timer set and still scheduled as before. *)
Theorem closing_room_stays_closing (s : Session) (content : string) (w : World) :
  fst (Allow (Token (client_at (ses_client s) w)) w) = true →
  Status (room_at (ses_room s) w) = RoomClosing →
  (∀ cu, Customer (room_at (ses_room s) w) = Some cu →
         Token (client_at cu w) ≠ Token (client_at (ses_client s) w)) →
  let out := wsTurn s (Payload content) w in
  fst out = Continue
  ∧ Status (room_at (ses_room s) (snd out)) = RoomClosing
  ∧ CloseTimer (room_at (ses_room s) (snd out)) = CloseTimer (room_at (ses_room s) w)
  ∧ timers (snd out) = timers w
  ∧ hub (snd out) = hub w.
Proof.
  intros Hallow Hclosing Hother out. subst out.
  unfold wsTurn, wsIteration. run.
  rewrite wsRecord_run. cbn zeta. rewrite Hallow, Hclosing.
  rewrite bool_decide_eq_false_2 by done. cbn.
  pose proof (Allow_frame (Token (client_at (ses_client s) w)) w)
    as (Hh & Htr & Hc & Hr & Ht & Hw & _ & Hq).
  cbn zeta in *.
  destruct (Allow (Token (client_at (ses_client s) w)) w) as [allowed w1]. cbn in *.
  set (w2 := set_rooms _ w1).
  assert (is_Some (rooms w !! ses_room s)) as [rm0 Hrm0].
  { unfold room_at in Hclosing. rewrite list_lookup_total_alt in Hclosing.
    destruct (rooms w !! ses_room s); [eauto|discriminate]. }
  assert (room_at (ses_room s) w = rm0) as Hrm
    by (unfold room_at; now rewrite list_lookup_total_alt, Hrm0).
  assert (room_at (ses_room s) w2
          = with_Messages (Messages rm0 ++
              [mkChatMessage "message" (ID rm0) (Name (client_at (ses_client s) w))
                 content ""]) rm0) as Hrm2.
  { subst w2. unfold room_at in *. cbn. rewrite Hr, !list_lookup_total_alt.
    now rewrite list_lookup_alter_eq, Hrm0. }
  assert (reopenCond (ses_room s) (ses_client s) w2 = false) as Hcond.
  { unfold reopenCond. rewrite Hrm2. cbn. rewrite <- Hrm, Hclosing.
    rewrite bool_decide_eq_true_2 by done. cbn.
    destruct (Customer (room_at (ses_room s) w)) as [cu|] eqn:Hcu; [|done].
    apply bool_decide_eq_false_2.
    assert (∀ p, client_at p w2 = client_at p w) as Hcl
      by (intros p; subst w2; unfold client_at; cbn; now rewrite Hc).
    rewrite !Hcl. now apply Hother. }
  pose proof (reopenRoom_run (ses_room s) (ses_client s) w2) as Hrun.
  rewrite Hcond in Hrun.
  destruct (run_thread (reopenRoom (ses_room s) (ses_client s)) w2) as [[] w3].
  cbn in Hrun |- *. subst w3.
  pose proof (wsDeliver_core s content w2) as Hd.
  assert (fst (wsDeliver s content w2) = Continue) as Hflow.
  { unfold wsDeliver, load_client, conn_Write. run. repeat case_match; done. }
  destruct (wsDeliver s content w2) as [flow w4]. cbn in *. subst flow. cbn.
  split; [done|].
  rewrite (core_room_at _ _ (ses_room s) Hd), Hrm2. cbn.
  rewrite <- Hrm. split; [done|]. split; [done|].
  unfold core in Hd. injection Hd as Hh4 Hr4 Ht4 _.
  subst w2. cbn in *. split; congruence.
Qed.

(** X23: a close timer: one that is not scheduled, or not yet due, does
    nothing when the runtime looks at it; one that is scheduled and due
    expires once: its room is closed and taken out of the hub, whatever
    the room's status was, the customer is told "closed" if it is
    connected, and the timer never fires again. *)
Theorem timerFires_outcomes (t : ptr) (w : World) :
  let tm := timer_at t w in
  let room := tm_room tm in
  let rm := room_at room w in
  let w' := snd (timerFires t w) in
  (tm_state tm ≠ Scheduled ∨ clock (ticks w) < tm_deadline tm → w' = set_ticks S w)
  ∧ (tm_state tm = Scheduled → tm_deadline tm ≤ clock (ticks w) →
     is_Some (rooms w !! room) →
     tm_state (timer_at t w') = Started
     ∧ room_at room w' = with_Status RoomClosed rm
     ∧ Rooms (hub w') = delete (ID rm) (Rooms (hub w))
     ∧ wire w' = wire w ++ match Customer rm with
                           | Some c =>
                             match Connection (client_at c w) with
                             | Some conn => [(conn, FChatEnded "chat_ended" (ID rm) "closed")]
                             | None => []
                             end
                           | None => []
                           end
     ∧ snd (timerFires t w') = set_ticks S w').
Proof.
  intros tm room rm w'. subst w'.
  unfold timerFires, Timer_expire, store_timer. run. fold tm. split.
  - intros Hidle.
    destruct (bool_decide (tm_state tm = Scheduled)
              && bool_decide (tm_deadline tm ≤ clock (ticks w))) eqn:Hdue; [|done].
    apply andb_true_iff in Hdue as [Hs Hd].
    apply bool_decide_eq_true in Hs, Hd. destruct Hidle; [contradiction | lia].
  - intros Hs Hd [rm0 Hrm0].
    rewrite !bool_decide_eq_true_2 by done. cbn.
    assert (timers w !! t = Some tm) as Htm.
    { subst tm. unfold timer_at in *. rewrite list_lookup_total_alt in *.
      destruct (timers w !! t); [done|discriminate]. }
    assert (rm = rm0) as Hrm
      by (subst rm; unfold room_at; now rewrite list_lookup_total_alt, Hrm0).
    fold room.
    match goal with |- context [run_thread (closeFunc room) ?w0] =>
      set (w1 := w0);
      change (run_thread (closeFunc room) w1).2
        with (snd (run_thread (closeFunc room) w1));
      rewrite (closeFunc_run room w1) end.
    assert (room_at room (set_rooms (alter (with_Status RoomClosed) room) w1)
            = with_Status RoomClosed rm) as Hclosed.
    { unfold room_at. cbn. rewrite list_lookup_total_alt, list_lookup_alter_eq, Hrm0.
      cbn. now rewrite Hrm. }
    rewrite Hclosed. cbn.
    set (w2 := set_hub _ _).
    assert (snd (notifyClosed room w2)
            = set_wire (λ l, l ++ match Customer rm with
                                  | Some c =>
                                    match Connection (client_at c w) with
                                    | Some conn =>
                                      [(conn, FChatEnded "chat_ended" (ID rm) "closed")]
                                    | None => []
                                    end
                                  | None => []
                                  end) w2) as Hn.
    { unfold notifyClosed, load_room, load_client, conn_Write. run.
      assert (room_at room w2 = with_Status RoomClosed rm) as -> by exact Hclosed.
      cbn. destruct (Customer rm) as [c|]; cbn.
      - change (client_at c w2) with (client_at c w).
        destruct (Connection (client_at c w)); cbn; [done|].
        unfold set_wire. cbn. now rewrite app_nil_r.
      - unfold set_wire. cbn. now rewrite app_nil_r. }
    rewrite Hn. cbn.
    assert (timer_at t (set_wire (λ l, l ++ match Customer rm with
                                  | Some c =>
                                    match Connection (client_at c w) with
                                    | Some conn =>
                                      [(conn, FChatEnded "chat_ended" (ID rm) "closed")]
                                    | None => []
                                    end
                                  | None => []
                                  end) w2) = with_tm_state Started tm) as Hstarted.
    { unfold timer_at. cbn. now rewrite list_lookup_total_alt, list_lookup_alter_eq, Htm. }
    rewrite Hstarted. cbn.
    split; [done|]. split; [exact Hclosed|]. split; [done|]. split; [done|]. done.
Qed.

Lemma wsIteration_clients_length (s : Session) (inb : Inbound) (w : World) :
  length (clients (snd (wsIteration s inb w))) = length (clients w).
Proof.
  unfold wsIteration. destruct inb as [| |content]; cbn; [done|done|]. run.
  rewrite wsRecord_run. cbn zeta.
  pose proof (Allow_frame (Token (client_at (ses_client s) w)) w)
    as (_ & _ & Hc & _).
  destruct (Allow (Token (client_at (ses_client s) w)) w) as [allowed w1]. cbn in *.
  destruct allowed; cbn; [|congruence].
  case_bool_decide; cbn; [congruence|].
  match goal with |- context [run_thread (reopenRoom ?r ?c) ?w0] =>
    pose proof (reopenRoom_frame r c w0) as (_ & Rc & _);
    destruct (run_thread (reopenRoom r c) w0) as [[] w3] end.
  cbn in *.
  unfold wsDeliver, load_client, conn_Write. run.
  destruct (ses_recipient s) as [rc|]; cbn; [|congruence].
  destruct (Connection (client_at rc w3)); cbn; [|congruence].
  pose proof (prepareMessage_client_at (ses_room s) (ses_client s) rc content w3) as [Hl _].
  destruct (prepareMessage (ses_room s) (ses_client s) rc content w3) as [m w4].
  cbn in *. destruct (Connection (client_at rc w4)); cbn; congruence.
Qed.

Lemma wsDeliver_flow (s : Session) (content : string) (w : World) :
  fst (wsDeliver s content w) = Continue.
Proof. unfold wsDeliver, load_client, conn_Write. run. repeat case_match; done. Qed.

(** X24: the read loop of a connection ends on a read error and on an
    accepted message for a closed room, and on nothing else; when it ends,
    the client is marked as not connected, whichever connection the client
    holds at that time: also one that a later run of the handler has
    stored and still serves. *)
Theorem wsTurn_disconnects (s : Session) (inb : Inbound) (w : World) :
  let out := wsTurn s inb w in
  (fst out = Break ↔
     inb = ReadError
     ∨ ∃ content, inb = Payload content
         ∧ fst (Allow (Token (client_at (ses_client s) w)) w) = true
         ∧ Status (room_at (ses_room s) w) = RoomClosed)
  ∧ (fst out = Break → is_Some (clients w !! ses_client s) →
     Connection (client_at (ses_client s) (snd out)) = None).
Proof.
  intros out. subst out. split.
  - unfold wsTurn, wsIteration, wsDeferred, store_client.
    destruct inb as [| |content]; run.
    + split; [auto|done].
    + split; [done|]. intros [?|(c & ? & _)]; done.
    + rewrite wsRecord_run. cbn zeta.
      destruct (Allow (Token (client_at (ses_client s) w)) w) as [allowed w1]. cbn.
      destruct allowed; cbn.
      * case_bool_decide as Hclosed; cbn.
        -- split; [|done]. intros _. right. eauto.
        -- match goal with |- context [run_thread (reopenRoom ?r ?c) ?w0] =>
             destruct (run_thread (reopenRoom r c) w0) as [[] w3] end.
           cbn. pose proof (wsDeliver_flow s content w3) as Hflow.
           destruct (wsDeliver s content w3) as [flow w4]. cbn in *. subst flow. cbn.
           split; [done|]. intros [?|(c & [= <-] & _ & ?)]; done.
      * split; [done|]. intros [?|(c & _ & ? & _)]; done.
  - unfold wsTurn, wsDeferred, store_client. run.
    pose proof (wsIteration_clients_length s inb w) as Hlen.
    destruct (wsIteration s inb w) as [[|] w1]; cbn in *; [done|].
    intros _ Hv.
    assert (is_Some (clients w1 !! ses_client s)) as [c Hc].
    { apply lookup_lt_is_Some. rewrite Hlen. now apply lookup_lt_is_Some. }
    unfold client_at. cbn. now rewrite list_lookup_total_alt, list_lookup_alter_eq, Hc.
Qed.

(** ** The end-chat request statement by statement *)

(** Run without interruption, the statements of [agentLeaves] are the
    else branch of [handleEndChat]. *)
Lemma handleEndChat_agentLeaves
    (r : Request RoomRequest) (roomID : string) (client room : ptr) (w : World) :
  Method r = "POST" →
  TrimPrefix (Authorization r) "Bearer " ≠ "" →
  Clients (hub w) !! TrimPrefix (Authorization r) "Bearer " = Some client →
  Body r = Some (mkRoomRequest roomID) →
  Rooms (hub w) !! roomID = Some room →
  (∀ cu, Customer (room_at room w) = Some cu →
         Token (client_at cu w) ≠ Token (client_at client w)) →
  snd (handleEndChat r w) = snd (run_thread (agentLeaves room) w).
Proof.
  intros Hm Htok Hcl Hbody Hroom Hother.
  unfold handleEndChat, GetClient, GetRoom, load_room, load_client. run.
  rewrite Hm, Hbody. cbn.
  rewrite bool_decide_true by reflexivity. cbn.
  rewrite bool_decide_false by exact Htok.
  rewrite Hcl. cbn. rewrite Hroom. cbn.
  assert (∀ w0 : World,
            ID (room_at room
                  (set_rooms (alter (with_CloseTimer (Some (length (timers w)))) room)
                     (set_timers (λ l, l ++ [mkTimer (clock (ticks w) + 5 * Minute) room
                                               Scheduled])
                        (set_ticks S
                           (set_rooms (alter (with_Agent None) room)
                              (set_rooms (alter (with_Status RoomClosing) room) w))))))
            = ID (room_at room w)) as Hid.
  { intros _. unfold room_at. cbn. rewrite !list_lookup_total_alt.
    destruct (rooms w !! room) as [rm0|] eqn:Hrm0.
    - now rewrite !list_lookup_alter_eq, Hrm0.
    - repeat rewrite (alter_oob _ room (rooms w)) by exact Hrm0. now rewrite Hrm0. }
  destruct (Customer (room_at room w)) as [cu|] eqn:Hcu; cbn;
    [rewrite bool_decide_false by (now apply Hother); cbn|].
  all: unfold store_room, AfterFunc; run.
  all: rewrite (Hid w).
  all: match goal with |- context [notify ?o ?f ?w0] =>
         destruct (notify o f w0) as [[] w2] end; reflexivity.
Qed.

(** ** Further properties: the life of a room *)

Lemma prefix_client_token (w w' : World) (a : nat) :
  tokens w `prefix_of` tokens w' → is_Some (clients w !! a) →
  Token (client_at a w') = Token (client_at a w).
Proof.
  intros [k Hk] [c Hc].
  assert (tokens w !! a = Some (Token c)) as H1
    by (unfold tokens; now rewrite list_lookup_fmap, Hc).
  assert (tokens w' !! a = Some (Token c)) as H2
    by (rewrite Hk; now apply lookup_app_l_Some).
  unfold tokens in H2. rewrite list_lookup_fmap in H2.
  destruct (clients w' !! a) as [c'|] eqn:E; cbn in H2; [|done].
  unfold client_at. rewrite !list_lookup_total_alt, Hc, E. cbn. congruence.
Qed.

Lemma roomStep_same (w w' : World) : rooms w' = rooms w → roomStep w w' 0.
Proof.
  intros Hr. split; [intros; now rewrite Hr|]. rewrite Hr.
  destruct (rooms w !! 0%nat); [|done]. repeat split; try done.
  now apply life_same.
Qed.

Lemma hubOpen_core (w w' : World) : core w' = core w → hubOpen w → hubOpen w'.
Proof.
  intros Hc Ho id room Hid. rewrite (core_room_at _ _ room Hc).
  unfold core in Hc. injection Hc as Hh _ _ _. rewrite Hh in Hid. eauto.
Qed.

Lemma evolves_core (w w' : World) : core w' = core w → evolves w w'.
Proof.
  intros Hc. pose proof (core_rooms _ _ Hc) as Hr.
  unfold core in Hc. injection Hc as Hh _ _ Ht. split.
  - now rewrite Ht.
  - now rewrite Hh.
  - exists 0%nat. now apply roomStep_same.
Qed.

Lemma step_core (w w' : World) :
  core w' = core w → hubOpen w → evolves w w' ∧ hubOpen w'.
Proof. intros Hc Ho. split; [now apply evolves_core | now apply (hubOpen_core w)]. Qed.

Lemma step_core_r (w w1 w2 : World) :
  core w2 = core w1 → evolves w w1 ∧ hubOpen w1 → evolves w w2 ∧ hubOpen w2.
Proof.
  intros Hc [[Ht Hreg [room [Hoth Hroom]]] Ho]. split; [|now apply (hubOpen_core w1)].
  pose proof (core_rooms _ _ Hc) as Hr.
  unfold core in Hc. injection Hc as Hh _ _ Htk. split.
  - now rewrite Htk.
  - now rewrite Hh.
  - exists room. split; [intros p Hp; rewrite Hr; now apply Hoth | now rewrite Hr].
Qed.

Lemma step_room (w w' : World) (room : nat) (rm rm' : Room) :
  wf w → hubOpen w →
  tokens w' = tokens w →
  Clients (hub w') = Clients (hub w) →
  (∀ id q, Rooms (hub w') !! id = Some q → Rooms (hub w) !! id = Some q) →
  rooms w !! room = Some rm →
  rooms w' !! room = Some rm' →
  (∀ p, p ≠ room → rooms w' !! p = rooms w !! p) →
  ID rm' = ID rm → Customer rm' = Customer rm →
  Messages rm `prefix_of` Messages rm' →
  lifecycle w rm rm' →
  (Status rm' = RoomClosed → Status rm = RoomClosed ∨ Rooms (hub w') !! ID rm = None) →
  evolves w w' ∧ hubOpen w'.
Proof.
  intros Hwf Ho Htk Hcl Hhub Hrm Hrm' Hoth Hid Hcu Hms Hlife Hclosed. split.
  - split; [now rewrite Htk | now rewrite Hcl |].
    exists room. split; [exact Hoth|]. now rewrite Hrm, Hrm'.
  - intros id q Hq. pose proof (Hhub _ _ Hq) as Hq0.
    pose proof (Ho _ _ Hq0) as Hopen.
    destruct (decide (q = room)) as [->|Hne].
    + destruct (wf_room_at w id room Hwf Hq0) as [Hat Hidq].
      rewrite Hrm in Hat. injection Hat as Hat.
      unfold room_at in *. rewrite list_lookup_total_alt, Hrm'. cbn.
      intros Hc. destruct (Hclosed Hc) as [Hc0|Hnone].
      * rewrite <- Hat in Hopen. contradiction.
      * rewrite <- Hat in Hidq. rewrite Hidq, Hq in Hnone. discriminate.
    + unfold room_at in *. rewrite list_lookup_total_alt, (Hoth q Hne).
      now rewrite <- list_lookup_total_alt.
Qed.

Lemma handleSetProfile_step (token : string) (r : Request SetProfileRequest) (w : World) :
  wf w → hubOpen w →
  evolves w (snd (handleSetProfile token r w)) ∧ hubOpen (snd (handleSetProfile token r w)).
Proof.
  intros Hwf Ho. unfold handleSetProfile.
  case_bool_decide; cbn; [|now apply step_core].
  destruct (Body r) as [[name language]|]; cbn; [|now apply step_core].
  destruct (bool_decide (name = "") || bool_decide (language = "")); cbn;
    [now apply step_core|].
  unfold NewClient, AddClient, load_client, client_at. run.
  rewrite snoc_lookup_total. cbn. split.
  - split; cbn.
    + unfold tokens. cbn. rewrite fmap_app. now apply prefix_app_r.
    + intros t Ht. destruct (decide (t = token)) as [->|Hne].
      * rewrite lookup_insert_eq. eauto.
      * now rewrite lookup_insert_ne.
    + exists 0%nat. now apply roomStep_same.
  - intros id q Hq. exact (Ho id q Hq).
Qed.

Lemma handleStartChat_step (token roomToken : string) (r : Request StartChatRequest)
    (w : World) :
  wf w → hubOpen w →
  evolves w (snd (handleStartChat token roomToken r w))
  ∧ hubOpen (snd (handleStartChat token roomToken r w)).
Proof.
  intros Hwf Ho. unfold handleStartChat.
  case_bool_decide; cbn; [|now apply step_core].
  destruct (Body r) as [[name content]|]; cbn; [|now apply step_core].
  destruct (bool_decide (name = "") || bool_decide (content = "")); cbn;
    [now apply step_core|].
  unfold NewClient, AddClient, CreateRoom, NewRoom, load_client, load_room, store_room,
    client_at, room_at. run.
  rewrite !snoc_lookup_total. cbn.
  set (new := mkRoom ("room_" +:+ roomToken) (Some (length (clients w))) None
                     RoomWaiting [] None).
  assert (∀ p, p ≠ length (rooms w) →
            alter (with_Messages [mkChatMessage "message" ("room_" +:+ roomToken) name
                                    content ""]) (length (rooms w)) (rooms w ++ [new]) !! p
            = rooms w !! p) as Hoth.
  { intros p Hp. rewrite list_lookup_alter_ne by done.
    destruct (decide (p < length (rooms w))%nat) as [Hlt|Hge].
    - now rewrite lookup_app_l.
    - rewrite !lookup_ge_None_2; [done|lia|rewrite length_app; cbn; lia]. }
  split.
  - split; cbn.
    + unfold tokens. cbn. rewrite fmap_app. now apply prefix_app_r.
    + intros t Ht. destruct (decide (t = token)) as [->|Hne].
      * rewrite lookup_insert_eq. eauto.
      * now rewrite lookup_insert_ne.
    + exists (length (rooms w)). split; [exact Hoth|]. cbn.
      rewrite (lookup_ge_None_2 (rooms w)) by lia.
      rewrite list_lookup_alter_eq, lookup_app_r by lia.
      rewrite Nat.sub_diag. cbn. eauto.
  - intros id q Hq. cbn in Hq. unfold room_at. cbn. rewrite list_lookup_total_alt.
    destruct (decide (id = "room_" +:+ roomToken)) as [->|Hne].
    + rewrite lookup_insert_eq in Hq. injection Hq as <-.
      rewrite list_lookup_alter_eq, lookup_app_r by lia.
      rewrite Nat.sub_diag. cbn. done.
    + rewrite lookup_insert_ne in Hq by done.
      destruct (wf_room_at w id q Hwf Hq) as [Hat _].
      assert (q ≠ length (rooms w)) as Hq'
        by (apply lookup_lt_Some in Hat; lia).
      rewrite (Hoth q Hq'), <- list_lookup_total_alt. exact (Ho id q Hq).
Qed.

Lemma handleJoinRoom_step (r : Request RoomRequest) (w : World) :
  wf w → hubOpen w →
  evolves w (snd (handleJoinRoom r w)) ∧ hubOpen (snd (handleJoinRoom r w)).
Proof.
  intros Hwf Ho. unfold handleJoinRoom.
  case_bool_decide; cbn; [|now apply step_core].
  case_bool_decide; cbn; [now apply step_core|].
  unfold GetClient, load_client. run.
  destruct (Clients (hub w) !! TrimPrefix (Authorization r) "Bearer ") as [agent|] eqn:Hag;
    cbn; [|now apply step_core].
  destruct (IsAgentInRoom (Token (client_at agent w)) w) as [busy w0] eqn:Hbusy.
  assert (w0 = w) as -> by (unfold IsAgentInRoom in Hbusy; now injection Hbusy).
  assert (fst (IsAgentInRoom (Token (client_at agent w)) w) = busy) as Hb
    by now rewrite Hbusy.
  destruct busy; cbn; [now apply step_core|].
  destruct (Body r) as [[roomID]|]; cbn; [|now apply step_core].
  rewrite JoinRoom_run.
  destruct (Rooms (hub w) !! roomID) as [room|] eqn:Hroom; cbn; [|now apply step_core].
  destruct (wf_room_at w roomID room Hwf Hroom) as [Hrm Hid].
  case_bool_decide as Hst; cbn; [now apply step_core|].
  case_bool_decide as Hno; cbn; [now apply step_core|].
  case_bool_decide; cbn; [now apply step_core|].
  unfold load_room. run.
  match goal with |- context [notify ?o ?f ?w0] =>
    pose proof (notify_core o f w0) as Hn; destruct (notify o f w0) as [[] w2] end.
  cbn in Hn |- *. apply (step_core_r _ _ _ Hn).
  apply (step_room _ _ room (room_at room w)
           (with_Status RoomActive (with_Agent (Some agent) (room_at room w))));
    try done.
  - cbn. now rewrite !list_lookup_alter_eq, Hrm.
  - intros p Hp. cbn. now rewrite !list_lookup_alter_ne.
  - apply (life_joined _ _ _ agent); cbn; try done.
    pose proof (wf_hub_clients _ _ _ _ Hwf _ _ Hag) as Ht.
    unfold tokens in Ht. rewrite list_lookup_fmap in Ht.
    destruct (clients w !! agent); [eauto|done].
Qed.

Lemma handleEndChat_step (r : Request RoomRequest) (w : World) :
  wf w → hubOpen w →
  evolves w (snd (handleEndChat r w)) ∧ hubOpen (snd (handleEndChat r w)).
Proof.
  intros Hwf Ho. unfold handleEndChat.
  case_bool_decide; cbn; [|now apply step_core].
  case_bool_decide; cbn; [now apply step_core|].
  unfold GetClient, GetRoom, load_client, load_room. run.
  destruct (Clients (hub w) !! _) as [client|]; cbn; [|now apply step_core].
  destruct (Body r) as [[roomID]|]; cbn; [|now apply step_core].
  destruct (Rooms (hub w) !! roomID) as [room|] eqn:Hroom; cbn; [|now apply step_core].
  destruct (wf_room_at w roomID room Hwf Hroom) as [Hrm Hid].
  pose proof (Ho _ _ Hroom) as Hopen.
  assert (∀ byCustomer : bool,
    let w' := snd ((let* ended :=
          if byCustomer then
            store_room room (with_Status RoomClosed) ;;
            RemoveRoom (ID (room_at room w)) ;;
            ret ("customer_left", Agent (room_at room w))
          else
            store_room room (with_Status RoomClosing) ;;
            store_room room (with_Agent None) ;;
            let* t := AfterFunc (5 * Minute) room in
            store_room room (with_CloseTimer (Some t)) ;;
            ret ("agent_left", Customer (room_at room w)) in
        notify (snd ended) (FChatEnded "chat_ended" (ID (room_at room w)) (fst ended)) ;;
        ret (ChatEndedResponse "chat_ended" (ID (room_at room w)) (fst ended))) w) in
    evolves w w' ∧ hubOpen w') as Hboth.
  { intros [|]; cbn zeta; unfold store_room, RemoveRoom, AfterFunc; run;
      match goal with |- context [notify ?o ?f ?w0] =>
        pose proof (notify_core o f w0) as Hn; destruct (notify o f w0) as [[] w2] end;
      cbn in Hn |- *; apply (step_core_r _ _ _ Hn).
    - apply (step_room _ _ room (room_at room w)
               (with_Status RoomClosed (room_at room w))); try done.
      + cbn. intros id q Hq. destruct (decide (id = ID (room_at room w))) as [->|Hne].
        * now rewrite lookup_delete_eq in Hq.
        * now rewrite lookup_delete_ne in Hq.
      + cbn. now rewrite list_lookup_alter_eq, Hrm.
      + intros p Hp. cbn. now rewrite list_lookup_alter_ne.
      + now apply life_closed.
      + intros _. right. cbn. now rewrite lookup_delete_eq.
    - apply (step_room _ _ room (room_at room w)
               (with_CloseTimer (Some (length (timers w)))
                  (with_Agent None (with_Status RoomClosing (room_at room w)))));
        try done.
      + cbn. now rewrite !list_lookup_alter_eq, Hrm.
      + intros p Hp. cbn. now rewrite !list_lookup_alter_ne.
      + now apply life_agent_left. }
  destruct (Customer (room_at room w)) as [cu|]; cbn.
  - apply (Hboth (bool_decide (Token (client_at cu w) = Token (client_at client w)))).
  - apply (Hboth false).
Qed.

Lemma wsIteration_step (s : Session) (inb : Inbound) (w : World) :
  wf w → hubOpen w →
  evolves w (snd (wsIteration s inb w)) ∧ hubOpen (snd (wsIteration s inb w)).
Proof.
  intros Hwf Ho. unfold wsIteration.
  destruct inb as [| |content]; cbn; [now apply step_core|now apply step_core|]. run.
  rewrite wsRecord_run. cbn zeta.
  pose proof (Allow_core (Token (client_at (ses_client s) w)) w) as Hcore.
  pose proof (Allow_frame (Token (client_at (ses_client s) w)) w)
    as (Hh & _ & Hc & Hr & Ht & _).
  cbn zeta in Hh, Hc, Hr, Ht.
  destruct (Allow (Token (client_at (ses_client s) w)) w) as [allowed w1]. cbn in *.
  destruct allowed; cbn; [|now apply step_core].
  set (msg := mkChatMessage "message" (ID (room_at (ses_room s) w))
                (Name (client_at (ses_client s) w)) content "").
  set (w2 := set_rooms (alter (with_Messages (Messages (room_at (ses_room s) w) ++ [msg]))
                          (ses_room s)) w1).
  destruct (rooms w !! ses_room s) as [rm|] eqn:Hrm.
  2:{ (* the session's room does not exist: nothing is stored *)
    assert (core w2 = core w) as Hc2.
    { subst w2. unfold core, tokens in *. cbn. rewrite Hr, alter_oob by done.
      congruence. }
    assert (room_at (ses_room s) w = inhabitant) as Hinh
      by (unfold room_at; now rewrite list_lookup_total_alt, Hrm).
    rewrite Hinh. rewrite bool_decide_eq_false_2 by done. cbn.
    assert (reopenCond (ses_room s) (ses_client s) w2 = false) as Hcond.
    { unfold reopenCond. rewrite (core_room_at _ _ _ Hc2), Hinh. done. }
    pose proof (reopenRoom_run (ses_room s) (ses_client s) w2) as Hrun.
    rewrite Hcond in Hrun.
    destruct (run_thread (reopenRoom (ses_room s) (ses_client s)) w2) as [[] w3].
    cbn in Hrun |- *. subst w3.
    apply (step_core_r _ _ _ (wsDeliver_core s content w2)).
    now apply step_core. }
  assert (room_at (ses_room s) w = rm) as Hat
    by (unfold room_at; now rewrite list_lookup_total_alt, Hrm).
  assert (tokens w1 = tokens w) as Htk by (unfold tokens; now rewrite Hc).
  assert (evolves w w2 ∧ hubOpen w2) as Hstep2.
  { apply (step_room _ _ (ses_room s) rm (with_Messages (Messages rm ++ [msg]) rm));
      try done.
    - subst w2. cbn. now rewrite Hh.
    - subst w2. cbn. now rewrite Hh.
    - subst w2. cbn. rewrite Hr, list_lookup_alter_eq, Hrm. cbn. now rewrite Hat.
    - intros p Hp. subst w2. cbn. now rewrite Hr, list_lookup_alter_ne.
    - cbn. now apply prefix_app_r.
    - now apply life_same.
    - cbn. auto. }
  rewrite Hat. case_bool_decide as Hclosed; cbn.
  { apply (step_core_r _ w2); [done | exact Hstep2]. }
  pose proof (reopenRoom_run (ses_room s) (ses_client s) w2) as Hrun.
  destruct (run_thread (reopenRoom (ses_room s) (ses_client s)) w2) as [[] w3].
  cbn in Hrun |- *.
  apply (step_core_r _ _ _ (wsDeliver_core s content w3)).
  destruct (reopenCond (ses_room s) (ses_client s) w2) eqn:Hcond;
    [|subst w3; exact Hstep2].
  assert (room_at (ses_room s) w2 = with_Messages (Messages rm ++ [msg]) rm) as Hat2.
  { subst w2. unfold room_at in *. cbn.
    rewrite Hr, list_lookup_total_alt, list_lookup_alter_eq, Hrm. cbn.
    now rewrite Hat. }
  pose proof (reopenCond_closing _ _ _ Hcond) as Hclosing.
  rewrite Hat2 in Hclosing. cbn in Hclosing.
  pose proof (wf_unoccupied _ _ _ _ Hwf _ _ Hrm (or_intror Hclosing)) as Hnoagent.
  rewrite Hat2 in Hrun. cbn in Hrun.
  assert (∀ w0, tokens w0 = tokens w → hub w0 = hub w →
            rooms w0 = rooms w2 →
            evolves w (set_rooms (alter (with_Status RoomWaiting) (ses_room s))
                         (set_rooms (alter (with_CloseTimer None) (ses_room s)) w0))
            ∧ hubOpen (set_rooms (alter (with_Status RoomWaiting) (ses_room s))
                         (set_rooms (alter (with_CloseTimer None) (ses_room s)) w0)))
    as Hreopen.
  { intros w0 Htk0 Hh0 Hr0.
    apply (step_room _ _ (ses_room s) rm
             (with_Status RoomWaiting
                (with_CloseTimer None (with_Messages (Messages rm ++ [msg]) rm))));
      try done.
    - cbn. now rewrite Hh0.
    - cbn. now rewrite Hh0.
    - cbn. rewrite Hr0. subst w2. cbn.
      rewrite Hr, !list_lookup_alter_eq, Hrm. cbn. now rewrite Hat.
    - intros p Hp. cbn. rewrite Hr0. subst w2. cbn.
      now rewrite Hr, !list_lookup_alter_ne.
    - cbn. now apply prefix_app_r.
    - now apply life_reopened. }
  destruct (CloseTimer rm) as [t|].
  - rewrite Hrun.
    assert (snd (Timer_Stop t w2) = w2
            ∨ snd (Timer_Stop t w2) = set_timers (alter (with_tm_state Stopped) t) w2)
      as [-> | ->].
    { unfold Timer_Stop, store_timer. run. case_bool_decide; cbn; auto. }
    + apply Hreopen; [exact Htk | exact Hh | done].
    + apply Hreopen; [exact Htk | exact Hh | done].
  - rewrite Hrun.
    apply (step_room _ _ (ses_room s) rm
             (with_Status RoomWaiting (with_Messages (Messages rm ++ [msg]) rm)));
      try done.
    + subst w2. cbn. now rewrite Hh.
    + subst w2. cbn. now rewrite Hh.
    + subst w2. cbn. rewrite Hr, !list_lookup_alter_eq, Hrm. cbn. now rewrite Hat.
    + intros p Hp. subst w2. cbn. now rewrite Hr, !list_lookup_alter_ne.
    + cbn. now apply prefix_app_r.
    + now apply life_reopened.
Qed.

Lemma wsTurn_step (s : Session) (inb : Inbound) (w : World) :
  wf w → hubOpen w →
  evolves w (snd (wsTurn s inb w)) ∧ hubOpen (snd (wsTurn s inb w)).
Proof.
  intros Hwf Ho. unfold wsTurn. run.
  pose proof (wsIteration_step s inb w Hwf Ho) as Hi.
  destruct (wsIteration s inb w) as [[|] w1]; cbn in *; [exact Hi|].
  eapply step_core_r; [|exact Hi]. unfold wsDeferred. now apply store_client_core.
Qed.

Lemma timerFires_step (t : ptr) (w : World) :
  wf w → hubOpen w →
  evolves w (snd (timerFires t w)) ∧ hubOpen (snd (timerFires t w)).
Proof.
  intros Hwf Ho. unfold timerFires, Timer_expire, store_timer. run.
  destruct (bool_decide (tm_state (timer_at t w) = Scheduled)
            && bool_decide (tm_deadline (timer_at t w) ≤ clock (ticks w))) eqn:Hdue;
    cbn; [|now apply step_core].
  apply andb_true_iff in Hdue as [Hs _]. apply bool_decide_eq_true in Hs.
  assert (Htm : timers w !! t = Some (timer_at t w)).
  { unfold timer_at in *. rewrite list_lookup_total_alt in *.
    destruct (timers w !! t); [reflexivity|discriminate]. }
  destruct (wf_timer_room _ _ _ _ Hwf _ _ Htm) as [rm Hrm].
  set (room := tm_room (timer_at t w)) in *.
  match goal with |- context [run_thread (closeFunc room) ?w0] =>
    set (w1 := w0);
    change (run_thread (closeFunc room) w1).2
      with (snd (run_thread (closeFunc room) w1));
    rewrite (closeFunc_run room w1) end.
  apply (step_core_r _ _ _ (notifyClosed_core room _)).
  assert (room_at room (set_rooms (alter (with_Status RoomClosed) room) w1)
          = with_Status RoomClosed rm) as Hclosed.
  { unfold room_at. cbn. now rewrite list_lookup_total_alt, list_lookup_alter_eq, Hrm. }
  rewrite Hclosed. cbn.
  apply (step_room _ _ room rm (with_Status RoomClosed rm)); try done.
  - cbn. intros id q Hq. destruct (decide (id = ID rm)) as [->|Hne].
    + now rewrite lookup_delete_eq in Hq.
    + now rewrite lookup_delete_ne in Hq.
  - cbn. now rewrite list_lookup_alter_eq, Hrm.
  - intros p Hp. cbn. now rewrite list_lookup_alter_ne.
  - now apply life_closed.
  - intros _. right. cbn. now rewrite lookup_delete_eq.
Qed.

Lemma handle_step (e : Event) (w : World) :
  wf w → hubOpen w → freshDraw e w →
  evolves w (snd (handle e w)) ∧ hubOpen (snd (handle e w)).
Proof.
  intros Hwf Ho Hfresh. destruct e; cbn in *; run.
  - pose proof (handleSetProfile_step token r w Hwf Ho).
    now destruct (handleSetProfile token r w).
  - pose proof (handleStartChat_step token roomToken r w Hwf Ho).
    now destruct (handleStartChat token roomToken r w).
  - pose proof (handleJoinRoom_step r w Hwf Ho).
    now destruct (handleJoinRoom r w).
  - pose proof (handleEndChat_step r w Hwf Ho).
    now destruct (handleEndChat r w).
  - pose proof (wsConnect_core token roomID acceptOk w) as Hc.
    destruct (wsConnect token roomID acceptOk w). cbn in *. now apply step_core.
  - pose proof (wsTurn_step s inb w Hwf Ho).
    now destruct (wsTurn s inb w).
  - now apply timerFires_step.
Qed.

Lemma reachable_hubOpen (w : World) : reachable w → hubOpen w.
Proof.
  induction 1 as [| w e Hreach IH Hfresh].
  - intros id room Hid. cbn in Hid. now rewrite lookup_empty in Hid.
  - now apply handle_step; [apply reachable_wf| |].
Qed.

Lemma reachable_evolves (e : Event) (w : World) :
  reachable w → freshDraw e w → evolves w (snd (handle e w)).
Proof.
  intros Hreach Hfresh.
  now apply handle_step; [apply reachable_wf|apply reachable_hubOpen|].
Qed.

(** X25: the life of a room.  An event on a reachable state never removes
    a client or changes its token, changes at most one room, never a
    room's id or customer, only extends its history, and moves its status
    and agent along these edges only: waiting to active, when an agent
    that is in no active room joins; any open status to closing, when the
    agent leaves; closing to waiting, when the customer writes; any status
    to closed.  A new room waits, with a customer and no agent. *)
Theorem room_lifecycle (e : Event) (w : World) :
  reachable w → freshDraw e w → evolves w (snd (handle e w)).
Proof. apply reachable_evolves. Qed.

Lemma evolves_lookup (w w' : World) (p : nat) (rm : Room) :
  evolves w w' → rooms w !! p = Some rm →
  ∃ rm', rooms w' !! p = Some rm' ∧ ID rm' = ID rm ∧ Customer rm' = Customer rm
         ∧ Messages rm `prefix_of` Messages rm' ∧ lifecycle w rm rm'.
Proof.
  intros [_ _ [room [Hoth Hm]]] Hrm.
  destruct (decide (p = room)) as [->|Hne].
  - rewrite Hrm in Hm. destruct (rooms w' !! room) as [rm'|]; [|done]. eauto.
  - exists rm. rewrite (Hoth p Hne). repeat split; try done. now apply life_same.
Qed.

Lemma run_events_cons (e : Event) (es : list Event) (w : World) :
  run_events (e :: es) w = run_events es (snd (handle e w)).
Proof. reflexivity. Qed.

Lemma closed_unregistered (w : World) (p : nat) (rm : Room) :
  wf w → hubOpen w → rooms w !! p = Some rm → Status rm = RoomClosed →
  Rooms (hub w) !! ID rm = None.
Proof.
  intros Hwf Ho Hrm Hclosed.
  destruct (Rooms (hub w) !! ID rm) as [q|] eqn:Hq; [|done].
  destruct (wf_hub_rooms _ _ _ _ Hwf _ _ Hq) as (rq & Hrq & Hid).
  pose proof (wf_ids _ _ _ _ Hwf _ _ _ _ Hrq Hrm Hid) as ->.
  pose proof (Ho _ _ Hq) as Hopen. unfold room_at in Hopen.
  rewrite list_lookup_total_alt, Hrm in Hopen. contradiction.
Qed.

(** X26: closed is final.  Once a room is closed, no run of events opens
    it again, changes its id, or makes the hub find it. *)
Theorem closed_is_final (es : list Event) (w : World) (p : ptr) (rm : Room) :
  reachable w → freshAlong es w →
  rooms w !! p = Some rm → Status rm = RoomClosed →
  let w' := run_events es w in
  Status (room_at p w') = RoomClosed
  ∧ ID (room_at p w') = ID rm
  ∧ fst (GetRoom (ID rm) w') = None.
Proof.
  revert w rm. induction es as [|e es IH]; intros w rm Hreach Hfresh Hrm Hclosed.
  - cbn. unfold room_at. rewrite list_lookup_total_alt, Hrm. cbn.
    split; [done|]. split; [done|].
    apply (closed_unregistered w p rm);
      [now apply reachable_wf | now apply reachable_hubOpen | done | done].
  - destruct Hfresh as [Hfresh Halong]. rewrite run_events_cons.
    destruct (evolves_lookup _ _ p rm (reachable_evolves e w Hreach Hfresh) Hrm)
      as (rm' & Hrm' & Hid & _ & _ & Hlife).
    assert (Status rm' = RoomClosed) as Hclosed'
      by (destruct Hlife; congruence).
    rewrite <- Hid.
    apply (IH _ rm'); [now apply reachable_event|done|done|done].
Qed.

Lemma lookup_client_valid (w : World) (room : nat) (rm : Room) (a : nat) :
  wf w → rooms w !! room = Some rm →
  Customer rm = Some a ∨ Agent rm = Some a → is_Some (clients w !! a).
Proof.
  intros Hwf Hrm Hmem.
  destruct (wf_members _ _ _ _ Hwf _ _ _ Hrm Hmem) as (t & Ht & _).
  unfold tokens in Ht. rewrite list_lookup_fmap in Ht.
  destruct (clients w !! a); [eauto|done].
Qed.

Lemma agentsDistinct_step (w w' : World) :
  wf w → agentsDistinct w → evolves w w' → agentsDistinct w'.
Proof.
  intros Hwf Hd [Htk _ [room [Hoth Hm]]].
  assert (∀ q rq b, q ≠ room → rooms w' !! q = Some rq → Agent rq = Some b →
            rooms w !! q = Some rq ∧ Token (client_at b w') = Token (client_at b w))
    as Hold.
  { intros q rq b Hq Hrq Hb. rewrite (Hoth q Hq) in Hrq. split; [done|].
    apply prefix_client_token; [done|].
    apply (lookup_client_valid w q rq b); auto. }
  assert (∀ p q rp rq a b, p = room → q ≠ room →
            rooms w' !! p = Some rp → rooms w' !! q = Some rq →
            Status rp = RoomActive → Status rq = RoomActive →
            Agent rp = Some a → Agent rq = Some b →
            Token (client_at a w') = Token (client_at b w') → False) as Hmixed.
  { intros p q rp rq a b -> Hq Hp Hrq Sp Sq Ap Aq Htok.
    destruct (Hold q rq b Hq Hrq Aq) as [Hrq0 Hb]. rewrite Hb in Htok.
    rewrite Hp in Hm. destruct (rooms w !! room) as [rp0|] eqn:Hrp0.
    - destruct Hm as (_ & _ & _ & Hlife).
      destruct Hlife as [Hs Ha|a0 Hs0 Ha0 Hs Ha Hv Hfree|? Hs ?|? Hs ?|Hs ?];
        try congruence.
      + rewrite Sp in Hs. rewrite Ap in Ha.
        assert (Token (client_at a w') = Token (client_at a w)) as Hta.
        { apply prefix_client_token; [done|].
          apply (lookup_client_valid w room rp0 a); auto. }
        rewrite Hta in Htok.
        apply Hq. symmetry.
        apply (Hd room q rp0 rq a b); auto.
      + rewrite Ap in Ha. injection Ha as <-.
        rewrite (prefix_client_token w w' a Htk Hv) in Htok.
        assert (fst (IsAgentInRoom (Token (client_at a w)) w) = true) as Hbusy.
        { apply IsAgentInRoom_true. exists (ID rq), q, b.
          assert (room_at q w = rq) as Hat
            by (unfold room_at; now rewrite list_lookup_total_alt, Hrq0).
          rewrite Hat. repeat split; try done.
          apply (wf_registered _ _ _ _ Hwf _ _ Hrq0). congruence. }
        congruence.
    - destruct Hm as (Hs & _). congruence. }
  intros p q rp rq a b Hp Hq Sp Sq Ap Aq Htok.
  destruct (decide (p = room)) as [Hpr|Hpr], (decide (q = room)) as [Hqr|Hqr].
  - congruence.
  - exfalso. eapply (Hmixed p q); eauto.
  - exfalso. eapply (Hmixed q p); eauto.
  - destruct (Hold p rp a Hpr Hp Ap) as [Hp0 Ha].
    destruct (Hold q rq b Hqr Hq Aq) as [Hq0 Hb].
    rewrite Ha, Hb in Htok. apply (Hd p q rp rq a b); auto.
Qed.

(** X27: an agent is in one active room at a time: in every reachable
    state no two active rooms have agents with the same token. *)
Theorem agent_in_one_room (w : World) : reachable w → agentsDistinct w.
Proof.
  induction 1 as [| w e Hreach IH Hfresh].
  - intros p q rp rq a b Hp. cbn in Hp. now rewrite lookup_nil in Hp.
  - apply (agentsDistinct_step w); [now apply reachable_wf | done |].
    now apply reachable_evolves.
Qed.

Lemma reachable_roomsHaveCustomers (w : World) : reachable w → roomsHaveCustomers w.
Proof.
  induction 1 as [| w e Hreach IH Hfresh].
  - intros p rm Hp. cbn in Hp. now rewrite lookup_nil in Hp.
  - pose proof (reachable_evolves e w Hreach Hfresh) as [_ _ [room [Hoth Hm]]].
    assert (wf (snd (handle e w))) as Hwf'
      by (apply reachable_wf; now apply reachable_event).
    intros p rm' Hp.
    assert (is_Some (Customer rm')) as [c Hc].
    { destruct (decide (p = room)) as [->|Hne].
      - rewrite Hp in Hm. destruct (rooms w !! room) as [rm|] eqn:Hrm.
        + destruct Hm as (_ & -> & _). destruct (IH _ _ Hrm) as (c & -> & _). eauto.
        + tauto.
      - rewrite (Hoth p Hne) in Hp. destruct (IH _ _ Hp) as (c & -> & _). eauto. }
    exists c. split; [done|].
    apply (lookup_client_valid _ p rm' c); auto.
Qed.

Lemma roomInfos_Forall2 (Q : nat → Prop) (waiting : list nat) (w : World) :
  (∀ room, room ∈ waiting → Q room ∧ is_Some (Customer (room_at room w))) →
  ∃ result, roomInfos waiting w = Some result
    ∧ Forall2 (λ room info,
         Q room ∧ ∃ c, Customer (room_at room w) = Some c
           ∧ info = mkRoomInfo (ID (room_at room w)) (Name (client_at c w))
                               (Language (client_at c w)))
        waiting result.
Proof.
  induction waiting as [|room waiting IH]; intros Hall.
  - exists []. split; [done|constructor].
  - destruct (Hall room) as [HQ [c Hc]]; [left|].
    destruct IH as (result & Hres & Hf2); [intros; apply Hall; now right|].
    cbn. rewrite Hc, Hres. eexists. split; [done|].
    constructor; [|exact Hf2]. split; [done|]. eauto.
Qed.

(** X28: the list of waiting rooms.  In a reachable state a GET request
    is answered, without a nil dereference and without changing anything,
    by one entry per waiting room of the hub, with the id under which the
    hub finds the room and the name and language its customer has at that
    time; any other method is refused. *)
Theorem handleRooms_lists_waiting (r : Request unit) (w : World) :
  reachable w →
  (Method r ≠ "GET" →
   handleRooms r w = (RoomsError "method not allowed" StatusMethodNotAllowed, w))
  ∧ (Method r = "GET" →
     ∃ result, handleRooms r w = (RoomsList result, w)
       ∧ Forall2 (λ room info,
            (Status (room_at room w) = RoomWaiting
             ∧ fst (GetRoom (info_RoomID info) w) = Some room)
            ∧ ∃ c, Customer (room_at room w) = Some c
              ∧ info = mkRoomInfo (ID (room_at room w)) (Name (client_at c w))
                                  (Language (client_at c w)))
           (fst (GetWaitingRooms w)) result).
Proof.
  intros Hreach. pose proof (reachable_wf w Hreach) as Hwf.
  pose proof (reachable_roomsHaveCustomers w Hreach) as Hcu.
  unfold handleRooms. split.
  - intros Hm. now rewrite bool_decide_eq_false_2.
  - intros Hm. rewrite bool_decide_eq_true_2 by done. run.
    destruct (roomInfos_Forall2
                (λ room, Status (room_at room w) = RoomWaiting
                         ∧ Rooms (hub w) !! ID (room_at room w) = Some room)
                (fst (GetWaitingRooms w)) w) as (result & Hres & Hf2).
    { intros room Hin. apply elem_of_GetWaitingRooms in Hin as (id & Hid & Hst).
      destruct (wf_room_at w id room Hwf Hid) as [Hat Hrid].
      destruct (Hcu _ _ Hat) as (c & Hc & _). rewrite Hrid, Hc. eauto. }
    change (filter _ _) with (fst (GetWaitingRooms w)).
    rewrite Hres. exists result. split; [done|].
    eapply Forall2_impl; [exact Hf2|].
    intros room info [[Hst Hid] (c & Hc & ->)]. cbn. unfold GetRoom. run. eauto.
Qed.

(** X29: no nil dereference on connect.  In every reachable state every
    room has a customer that is a client, so the websocket handler never
    panics on [room.Customer.Token]. *)
Theorem wsConnect_never_panics (token roomID : string) (acceptOk : bool) (w : World) :
  reachable w →
  roomsHaveCustomers w
  ∧ fst (wsConnect token roomID acceptOk w) ≠ Panicked.
Proof.
  intros Hreach. pose proof (reachable_wf w Hreach) as Hwf.
  pose proof (reachable_roomsHaveCustomers w Hreach) as Hcu.
  split; [exact Hcu|]. unfold wsConnect.
  case_bool_decide; cbn; [done|].
  case_bool_decide; cbn; [done|].
  unfold GetClient, GetRoom, load_room, load_client. run.
  destruct (Clients (hub w) !! token) as [client|]; cbn; [|done].
  destruct (Rooms (hub w) !! roomID) as [room|] eqn:Hroom; cbn; [|done].
  match goal with |- context [if ?b then _ else _] => destruct b end; cbn; [done|].
  destruct acceptOk; cbn; [|done].
  destruct (wf_room_at w roomID room Hwf Hroom) as [Hat _].
  destruct (Hcu _ _ Hat) as (c & Hc & _). rewrite Hc. cbn.
  destruct (bool_decide (Some client = Agent (room_at room w))); cbn; [|done].
  match goal with |- context [replay ?a ?b ?c ?d ?e ?w0] =>
    destruct (replay a b c d e w0) as [[] w2] end. done.
Qed.

(** X30: nothing is forgotten.  Along any run of events from a reachable
    state, clients are only added and keep their tokens, a token that is
    registered stays registered, and every room keeps its id and its
    customer and has its history extended, never cut or rewritten. *)
Theorem run_keeps_history (es : list Event) (w : World) :
  reachable w → freshAlong es w →
  let w' := run_events es w in
  tokens w `prefix_of` tokens w'
  ∧ (∀ t, is_Some (Clients (hub w) !! t) → is_Some (Clients (hub w') !! t))
  ∧ (∀ p rm, rooms w !! p = Some rm →
       ∃ rm', rooms w' !! p = Some rm' ∧ ID rm' = ID rm ∧ Customer rm' = Customer rm
              ∧ Messages rm `prefix_of` Messages rm').
Proof.
  revert w. induction es as [|e es IH]; intros w Hreach Hfresh.
  - cbn. split; [done|]. split; [done|]. intros p rm Hrm. exists rm. done.
  - destruct Hfresh as [Hfresh Halong]. rewrite run_events_cons.
    pose proof (reachable_evolves e w Hreach Hfresh) as Hev.
    destruct (IH _ (reachable_event _ _ Hreach Hfresh) Halong) as (Htk & Hreg & Hrooms).
    split; [|split].
    + etransitivity; [apply (ev_tokens _ _ Hev) | exact Htk].
    + intros t Ht. apply Hreg, (ev_registered _ _ Hev), Ht.
    + intros p rm Hrm.
      destruct (evolves_lookup _ _ p rm Hev Hrm) as (rm1 & Hrm1 & Hid1 & Hcu1 & Hms1 & _).
      destruct (Hrooms p rm1 Hrm1) as (rm' & Hrm' & Hid & Hcu & Hms).
      exists rm'. split; [done|]. split; [congruence|]. split; [congruence|].
      etransitivity; eauto.
Qed.

End Proofs.

Example chatWorld_room :
  rooms chatWorld = [mkRoom "room_r1" (Some 1%nat) (Some 0%nat) RoomActive
                       [mkChatMessage "message" "room_r1" "Ana" "Preciso de ajuda" ""] None]
  ∧ clients chatWorld = [mkClient "a1" "Bob" "en" None; mkClient "c1" "Ana" "" (Some 0%nat)].
Proof. vm_compute. split; reflexivity. Qed.

Example closingWorld_room :
  rooms closingWorld = [mkRoom "room_r1" (Some 1%nat) None RoomClosing
                       [mkChatMessage "message" "room_r1" "Ana" "Preciso de ajuda" ""] (Some 0%nat)]
  ∧ timers closingWorld = [mkTimer (5 * Minute) 0 Scheduled]
  ∧ wire closingWorld = [(0%nat, FChatEnded "chat_ended" "room_r1" "agent_left")].
Proof. vm_compute. repeat split; reflexivity. Qed.

(** [customerSession] is what the handler holds after the customer's
    connect in [chatEvents]. *)
Example customerSession_served :
  fst (wsConnect (H := exampleOracle) "c1" "room_r1" true
         (run_events (H := exampleOracle) (take 3 chatEvents) exampleStart))
  = Serving customerSession.
Proof. vm_compute. reflexivity. Qed.

(** The two directions of a translated message: the agent gets the
    original with the translation beside it, the customer the translation
    alone. *)
Example prepareMessage_both_ways :
  let toAgent := prepareMessage (H := exampleOracle) 0 1 0 "Preciso de ajuda" chatWorld in
  let toCustomer := prepareMessage (H := exampleOracle) 0 0 1 "Hi" (snd toAgent) in
  fst toAgent
  = mkChatMessage "message" "room_r1" "Ana" "Preciso de ajuda"
      "<Translate the following text from pt to en. Return ONLY the translation, nothing else: Preciso de ajuda>"
  ∧ fst toCustomer
    = mkChatMessage "message" "room_r1" "Bob"
        "<Translate the following text from en to pt. Return ONLY the translation, nothing else: Hi>"
        "".
Proof. vm_compute. split; reflexivity. Qed.

(** ** Witnesses and counterexamples on the concrete world *)

Lemma quickClock_mono (i j : nat) : (i ≤ j)%nat → quickClock i ≤ quickClock j.
Proof.
  intros Hij. unfold quickClock, Minute, Second.
  repeat case_bool_decide; lia.
Qed.

Lemma Allow_sliding_window_witness :
  fst (allowMany (H := exampleOracle) "token1" 5 exampleStart)
  = [true; true; true; false; true].
Proof.
  pose proof (Allow_sliding_window (H := exampleOracle) "token1" exampleStart)
    as (_ & _ & _ & _ & _ & Hscenario).
  apply Hscenario.
  - reflexivity.
  - reflexivity.
  - reflexivity.
  - exact quickClock_mono.
  - vm_compute. reflexivity.
  - vm_compute. discriminate.
Defined.

(** C3 as the specification words it fails on the code.  Read in the
    integers, "now minus the window" is 2^63 ns ahead of the clock for the
    window -2^63 ns, every stamp is older and is dropped, and every call
    answers true; the code negates the window as an int64, which gives
    -2^63 again, the cutoff lies 2^63 ns in the past, both stamps survive
    and the third call answers false. *)
Lemma cutoff_now_minus_window_fails :
  ¬ (∀ (H : Oracle) (token : string) (w : World),
       let r := limiter w in
       let cutoff := clock (ticks w) - window r in
       let surviving := filter (λ t, cutoff ≤ t) (default [] (limits r !! token)) in
       fst (Allow token w) = bool_decide (Z.of_nat (length surviving) < maxMessages r)).
Proof.
  intros Hall.
  specialize (Hall exampleOracle "c1" leastWindowWorld).
  vm_compute in Hall. discriminate.
Qed.

Example leastWindow_answers :
  fst (allowMany (H := exampleOracle) "c1" 3 leastWindowStart) = [true; true; false].
Proof. vm_compute. reflexivity. Qed.

(** C1 as the specification's data model words it fails: the translated
    field is filled for a recipient that is not the customer. *)
Lemma translated_field_only_for_customer_fails :
  ¬ (∀ (H : Oracle) (room sender recipient : ptr) (content : string) (w : World),
       TranslatedContent (fst (prepareMessage room sender recipient content w)) ≠ "" →
       Some recipient = Customer (room_at room w)).
Proof.
  intros Hall.
  specialize (Hall exampleOracle 0%nat 1%nat 0%nat "Preciso de ajuda" chatWorld).
  vm_compute in Hall.
  assert (Hne : Some 0%nat = Some 1%nat) by (apply Hall; discriminate).
  discriminate.
Qed.

Lemma prepareMessage_translated_field_witness :
  let msg := fst (prepareMessage (H := exampleOracle) 0 1 0 "Preciso de ajuda" chatWorld) in
  Content msg = "Preciso de ajuda" ∧ TranslatedContent msg ≠ "".
Proof.
  pose proof (prepareMessage_translated_field (H := exampleOracle)
                0%nat 1%nat 0%nat "Preciso de ajuda" chatWorld) as (_ & Hagent & _).
  split.
  - apply Hagent. vm_compute. discriminate.
  - vm_compute. discriminate.
Defined.

Lemma chatWorld_reachable : reachable (H := exampleOracle) chatWorld.
Proof.
  apply (run_events_reachable (H := exampleOracle)).
  - apply (reachable_initial (H := exampleOracle)).
  - cbn. repeat split. intros rm Hrm. vm_compute in Hrm. inversion Hrm.
Qed.

Example raceWorld_state :
  rooms raceWorld = [mkRoom "room_r1" (Some 1%nat) None RoomWaiting
                       [mkChatMessage "message" "room_r1" "Ana" "Preciso de ajuda" "";
                        mkChatMessage "message" "room_r1" "Ana" "Ainda aqui" ""] None]
  ∧ timers raceWorld = [mkTimer (5 * Minute) 0 Started]
  ∧ Rooms (hub raceWorld) = ∅.
Proof. vm_compute. repeat split; reflexivity. Qed.

Example staleWorld_state :
  rooms reopenedWorld = [mkRoom "room_r1" (Some 1%nat) None RoomWaiting
                       [mkChatMessage "message" "room_r1" "Ana" "Preciso de ajuda" "";
                        mkChatMessage "message" "room_r1" "Ana" "Ainda aqui" ""] None]
  ∧ timers reopenedWorld = [mkTimer (5 * Minute) 0 Scheduled; mkTimer (10 * Minute - 2) 0 Stopped]
  ∧ rooms staleWorld = [mkRoom "room_r1" (Some 1%nat) None RoomClosed
                       [mkChatMessage "message" "room_r1" "Ana" "Preciso de ajuda" "";
                        mkChatMessage "message" "room_r1" "Ana" "Ainda aqui" ""] None]
  ∧ Rooms (hub staleWorld) = ∅.
Proof. vm_compute. repeat split; reflexivity. Qed.

Lemma closingWorld_reachable : reachable (H := lateOracle) closingWorld.
Proof.
  apply (run_events_reachable (H := lateOracle)).
  - apply (reachable_initial (H := lateOracle)).
  - cbn. repeat split. intros rm Hrm. vm_compute in Hrm. inversion Hrm.
Qed.

Lemma JoinRoom_outcomes_witness :
  fst (JoinRoom "room_r1" (Some 0%nat) waitingWorld) = Ok 0%nat
  ∧ room_at 0 (snd (JoinRoom "room_r1" (Some 0%nat) waitingWorld))
    = mkRoom "room_r1" (Some 1%nat) (Some 0%nat) RoomActive
        [mkChatMessage "message" "room_r1" "Ana" "Preciso de ajuda" ""] None.
Proof.
  destruct (JoinRoom_outcomes "room_r1" (Some 0%nat) waitingWorld)
    as (_ & Hknown & _).
  destruct (Hknown 0%nat) as (_ & _ & _ & Hok); [vm_compute; reflexivity|].
  destruct Hok as (Hres & Hroom & _).
  - vm_compute. reflexivity.
  - vm_compute. reflexivity.
  - vm_compute. discriminate.
  - split; [exact Hres|]. rewrite Hroom. vm_compute. reflexivity.
Defined.

Lemma customer_message_reopens_room_witness :
  Status (room_at (ses_room customerSession)
            (snd (wsTurn (H := lateOracle) customerSession (Payload "Ainda aqui")
                    closingWorld))) = RoomWaiting.
Proof.
  assert (H1 : Status (room_at (ses_room customerSession) closingWorld) = RoomClosing)
    by (vm_compute; reflexivity).
  assert (H2 : Customer (room_at (ses_room customerSession) closingWorld) = Some 1%nat)
    by (vm_compute; reflexivity).
  assert (H3 : Token (client_at 1 closingWorld)
               = Token (client_at (ses_client customerSession) closingWorld))
    by (vm_compute; reflexivity).
  assert (H4 : fst (Allow (H := lateOracle)
                      (Token (client_at (ses_client customerSession) closingWorld))
                      closingWorld) = true)
    by (vm_compute; reflexivity).
  pose proof (customer_message_reopens_room (H := lateOracle) customerSession "Ainda aqui"
                1%nat closingWorld closingWorld_reachable H1 H2 H3 H4)
    as (_ & _ & _ & Hwaiting & _).
  exact Hwaiting.
Defined.

Lemma wsTurn_rate_limited_witness :
  wire (snd (wsTurn (H := exampleOracle) customerSession (Payload "quatro") busyWorld))
  = wire busyWorld ++ [(ses_conn customerSession, FError "error" "rate limit exceeded")].
Proof.
  assert (H1 : fst (Allow (H := exampleOracle)
                      (Token (client_at (ses_client customerSession) busyWorld))
                      busyWorld) = false)
    by (vm_compute; reflexivity).
  pose proof (wsTurn_rate_limited (H := exampleOracle) customerSession "quatro" busyWorld H1)
    as (_ & Hwire & _).
  exact Hwire.
Defined.

Lemma handleEndChat_agent_left_witness :
  Status (room_at 0 (snd (handleEndChat (H := exampleOracle) endChatByAgent chatWorld)))
  = RoomClosing.
Proof.
  assert (H1 : Method endChatByAgent = "POST") by (vm_compute; reflexivity).
  assert (H2 : TrimPrefix (Authorization endChatByAgent) "Bearer " ≠ "")
    by (vm_compute; discriminate).
  assert (H3 : Clients (hub chatWorld) !! TrimPrefix (Authorization endChatByAgent) "Bearer "
               = Some 0%nat) by (vm_compute; reflexivity).
  assert (H4 : Body endChatByAgent = Some (mkRoomRequest "room_r1"))
    by (vm_compute; reflexivity).
  assert (H5 : Rooms (hub chatWorld) !! "room_r1" = Some 0%nat) by (vm_compute; reflexivity).
  assert (H6 : is_Some (rooms chatWorld !! 0%nat)) by (vm_compute; eauto).
  assert (H7 : ∀ cu, Customer (room_at 0 chatWorld) = Some cu →
                     Token (client_at cu chatWorld) ≠ Token (client_at 0 chatWorld)).
  { intros cu Hcu. vm_compute in Hcu. injection Hcu as <-. vm_compute. discriminate. }
  pose proof (handleEndChat_agent_left (H := exampleOracle) endChatByAgent "room_r1"
                0%nat 0%nat chatWorld H1 H2 H3 H4 H5 H6 H7) as (_ & Hroom & _).
  rewrite Hroom. reflexivity.
Defined.




(** C7 as stated fails: removing a participant that a room refers to
    breaks the invariant in a reachable state that satisfies it. *)
Lemma RemoveClient_breaks_registration :
  ¬ (∀ (H : Oracle) (w : World) (o : HubOp),
       reachable w → participantsRegistered w →
       participantsRegistered (snd (hubOp o w))).
Proof.
  intros Hall.
  pose proof (Hall exampleOracle chatWorld (OpRemoveClient "c1") chatWorld_reachable
                (reachable_participantsRegistered (H := exampleOracle) _ chatWorld_reachable))
    as Hbroken.
  destruct (Hbroken "room_r1" 0%nat) as [Hcust _]; [vm_compute; reflexivity|].
  destruct (Hcust 1%nat) as [p Hp]; [vm_compute; reflexivity|].
  vm_compute in Hp. discriminate.
Qed.

Lemma participants_stay_registered_witness :
  participantsRegistered chatWorld
  ∧ participantsRegistered (snd (hubOp (OpRemoveClient "nobody") chatWorld)).
Proof.
  destruct (participants_stay_registered (H := exampleOracle) chatWorld) as [Hreach Hop].
  pose proof (Hreach chatWorld_reachable) as Hinv.
  split; [exact Hinv|]. apply Hop; [exact Hinv|].
  intros id room p Hid Hp.
  destruct (decide (id = "room_r1")) as [->|Hne].
  - vm_compute in Hid. injection Hid as <-.
    vm_compute in Hp. destruct Hp as [[= <-]|[= <-]]; vm_compute; discriminate.
  - exfalso. change (Rooms (hub chatWorld)) with (<["room_r1" := 0%nat]> (∅ : gmap string nat)) in Hid.
    rewrite lookup_insert_ne in Hid by congruence. rewrite lookup_empty in Hid. discriminate.
Defined.

(** C4 fails on the code: the key joins the three strings with colons, so
    a triple that was never stored finds the entry of another triple.
    After the translation of "fr:hello" from "en" to "pt" is stored, the
    first request to translate "hello" from "en" to "pt:fr" is answered
    from the cache, with the other text's translation and without a
    request to the translator. *)
Theorem Translate_key_collision :
  let first := Translate (H := exampleOracle) "fr:hello" "en" "pt" exampleStart in
  let second := Translate (H := exampleOracle) "hello" "en" "pt:fr" (snd first) in
  cache (translator exampleStart) = ∅
  ∧ cacheKey "en" "pt:fr" "hello" = cacheKey "en" "pt" "fr:hello"
  ∧ requests (snd first) = [translatePrompt "fr:hello" "en" "pt"]
  ∧ fst second = fst first
  ∧ requests (snd second) = requests (snd first)
  ∧ fst second ≠ exampleModel 1 (translatePrompt "hello" "en" "pt:fr").
Proof.
  vm_compute. repeat split; try reflexivity. discriminate.
Qed.

(** C8 fails on the code.  Side by side: the handler finds the room
    closing, the timer expires and its function closes the room, removes
    it from the hub and tells the customer, and the handler, whose [Stop]
    comes too late and whose result it does not look at, sets the status to
    waiting: the room is reopened and closed at once.  One after the
    other: a second end-chat request sets a second timer without stopping
    the first; the customer's message stops the second and reopens the
    room; the first then fires and closes the room, with no look at the
    status. *)
Theorem close_timer_races_reopen :
  (Status (room_at 0 recordedWorld) = RoomClosing
   ∧ tm_state (timer_at 0 recordedWorld) = Scheduled
   ∧ Status (room_at 0 raceWorld) = RoomWaiting
   ∧ CloseTimer (room_at 0 raceWorld) = None
   ∧ tm_state (timer_at 0 raceWorld) = Started
   ∧ Rooms (hub raceWorld) !! "room_r1" = None
   ∧ wire raceWorld = wire recordedWorld ++ [(0%nat, FChatEnded "chat_ended" "room_r1" "closed")])
  ∧ (Status (room_at 0 reopenedWorld) = RoomWaiting
     ∧ CloseTimer (room_at 0 reopenedWorld) = None
     ∧ tm_state (timer_at 1 reopenedWorld) = Stopped
     ∧ tm_state (timer_at 0 reopenedWorld) = Scheduled
     ∧ Rooms (hub reopenedWorld) !! "room_r1" = Some 0%nat
     ∧ Status (room_at 0 staleWorld) = RoomClosed
     ∧ Rooms (hub staleWorld) !! "room_r1" = None).
Proof.
  vm_compute. repeat split; reflexivity.
Qed.

(** ** Witnesses of the further properties *)

Lemma waitingWorld_reachable : reachable (H := exampleOracle) waitingWorld.
Proof.
  apply (run_events_reachable (H := exampleOracle)).
  - apply (reachable_initial (H := exampleOracle)).
  - cbn. repeat split. intros rm Hrm. vm_compute in Hrm. inversion Hrm.
Qed.

Lemma closedWorld_reachable : reachable (H := exampleOracle) closedWorld.
Proof.
  apply (run_events_reachable (H := exampleOracle)).
  - apply (reachable_initial (H := exampleOracle)).
  - cbn. repeat split. intros rm Hrm. vm_compute in Hrm. inversion Hrm.
Qed.

Lemma Allow_other_identity_witness :
  "a1" ≠ "c1"
  ∧ limits (limiter (snd (Allow (H := exampleOracle) "c1" busyWorld))) !! "a1"
    = limits (limiter busyWorld) !! "a1".
Proof.
  assert (H1 : "a1" ≠ "c1") by discriminate.
  pose proof (Allow_other_identity (H := exampleOracle) "c1" "a1" busyWorld H1) as (Hx & _).
  exact (conj H1 Hx).
Defined.

Lemma Allow_nonpositive_limit_witness :
  maxMessages (limiter mutedStart) ≤ 0
  ∧ Forall (λ b, b = false)
      (fst (allowEach (H := exampleOracle) ["c1"; "a1"; "c1"] mutedStart)).
Proof.
  assert (H1 : maxMessages (limiter mutedStart) ≤ 0) by (vm_compute; discriminate).
  pose proof (Allow_nonpositive_limit (H := exampleOracle) ["c1"; "a1"; "c1"] mutedStart H1)
    as (Hall & _).
  split; [exact H1|]. apply Forall_forall. exact Hall.
Defined.

Lemma allowEach_bounded_witness :
  limiterBounded
    (limiter (snd (allowEach (H := exampleOracle) ["c1"; "a1"; "c1"; "c1"; "c1"]
                     exampleStart))).
Proof.
  assert (H1 : limiterBounded (limiter exampleStart)).
  { intros token stamps Hl. cbn in Hl. rewrite lookup_empty in Hl. discriminate. }
  exact (allowEach_bounded (H := exampleOracle) ["c1"; "a1"; "c1"; "c1"; "c1"]
           exampleStart H1).
Defined.

Lemma Allow_after_window_witness :
  fst (Allow (H := exampleOracle) "c1" rejectedWorld) = true
  ∧ limits (limiter (snd (Allow (H := exampleOracle) "c1" rejectedWorld))) !! "c1"
    = Some [clock (Oracle := exampleOracle) (S (ticks rejectedWorld))].
Proof.
  assert (H0 : - 2 ^ 63 < window (limiter rejectedWorld) < 2 ^ 63)
    by (vm_compute; split; reflexivity).
  assert (H1 : 0 < maxMessages (limiter rejectedWorld)) by (vm_compute; reflexivity).
  assert (H2 : ∀ t, t ∈ default [] (limits (limiter rejectedWorld) !! "c1") →
                    t ≤ clock (Oracle := exampleOracle) (ticks rejectedWorld)
                        - window (limiter rejectedWorld)).
  { intros t Ht.
    assert (Hs : default [] (limits (limiter rejectedWorld) !! "c1") = [1; 3; 5])
      by (vm_compute; reflexivity).
    rewrite Hs in Ht.
    assert (Hc : clock (Oracle := exampleOracle) (ticks rejectedWorld)
                 - window (limiter rejectedWorld) = 7) by (vm_compute; reflexivity).
    rewrite Hc. apply list_elem_of_In in Ht. cbn in Ht.
    destruct Ht as [<-|[<-|[<-|[]]]]; lia. }
  exact (Allow_after_window (H := exampleOracle) "c1" rejectedWorld H0 H1 H2).
Defined.

Lemma Translate_failure_not_cached_witness :
  generate (Oracle := silentOracle) (length (requests exampleStart))
    (translatePrompt "Oi" "pt" "en") = None
  ∧ translator (snd (Translate (H := silentOracle) "Oi" "pt" "en" exampleStart))
    = translator exampleStart
  ∧ requests (snd (Translate (H := silentOracle) "Oi" "pt" "en" exampleStart))
    = requests exampleStart ++ [translatePrompt "Oi" "pt" "en"].
Proof.
  assert (H1 : fst (Translate (H := silentOracle) "Oi" "pt" "en" exampleStart) = None)
    by (vm_compute; reflexivity).
  exact (Translate_failure_not_cached (H := silentOracle) "Oi" "pt" "en" exampleStart H1).
Defined.

Lemma prepareMessage_skips_witness :
  prepareMessage (H := exampleOracle) 0 0 1 "Hello" chatWorld
  = (plainMessage 0 0 "Hello" chatWorld, chatWorld).
Proof.
  assert (H1 : needsDetection 0 0 chatWorld = false) by (vm_compute; reflexivity).
  assert (H2 : languagesDiffer 0 1 chatWorld = false) by (vm_compute; reflexivity).
  exact (prepareMessage_skips (H := exampleOracle) 0%nat 0%nat 1%nat "Hello" chatWorld H1 H2).
Defined.

Lemma prepareMessage_detection_fails_witness :
  prepareMessage (H := silentOracle) 0 1 0 "Preciso de ajuda" chatWorld
  = (plainMessage 0 1 "Preciso de ajuda" chatWorld,
     set_requests (λ l, l ++ [detectPrompt "Preciso de ajuda"]) chatWorld).
Proof.
  assert (H1 : needsDetection 0 1 chatWorld = true) by (vm_compute; reflexivity).
  assert (H2 : generate (Oracle := silentOracle) (length (requests chatWorld))
                 (detectPrompt "Preciso de ajuda") = None) by reflexivity.
  exact (prepareMessage_detection_fails (H := silentOracle) 0%nat 1%nat 0%nat
           "Preciso de ajuda" chatWorld H1 H2).
Defined.

Lemma JoinRoom_only_once_witness :
  JoinRoom "room_r1" (Some 0%nat) (snd (JoinRoom "room_r1" (Some 0%nat) waitingWorld))
  = (Err ("room is not available: " +:+ "room_r1"),
     snd (JoinRoom "room_r1" (Some 0%nat) waitingWorld)).
Proof.
  assert (H1 : fst (JoinRoom "room_r1" (Some 0%nat) waitingWorld) = Ok 0%nat)
    by (vm_compute; reflexivity).
  pose proof (JoinRoom_only_once "room_r1" (Some 0%nat) (Some 0%nat) 0%nat waitingWorld H1)
    as (_ & _ & Hx).
  exact Hx.
Defined.

Lemma handleStartChat_opens_room_witness :
  fst (GetRoom "room_r2" (snd (handleStartChat "c2" "r2" secondChat chatWorld)))
    = Some (length (rooms chatWorld))
  ∧ room_at (length (rooms chatWorld)) (snd (handleStartChat "c2" "r2" secondChat chatWorld))
    = mkRoom "room_r2" (Some (length (clients chatWorld))) None RoomWaiting
        [mkChatMessage "message" "room_r2" "Eva" "Hello" ""] None.
Proof.
  assert (H1 : Method secondChat = "POST") by reflexivity.
  assert (H2 : Body secondChat = Some (mkStartChatRequest "Eva" "Hello")) by reflexivity.
  assert (H3 : "Eva" ≠ "") by discriminate.
  assert (H4 : "Hello" ≠ "") by discriminate.
  pose proof (handleStartChat_opens_room "c2" "r2" "Eva" "Hello" secondChat chatWorld
                H1 H2 H3 H4) as (_ & _ & _ & Hfound & Hroom & _).
  exact (conj Hfound Hroom).
Defined.

Lemma handleJoinRoom_joins_witness :
  fst (handleJoinRoom joinByAgent lobbyWorld)
    = RoomJoinedResponse "room_joined" (ID (room_at 0 lobbyWorld))
  ∧ wire (snd (handleJoinRoom joinByAgent lobbyWorld))
    = wire lobbyWorld ++ match Connection (client_at 1 lobbyWorld) with
                         | Some conn =>
                           [(conn, FRoomJoined "room_joined" (ID (room_at 0 lobbyWorld)))]
                         | None => []
                         end.
Proof.
  assert (H1 : Method joinByAgent = "POST") by reflexivity.
  assert (H2 : TrimPrefix (Authorization joinByAgent) "Bearer " ≠ "")
    by (vm_compute; discriminate).
  assert (H3 : Clients (hub lobbyWorld) !! TrimPrefix (Authorization joinByAgent) "Bearer "
               = Some 0%nat) by (vm_compute; reflexivity).
  assert (H4 : fst (IsAgentInRoom (Token (client_at 0 lobbyWorld)) lobbyWorld) = false)
    by (vm_compute; reflexivity).
  assert (H5 : Body joinByAgent = Some (mkRoomRequest "room_r1")) by reflexivity.
  assert (H6 : Rooms (hub lobbyWorld) !! "room_r1" = Some 0%nat) by (vm_compute; reflexivity).
  assert (H7 : Status (room_at 0 lobbyWorld) = RoomWaiting) by (vm_compute; reflexivity).
  assert (H8 : Agent (room_at 0 lobbyWorld) = None) by (vm_compute; reflexivity).
  assert (H9 : Customer (room_at 0 lobbyWorld) = Some 1%nat) by (vm_compute; reflexivity).
  pose proof (handleJoinRoom_joins joinByAgent "room_r1" 0%nat 0%nat 1%nat lobbyWorld
                H1 H2 H3 H4 H5 H6 H7 H8 H9) as (Hresp & _ & _ & Hwire & _).
  exact (conj Hresp Hwire).
Defined.

Lemma handleEndChat_customer_left_witness :
  room_at 0 (snd (handleEndChat (H := exampleOracle) endChatByCustomer chatWorld))
    = with_Status RoomClosed (room_at 0 chatWorld)
  ∧ Rooms (hub (snd (handleEndChat (H := exampleOracle) endChatByCustomer chatWorld)))
    = delete (ID (room_at 0 chatWorld)) (Rooms (hub chatWorld)).
Proof.
  assert (H1 : Method endChatByCustomer = "POST") by reflexivity.
  assert (H2 : TrimPrefix (Authorization endChatByCustomer) "Bearer " ≠ "")
    by (vm_compute; discriminate).
  assert (H3 : Clients (hub chatWorld) !! TrimPrefix (Authorization endChatByCustomer) "Bearer "
               = Some 1%nat) by (vm_compute; reflexivity).
  assert (H4 : Body endChatByCustomer = Some (mkRoomRequest "room_r1")) by reflexivity.
  assert (H5 : Rooms (hub chatWorld) !! "room_r1" = Some 0%nat) by (vm_compute; reflexivity).
  assert (H6 : is_Some (rooms chatWorld !! 0%nat)) by (vm_compute; eauto).
  assert (H7 : Customer (room_at 0 chatWorld) = Some 1%nat) by (vm_compute; reflexivity).
  assert (H8 : Token (client_at 1 chatWorld) = Token (client_at 1 chatWorld)) by reflexivity.
  pose proof (handleEndChat_customer_left (H := exampleOracle) endChatByCustomer "room_r1"
                1%nat 0%nat 1%nat chatWorld H1 H2 H3 H4 H5 H6 H7 H8)
    as (_ & Hroom & _ & Hhub & _).
  exact (conj Hroom Hhub).
Defined.

Lemma wsTurn_closed_room_witness :
  fst (wsTurn (H := exampleOracle) customerSession (Payload "Alguem?") closedWorld) = Break
  ∧ wire (snd (wsTurn (H := exampleOracle) customerSession (Payload "Alguem?") closedWorld))
    = wire closedWorld ++ [(ses_conn customerSession, FError "error" "room is closed")].
Proof.
  assert (H1 : fst (Allow (H := exampleOracle)
                      (Token (client_at (ses_client customerSession) closedWorld))
                      closedWorld) = true) by (vm_compute; reflexivity).
  assert (H2 : Status (room_at (ses_room customerSession) closedWorld) = RoomClosed)
    by (vm_compute; reflexivity).
  pose proof (wsTurn_closed_room (H := exampleOracle) customerSession "Alguem?" closedWorld
                H1 H2) as (Hflow & Hwire & _).
  exact (conj Hflow Hwire).
Defined.

Lemma wsTurn_recipient_offline_witness :
  snd (wsTurn (H := exampleOracle) customerSession (Payload "Ola") chatWorld)
    = recordedChat
  ∧ Status (room_at (ses_room customerSession)
              (snd (wsTurn (H := lateOracle) customerSession (Payload "Ainda aqui")
                      closingWorld))) = RoomWaiting.
Proof.
  assert (H1 : fst (Allow (H := exampleOracle)
                      (Token (client_at (ses_client customerSession) chatWorld))
                      chatWorld) = true) by (vm_compute; reflexivity).
  assert (H2 : is_Some (rooms chatWorld !! ses_room customerSession)) by (vm_compute; eauto).
  assert (H3 : Status (room_at (ses_room customerSession) chatWorld) ≠ RoomClosed)
    by (vm_compute; discriminate).
  assert (H4 : ∀ rc, ses_recipient customerSession = Some rc →
                     Connection (client_at rc chatWorld) = None).
  { intros rc Hrc. injection Hrc as <-. vm_compute. reflexivity. }
  assert (L1 : fst (Allow (H := lateOracle)
                      (Token (client_at (ses_client customerSession) closingWorld))
                      closingWorld) = true) by (vm_compute; reflexivity).
  assert (L2 : is_Some (rooms closingWorld !! ses_room customerSession))
    by (vm_compute; eauto).
  assert (L3 : Status (room_at (ses_room customerSession) closingWorld) ≠ RoomClosed)
    by (vm_compute; discriminate).
  assert (L4 : ∀ rc, ses_recipient customerSession = Some rc →
                     Connection (client_at rc closingWorld) = None).
  { intros rc Hrc. injection Hrc as <-. vm_compute. reflexivity. }
  pose proof (wsTurn_recipient_offline (H := exampleOracle) customerSession "Ola" chatWorld
                H1 H2 H3 H4) as (_ & Hsame & _).
  pose proof (wsTurn_recipient_offline (H := lateOracle) customerSession "Ainda aqui"
                closingWorld L1 L2 L3 L4) as (_ & _ & Hreopen & _).
  split.
  - rewrite Hsame; [vm_compute; reflexivity | vm_compute; reflexivity].
  - apply Hreopen. vm_compute. reflexivity.
Defined.

Lemma closing_room_stays_closing_witness :
  Status (room_at (ses_room agentSession)
            (snd (wsTurn (H := lateOracle) agentSession (Payload "Still there?")
                    closingWorld))) = RoomClosing
  ∧ timers (snd (wsTurn (H := lateOracle) agentSession (Payload "Still there?")
                   closingWorld)) = timers closingWorld.
Proof.
  assert (H1 : fst (Allow (H := lateOracle)
                      (Token (client_at (ses_client agentSession) closingWorld))
                      closingWorld) = true) by (vm_compute; reflexivity).
  assert (H2 : Status (room_at (ses_room agentSession) closingWorld) = RoomClosing)
    by (vm_compute; reflexivity).
  assert (H3 : ∀ cu, Customer (room_at (ses_room agentSession) closingWorld) = Some cu →
                     Token (client_at cu closingWorld)
                     ≠ Token (client_at (ses_client agentSession) closingWorld)).
  { intros cu Hcu. vm_compute in Hcu. injection Hcu as <-. vm_compute. discriminate. }
  pose proof (closing_room_stays_closing (H := lateOracle) agentSession "Still there?"
                closingWorld H1 H2 H3) as (_ & Hst & _ & Htm & _).
  exact (conj Hst Htm).
Defined.

Lemma room_lifecycle_witness :
  evolves waitingWorld (snd (handle (H := exampleOracle) (EvJoinRoom joinByAgent) waitingWorld)).
Proof.
  exact (room_lifecycle (H := exampleOracle) (EvJoinRoom joinByAgent) waitingWorld
           waitingWorld_reachable I).
Defined.

Lemma closed_is_final_witness :
  Status (room_at 0 (run_events (H := exampleOracle)
                       [EvTurn customerSession (Payload "Alguem?"); EvJoinRoom joinByAgent]
                       closedWorld)) = RoomClosed
  ∧ fst (GetRoom (ID (room_at 0 closedWorld))
           (run_events (H := exampleOracle)
              [EvTurn customerSession (Payload "Alguem?"); EvJoinRoom joinByAgent]
              closedWorld)) = None.
Proof.
  assert (H1 : freshAlong (H := exampleOracle)
                 [EvTurn customerSession (Payload "Alguem?"); EvJoinRoom joinByAgent]
                 closedWorld) by (cbn; auto).
  assert (H2 : rooms closedWorld !! 0%nat = Some (room_at 0 closedWorld))
    by (vm_compute; reflexivity).
  assert (H3 : Status (room_at 0 closedWorld) = RoomClosed) by (vm_compute; reflexivity).
  pose proof (closed_is_final (H := exampleOracle)
                [EvTurn customerSession (Payload "Alguem?"); EvJoinRoom joinByAgent]
                closedWorld 0%nat (room_at 0 closedWorld)
                closedWorld_reachable H1 H2 H3) as (Hst & _ & Hhub).
  exact (conj Hst Hhub).
Defined.

Lemma agent_in_one_room_witness : agentsDistinct chatWorld.
Proof.
  exact (agent_in_one_room (H := exampleOracle) chatWorld chatWorld_reachable).
Defined.

Lemma handleRooms_lists_waiting_witness :
  ∃ result, handleRooms listRooms waitingWorld = (RoomsList result, waitingWorld)
    ∧ Forall2 (λ room info,
         (Status (room_at room waitingWorld) = RoomWaiting
          ∧ fst (GetRoom (info_RoomID info) waitingWorld) = Some room)
         ∧ ∃ c, Customer (room_at room waitingWorld) = Some c
           ∧ info = mkRoomInfo (ID (room_at room waitingWorld))
                      (Name (client_at c waitingWorld))
                      (Language (client_at c waitingWorld)))
        (fst (GetWaitingRooms waitingWorld)) result.
Proof.
  pose proof (handleRooms_lists_waiting (H := exampleOracle) listRooms waitingWorld
                waitingWorld_reachable) as (_ & Hget).
  exact (Hget eq_refl).
Defined.

Lemma wsConnect_never_panics_witness :
  roomsHaveCustomers waitingWorld
  ∧ fst (wsConnect (H := exampleOracle) "c1" "room_r1" true waitingWorld) ≠ Panicked.
Proof.
  exact (wsConnect_never_panics (H := exampleOracle) "c1" "room_r1" true waitingWorld
           waitingWorld_reachable).
Defined.

Lemma run_keeps_history_witness :
  tokens waitingWorld `prefix_of` tokens chatWorld
  ∧ (∀ t, is_Some (Clients (hub waitingWorld) !! t) → is_Some (Clients (hub chatWorld) !! t))
  ∧ (∀ p rm, rooms waitingWorld !! p = Some rm →
       ∃ rm', rooms chatWorld !! p = Some rm' ∧ ID rm' = ID rm ∧ Customer rm' = Customer rm
              ∧ Messages rm `prefix_of` Messages rm').
Proof.
  assert (H1 : freshAlong (H := exampleOracle) (drop 2 chatEvents) waitingWorld)
    by (cbn; auto).
  exact (run_keeps_history (H := exampleOracle) (drop 2 chatEvents) waitingWorld
           waitingWorld_reachable H1).
Defined.

(** The close timer of [closingWorld]: not due when the room has just been
    left, due and fired once the customer's turn has read the clock. *)
Lemma timerFires_outcomes_witness :
  snd (timerFires (H := lateOracle) 0 closingWorld) = set_ticks S closingWorld
  ∧ Status (room_at (tm_room (timer_at 0 recordedWorld))
              (snd (timerFires (H := lateOracle) 0 recordedWorld))) = RoomClosed.
Proof.
  pose proof (timerFires_outcomes (H := lateOracle) 0%nat closingWorld) as (Hidle & _).
  pose proof (timerFires_outcomes (H := lateOracle) 0%nat recordedWorld) as (_ & Hfire).
  split.
  - apply Hidle. right. vm_compute. reflexivity.
  - destruct Hfire as (_ & Hroom & _).
    + vm_compute. reflexivity.
    + vm_compute. discriminate.
    + vm_compute. eauto.
    + rewrite Hroom. reflexivity.
Defined.

Lemma GetWaitingRooms_spec_witness :
  0%nat ∈ fst (GetWaitingRooms waitingWorld) ∧ NoDup (fst (GetWaitingRooms waitingWorld)).
Proof.
  pose proof (GetWaitingRooms_spec (H := exampleOracle) waitingWorld) as (_ & Hin & Hnodup).
  split.
  - apply Hin. exists "room_r1". vm_compute. split; reflexivity.
  - exact (Hnodup waitingWorld_reachable).
Defined.

(** A join request with a token that nobody holds. *)
Lemma rest_errors_change_nothing_witness :
  snd (handleJoinRoom (post "Bearer nobody" (mkRoomRequest "room_r1")) chatWorld) = chatWorld.
Proof.
  pose proof (rest_errors_change_nothing (H := exampleOracle) chatWorld "invalid token"
                StatusUnauthorized) as (_ & _ & Hjoin & _).
  apply Hjoin. vm_compute. reflexivity.
Defined.

(** The customer's connection request in [waitingWorld], and one with no
    token. *)
Lemma wsConnect_outcomes_witness :
  accepted (snd (wsConnect (H := exampleOracle) "c1" "room_r1" true waitingWorld))
    = S (accepted waitingWorld)
  ∧ snd (wsConnect (H := exampleOracle) "" "room_r1" true waitingWorld) = waitingWorld.
Proof.
  pose proof (wsConnect_outcomes (H := exampleOracle) "c1" "room_r1" true waitingWorld)
    as (_ & _ & Hserving).
  pose proof (wsConnect_outcomes (H := exampleOracle) "" "room_r1" true waitingWorld)
    as (Hrefused & _).
  split.
  - destruct (Hserving (mkSession 1 0 0 None)) as (_ & _ & _ & _ & _ & Hacc & _);
      [vm_compute; reflexivity | exact Hacc].
  - apply (Hrefused (HttpError "token required" StatusUnauthorized)).
    vm_compute. reflexivity.
Defined.

Lemma wsTurn_disconnects_witness :
  fst (wsTurn (H := exampleOracle) customerSession ReadError chatWorld) = Break
  ∧ Connection (client_at (ses_client customerSession)
                  (snd (wsTurn (H := exampleOracle) customerSession ReadError chatWorld)))
    = None.
Proof.
  pose proof (wsTurn_disconnects (H := exampleOracle) customerSession ReadError chatWorld)
    as (Hiff & Hconn).
  assert (Hbreak : fst (wsTurn (H := exampleOracle) customerSession ReadError chatWorld)
                   = Break) by (apply Hiff; left; reflexivity).
  split; [exact Hbreak|]. apply Hconn; [exact Hbreak|]. vm_compute. eauto.
Defined.

Lemma twiceEndedWorld_reachable : reachable (H := lateOracle) twiceEndedWorld.
Proof.
  apply (run_events_reachable (H := lateOracle)).
  - apply (reachable_initial (H := lateOracle)).
  - cbn. repeat split. intros rm Hrm. vm_compute in Hrm. inversion Hrm.
Qed.

(** C5 fails on the code.  The agent's end-chat request is served twice
    (the handler looks neither at the room's status nor at a timer that is
    already set), which sets two close timers and records the second in
    the room.  The room is closing, the customer's message comes before
    either deadline and is accepted, and the reopening block stops and
    clears the recorded timer and sets the status to waiting, so that
    [JoinRoom] would succeed at that moment; but the first deadline is
    still pending: its timer expires, closes the room and takes it out of
    the hub, and [JoinRoom] answers "room not found" to every agent. *)
Theorem reopen_leaves_earlier_deadline :
  let turn := wsTurn (H := lateOracle) customerSession (Payload "Ainda aqui")
                twiceEndedWorld in
  let fired := snd (timerFires (H := lateOracle) 0 (snd turn)) in
  (reachable (H := lateOracle) twiceEndedWorld
   ∧ Status (room_at 0 twiceEndedWorld) = RoomClosing
   ∧ Customer (room_at 0 twiceEndedWorld) = Some 1%nat
   ∧ Token (client_at 1 twiceEndedWorld)
     = Token (client_at (ses_client customerSession) twiceEndedWorld)
   ∧ fst (Allow (H := lateOracle) "c1" twiceEndedWorld) = true
   ∧ timers twiceEndedWorld
     = [mkTimer (5 * Minute) 0 Scheduled; mkTimer (10 * Minute - 2) 0 Scheduled]
   ∧ CloseTimer (room_at 0 twiceEndedWorld) = Some 1%nat
   ∧ clock (Oracle := lateOracle) (ticks twiceEndedWorld) < 5 * Minute)
  ∧ (fst turn = Continue
     ∧ Status (room_at 0 (snd turn)) = RoomWaiting
     ∧ CloseTimer (room_at 0 (snd turn)) = None
     ∧ timers (snd turn)
       = [mkTimer (5 * Minute) 0 Scheduled; mkTimer (10 * Minute - 2) 0 Stopped]
     ∧ fst (JoinRoom "room_r1" (Some 0%nat) (snd turn)) = Ok 0%nat)
  ∧ (tm_state (timer_at 0 fired) = Started
     ∧ Status (room_at 0 fired) = RoomClosed
     ∧ Rooms (hub fired) !! "room_r1" = None
     ∧ ∀ agent, fst (JoinRoom "room_r1" agent fired) = Err "room not found: room_r1").
Proof.
  intros turn fired. split; [|split].
  - split; [exact twiceEndedWorld_reachable|].
    vm_compute. repeat split; reflexivity.
  - vm_compute. repeat split; reflexivity.
  - split; [vm_compute; reflexivity|].
    split; [vm_compute; reflexivity|].
    assert (Hgone : Rooms (hub fired) !! "room_r1" = None) by (vm_compute; reflexivity).
    split; [exact Hgone|].
    intros agent. rewrite JoinRoom_run, Hgone. reflexivity.
Qed.
